(** * LoopNet scraper: a shallow embedding of [scripts/utils.py] and
    [scripts/scrape_loopnet.py], and the properties of the extraction engine.

    Conventions of the embedding.
    - Python [str] is [string], and the embedding covers ASCII text
      ([ascii_text]: every code point below 128).  The classes are Python's
      on such text: [\d] is ['0'..'9'], [\s] and [str.strip] are
      [str.isspace] on code points below 128, [\w] is letters, digits and
      underscore.  Python's classes are Unicode-aware (an Arabic-Indic digit
      is a [\d], a no-break space a [\s], an accented letter a [\w]); the
      embedding does not describe the code on such text, and a statement
      whose truth depends on what a class holds there carries [ascii_text]
      as a hypothesis.
    - Python [float] is IEEE binary64, as [spec_float] with precision 53 and
      maximal exponent 1024; [float(token)] is the correctly rounded value of
      the decimal token.  [None] and NaN are the two nulls of a record.
    - A Python exception is an explicit outcome [Raise]; [try/except] is a
      match on the outcome.  Methods of the scraper thread the object state
      ([self]) and keep the state changes made before an exception.
    - The browser, the HTTP session and the pages are the outside world: a
      [world] gives the answer to every request, and may answer differently
      each time.  Selectors are not interpreted: a page is what the selectors
      of the source find on it.
    - [property_data] is a finite map from field names to values;
      [self.properties] and the data frame built from it are lists of such
      maps.
    - Not modelled: logging, [time.sleep], the scroll scripts (they are part
      of the request that may fail), and a failure of [driver.quit()]. *)

From Stdlib Require Import ZArith String Ascii List Bool Lia SpecFloat Permutation.
From Stdlib Require Import DecimalString DecimalN.
From stdpp Require Import base option list gmap strings.

Local Open Scope Z_scope.

(** ** Exceptions *)

Inductive exn : Type :=
  | ValueError
  | TypeError
  | ZeroDivisionError
  | NoSuchElementException
  | WebDriverException
  | RequestException.

Inductive outcome (A : Type) : Type :=
  | Ret (a : A)
  | Raise (e : exn).
Arguments Ret {A} a.
Arguments Raise {A} e.

(** ** Text: character classes and the regular-expression primitives *)

Module Text.

Definition code (c : ascii) : N := N_of_ascii c.

Definition between (lo hi : N) (c : ascii) : bool :=
  ((lo <=? code c) && (code c <=? hi))%N.

(** A code point of ASCII text. *)
Definition is_ascii (c : ascii) : bool := (code c <? 128)%N.

(** [\d], on ASCII text *)
Definition is_digit (c : ascii) : bool := between 48 57 c.
(** [[A-Z]] *)
Definition is_upper (c : ascii) : bool := between 65 90 c.
Definition is_lower (c : ascii) : bool := between 97 122 c.
(** [\s] and [str.isspace], on ASCII text: TAB..CR, FS..US and the space. *)
Definition is_space (c : ascii) : bool :=
  between 9 13 c || between 28 31 c || (code c =? 32)%N.
(** [\w], on ASCII text *)
Definition is_word (c : ascii) : bool :=
  is_digit c || is_upper c || is_lower c || (code c =? 95)%N.

Definition is_char (x c : ascii) : bool := (code c =? code x)%N.
Definition one_of (xs : string) (c : ascii) : bool :=
  existsb (fun x => is_char x c) (list_ascii_of_string xs).

Fixpoint take_while (p : ascii -> bool) (l : list ascii) : list ascii :=
  match l with
  | [] => []
  | c :: l' => if p c then c :: take_while p l' else []
  end.

Fixpoint drop_while (p : ascii -> bool) (l : list ascii) : list ascii :=
  match l with
  | [] => []
  | c :: l' => if p c then drop_while p l' else l
  end.

(** [re.sub(r'[^...]', '', s)]: every character outside the class goes. *)
Definition keep (p : ascii -> bool) (s : string) : string :=
  string_of_list_ascii (List.filter p (list_ascii_of_string s)).

(** [re.sub(r'C+', ' ', s)] for a character class [C]: each maximal run of
    class characters becomes one space. *)
Fixpoint squeeze_go (p : ascii -> bool) (in_run : bool) (l : list ascii) : list ascii :=
  match l with
  | [] => []
  | c :: l' =>
      if p c then (if in_run then squeeze_go p true l' else " "%char :: squeeze_go p true l')
      else c :: squeeze_go p false l'
  end.
Definition squeeze (p : ascii -> bool) (s : string) : string :=
  string_of_list_ascii (squeeze_go p false (list_ascii_of_string s)).

(** [str.strip()] *)
Definition strip_l (l : list ascii) : list ascii :=
  rev (drop_while is_space (rev (drop_while is_space l))).
Definition strip (s : string) : string :=
  string_of_list_ascii (strip_l (list_ascii_of_string s)).

(** [needle in s] *)
Fixpoint is_prefix (p l : list ascii) : bool :=
  match p, l with
  | [], _ => true
  | a :: p', b :: l' => is_char a b && is_prefix p' l'
  | _ :: _, [] => false
  end.
Fixpoint contains_l (p l : list ascii) : bool :=
  is_prefix p l || match l with [] => false | _ :: l' => contains_l p l' end.
Definition contains (needle s : string) : bool :=
  contains_l (list_ascii_of_string needle) (list_ascii_of_string s).
Definition startswith (s p : string) : bool :=
  is_prefix (list_ascii_of_string p) (list_ascii_of_string s).

(** [s.split(sep)] for a one-character separator. *)
Fixpoint split_go (sep : ascii) (cur : list ascii) (l : list ascii) : list string :=
  match l with
  | [] => [string_of_list_ascii (rev cur)]
  | c :: l' =>
      if is_char sep c then string_of_list_ascii (rev cur) :: split_go sep [] l'
      else split_go sep (c :: cur) l'
  end.
Definition split (sep : ascii) (s : string) : list string :=
  split_go sep [] (list_ascii_of_string s).

(** The first [Some] that [f] gives along [ns]: the order in which a
    backtracking matcher tries its alternatives. *)
Fixpoint first_some {A B : Type} (f : A -> option B) (ns : list A) : option B :=
  match ns with
  | [] => None
  | n :: ns' => match f n with Some r => Some r | None => first_some f ns' end
  end.

(** The repetition counts a greedy quantifier tries: [hi], [hi-1], ..., [lo]. *)
Definition greedy (lo hi : nat) : list nat := rev (seq lo (S hi - lo)).

End Text.

(** ASCII text: the strings on which the classes above are Python's. *)
Definition ascii_text (s : string) : bool :=
  forallb Text.is_ascii (list_ascii_of_string s).

(** ** Python floats *)

Module Float.

Definition prec : Z := 53.
Definition emax : Z := 1024.

Abbreviation float := spec_float.

Definition nan : float := S754_nan.
Definition zero : float := S754_zero false.
Definition div : float -> float -> float := SFdiv prec emax.
Definition eqb : float -> float -> bool := SFeqb.
Definition ltb : float -> float -> bool := SFltb.

(** [pd.isna] / [math.isnan] *)
Definition is_nan (x : float) : bool :=
  match x with S754_nan => true | _ => false end.

(** [bool(x)] for a float: [x != 0.0]; NaN is truthy. *)
Definition truthy (x : float) : bool := negb (eqb x zero).

(** The integer [n] as an exact operand of a division. *)
Definition of_N (n : N) : float :=
  match n with
  | N0 => zero
  | Npos p => S754_finite false p 0
  end.

(** The binary64 nearest to [m / 10^k] (ties to even), [inf] on overflow. *)
Definition of_decimal (m : N) (k : nat) : float :=
  div (of_N m) (of_N (10 ^ N.of_nat k)).

Definition digit_value (c : ascii) : N := (Text.code c - 48)%N.

Definition digits_value (ds : list ascii) : N :=
  fold_left (fun acc c => (10 * acc + digit_value c)%N) ds 0%N.

(** [float(s)] on the strings the parsers hand to it, which hold digits and
    periods only ([parse_price_token_alphabet], [parse_square_feet_token_alphabet]):
    digits with at most one period and at least one digit, otherwise
    [ValueError]. *)
Definition py_float (s : string) : outcome float :=
  let l := list_ascii_of_string s in
  let ip := Text.take_while Text.is_digit l in
  let rest := Text.drop_while Text.is_digit l in
  match rest with
  | [] =>
      match ip with
      | [] => Raise ValueError
      | _ => Ret (of_decimal (digits_value ip) 0)
      end
  | c :: fp =>
      if Text.is_char "." c && forallb Text.is_digit fp
         && negb (Nat.eqb (length ip + length fp) 0)
      then Ret (of_decimal (digits_value (ip ++ fp)) (length fp))
      else Raise ValueError
  end.

End Float.

Abbreviation float := spec_float.

(** ** scripts/utils.py *)

(** [clean_text]; [None] stands for an argument that is [None] or NaN. *)
Definition clean_text (text : option string) : string :=
  match text with
  | None => ""
  | Some text =>
      let text := Text.squeeze Text.is_space text in
      let text := Text.keep (fun c => Text.is_word c || Text.is_space c
                                      || Text.one_of ".,!?;:()-'" c
                                      || (Text.code c =? 34)%N) text in
      let text := Text.squeeze (Text.is_char " ") text in
      Text.strip text
  end.

(** The token [parse_price] hands to [float]. *)
Definition price_token (price_str : string) : string :=
  let price_str := Text.keep (fun c => Text.is_digit c || Text.one_of ".," c) price_str in
  Text.keep (fun c => negb (Text.is_char "," c)) price_str.

Definition parse_price (price_str : option string) : outcome float :=
  match price_str with
  | None => Ret Float.nan
  | Some price_str =>
      match Float.py_float (price_token price_str) with
      | Ret x => Ret x
      | Raise ValueError => Ret Float.nan
      | Raise e => Raise e
      end
  end.

(** [re.search(r'([\d,]+)', s)]: the leftmost, longest run of digits and
    commas. *)
Fixpoint search_run (p : ascii -> bool) (l : list ascii) : option (list ascii) :=
  match l with
  | [] => None
  | c :: l' => if p c then Some (Text.take_while p l) else search_run p l'
  end.

Definition sqft_match (sqft_str : string) : option string :=
  string_of_list_ascii <$>
    search_run (fun c => Text.is_digit c || Text.is_char "," c)
               (list_ascii_of_string sqft_str).

Definition parse_square_feet (sqft_str : option string) : outcome float :=
  match sqft_str with
  | None => Ret Float.nan
  | Some sqft_str =>
      match sqft_match sqft_str with
      | Some group1 =>
          let num_str := Text.keep (fun c => negb (Text.is_char "," c)) group1 in
          match Float.py_float num_str with
          | Ret x => Ret x
          | Raise ValueError => Ret Float.nan
          | Raise e => Raise e
          end
      | None => Ret Float.nan
      end
  end.

(** [re.search(r'([^,]+),\s*([A-Z]{2})', location)].  At a start position the
    matcher tries the lengths of group 1 from the longest run without a comma
    down to one character, wants a comma, tries the lengths of [\s*] from
    the longest down to zero, and wants two capitals; the search moves the
    start position from left to right. *)
Definition two_capitals (l : list ascii) : option (list ascii) :=
  match l with
  | a :: b :: _ => if Text.is_upper a && Text.is_upper b then Some [a; b] else None
  | _ => None
  end.

Definition city_state_at (l : list ascii) : option (list ascii * list ascii) :=
  let not_comma c := negb (Text.is_char "," c) in
  Text.first_some
    (fun n =>
       match drop n l with
       | c :: r =>
           if Text.is_char "," c then
             Text.first_some
               (fun m => (fun g2 => (take n l, g2)) <$> two_capitals (drop m r))
               (Text.greedy 0 (length (Text.take_while Text.is_space r)))
           else None
       | [] => None
       end)
    (Text.greedy 1 (length (Text.take_while not_comma l))).

Fixpoint city_state_search (l : list ascii) : option (list ascii * list ascii) :=
  match city_state_at l with
  | Some r => Some r
  | None => match l with [] => None | _ :: l' => city_state_search l' end
  end.

Definition extract_city_state (location : option string) : option string * option string :=
  match location with
  | None => (None, None)
  | Some location =>
      let location := Text.strip location in
      match city_state_search (list_ascii_of_string location) with
      | Some (g1, g2) =>
          let city := Text.strip (string_of_list_ascii g1) in
          let state := Text.strip (string_of_list_ascii g2) in
          (Some city, Some state)
      | None => (None, None)
      end
  end.

(** ** State and exceptions *)

(** A computation on a mutable object of type [S] that returns an [A] or
    raises; the changes made before an exception stay. *)
Definition SE (S A : Type) : Type := S -> outcome A * S.

Module SE.

Definition ret {S A} (a : A) : SE S A := fun s => (Ret a, s).
Definition raise {S A} (e : exn) : SE S A := fun s => (Raise e, s).
Definition bind {S A B} (m : SE S A) (k : A -> SE S B) : SE S B :=
  fun s =>
    match m s with
    | (Ret a, s') => k a s'
    | (Raise e, s') => (Raise e, s')
    end.
Definition get {S} : SE S S := fun s => (Ret s, s).
Definition modify {S} (f : S -> S) : SE S unit := fun s => (Ret tt, f s).
Definition lift {S A} (o : outcome A) : SE S A := fun s => (o, s).

(** [try: m  except Exception: return h] *)
Definition try_except {S A} (m : SE S A) (h : SE S A) : SE S A :=
  fun s =>
    match m s with
    | (Ret a, s') => (Ret a, s')
    | (Raise _, s') => h s'
    end.

(** [try: m  except: pass] *)
Definition try_pass {S} (m : SE S unit) : SE S unit := try_except m (ret tt).

End SE.

Declare Scope se_scope.
Delimit Scope se_scope with se.
Notation "x <- m ;; k" := (SE.bind m (fun x => k))
  (at level 100, m at next level, right associativity) : se_scope.
Notation "m ;; k" := (SE.bind m (fun _ => k))
  (at level 100, right associativity) : se_scope.

(** ** Values and the record of one listing *)

Inductive pyval : Type :=
  | PyNone
  | PyStr (s : string)
  | PyFloat (x : float).

(** [bool(v)] *)
Definition truthy (v : pyval) : bool :=
  match v with
  | PyNone => false
  | PyStr s => negb (String.eqb s "")
  | PyFloat x => Float.truthy x
  end.

(** Null in the output table: [None] or NaN ([pd.isna]). *)
Definition is_null (v : pyval) : bool :=
  match v with
  | PyNone => true
  | PyStr _ => false
  | PyFloat x => Float.is_nan x
  end.

(** [a / b] *)
Definition py_truediv (a b : pyval) : outcome pyval :=
  match a, b with
  | PyFloat x, PyFloat y =>
      if Float.eqb y Float.zero then Raise ZeroDivisionError
      else Ret (PyFloat (Float.div x y))
  | _, _ => Raise TypeError
  end.

Abbreviation dict := (gmap string pyval).

(** [d.get(k)]; also [d[k]] for the keys of the schema, which are always
    present ([scrape_property_keys]). *)
Definition item (d : dict) (k : string) : pyval := default PyNone (d !! k).

Definition schema : list string :=
  ["source"; "url"; "property_id"; "title"; "description"; "price";
   "price_per_sqft"; "square_feet"; "property_type"; "city"; "state";
   "address"; "year_built"; "parking_spaces"; "listing_date"].

(** The literal of lines 155-171. *)
Definition new_property_data (url : string) : dict :=
  <["source" := PyStr "LoopNet"]>
  (<["url" := PyStr url]>
  (<["property_id" := PyNone]>
  (<["title" := PyNone]>
  (<["description" := PyNone]>
  (<["price" := PyNone]>
  (<["price_per_sqft" := PyNone]>
  (<["square_feet" := PyNone]>
  (<["property_type" := PyNone]>
  (<["city" := PyNone]>
  (<["state" := PyNone]>
  (<["address" := PyNone]>
  (<["year_built" := PyNone]>
  (<["parking_spaces" := PyNone]>
  (<["listing_date" := PyNone]> ∅)))))))))))))).

(** ** The environment *)

(** A [<meta>] tag: its [property] and [content] attributes, when present. *)
Record meta_tag : Type := {
  meta_property : option string;
  meta_content : option string
}.

(** What a detail page gives to the selectors: the text of the first
    element that matches, or [None] when there is none ([find_element]
    raises, [select_one] returns [None]). *)
Record page : Type := {
  title_elem : option string;
  description_elem : option string;
  price_elem : option string;
  sqft_elem : option string;
  location_elem : option string;
  meta_tags : list meta_tag;
  (** rendered strategy only: [driver.page_source] answers *)
  page_source_ok : bool
}.

(** Starting the browser in [_init_driver]: it starts and the script runs;
    [webdriver.Chrome] (or the driver manager) raises; or the browser starts
    and [execute_script] raises. *)
Inductive launch : Type :=
  | Launched
  | LaunchFails
  | ScriptFails.

(** The answers of the outside world; the first argument is the number of
    requests made before, so the same URL may answer differently each time.
    [None] is a failed request (an exception inside the [try]). *)
Record world : Type := {
  launch_browser : nat -> launch;
  (** [href] attributes of the anchors the selector finds; [None] for an
      anchor whose attribute is [None] *)
  rendered_search : nat -> string -> option (list (option string));
  (** [href] of every [<a href=...>] of the response *)
  static_search : nat -> string -> option (list string);
  rendered_detail : nat -> string -> option page;
  static_detail : nat -> string -> option page;
  (** the iteration order of [list(set(l))] *)
  set_order : list string -> list string
}.

(** What Python guarantees of [list(set(l))]: the elements of [l], once
    each. *)
Definition python_set (w : world) : Prop :=
  forall l : list string,
    NoDup (set_order w l) /\ forall x, x ∈ set_order w l <-> x ∈ l.

Record config : Type := {
  base_url : string;
  use_selenium : bool
}.

(** [self], with the browser sessions it started and quit. *)
Record scraper : Type := {
  driver : option nat;
  properties : list dict;
  clock : nat;
  started : list nat;
  quit_log : list nat
}.

(** [LoopNetScraper.__init__] *)
Definition new_scraper : scraper :=
  {| driver := None; properties := []; clock := 0%nat; started := []; quit_log := [] |}.

(** ** scripts/scrape_loopnet.py: class LoopNetScraper *)

Definition M : Type -> Type := SE scraper.
Definition E : Type -> Type := SE dict.

Definition tick (self : scraper) : scraper :=
  {| driver := driver self; properties := properties self;
     clock := S (clock self); started := started self; quit_log := quit_log self |}.

Definition set_driver (h : option nat) (self : scraper) : scraper :=
  {| driver := h; properties := properties self;
     clock := clock self; started := started self; quit_log := quit_log self |}.

Definition log_started (h : nat) (self : scraper) : scraper :=
  {| driver := driver self; properties := properties self;
     clock := clock self; started := h :: started self; quit_log := quit_log self |}.

Definition log_quit (h : nat) (self : scraper) : scraper :=
  {| driver := driver self; properties := properties self;
     clock := clock self; started := started self; quit_log := h :: quit_log self |}.

Definition append_property (d : dict) (self : scraper) : scraper :=
  {| driver := driver self; properties := properties self ++ [d];
     clock := clock self; started := started self; quit_log := quit_log self |}.

(** One request to the outside world: read its answer and advance the clock. *)
Definition ask {A} (answer : nat -> A) : M A :=
  fun self => (Ret (answer (clock self)), tick self).

(** [property_data[k] = v] *)
Definition setitem (k : string) (v : pyval) : E unit :=
  SE.modify (fun property_data : dict => <[k := v]> property_data).

(** [driver.find_element(...).text] *)
Definition find_element (elem : option string) : E string :=
  match elem with
  | Some text => SE.ret text
  | None => SE.raise NoSuchElementException
  end.

(** [xs[:n]] *)
Definition slice_to {A} (n : Z) (xs : list A) : list A :=
  if 0 <=? n then take (Z.to_nat n) xs
  else take (length xs - Z.to_nat (- n)) xs.

(** [len(xs) >= n] *)
Definition len_ge {A} (xs : list A) (n : Z) : bool := n <=? Z.of_nat (length xs).

Section LoopNetScraper.

Variable w : world.
Variable cfg : config.

Local Open Scope se_scope.

Definition _init_driver : M unit :=
  self <- SE.get ;;
  match driver self with
  | Some _ => SE.ret tt
  | None =>
      t <- SE.get ;;
      outcome <- ask (launch_browser w) ;;
      match outcome with
      | LaunchFails => SE.raise WebDriverException
      | ScriptFails =>
          SE.modify (fun self => log_started (clock t) (set_driver (Some (clock t)) self)) ;;
          SE.raise WebDriverException
      | Launched =>
          SE.modify (fun self => log_started (clock t) (set_driver (Some (clock t)) self))
      end
  end.

Definition _close_driver : M unit :=
  self <- SE.get ;;
  match driver self with
  | Some h => SE.modify (fun self => set_driver None (log_quit h self))
  | None => SE.ret tt
  end.

(** Lines 109-114: the links of one rendered search page, first occurrence
    kept. *)
Definition rendered_links (hrefs : list (option string)) : list string :=
  fold_left
    (fun property_links href =>
       match href with
       | Some href =>
           if negb (String.eqb href "") && negb (bool_decide (href ∈ property_links))
           then property_links ++ [href] else property_links
       | None => property_links
       end)
    hrefs [].

(** Lines 128-134 *)
Definition static_links (hrefs : list string) : list string :=
  fold_left
    (fun property_links href =>
       if Text.contains "/property/" href || Text.contains "/listing/" href then
         let full_url :=
           if Text.startswith href "http" then href else base_url cfg +:+ href in
         if negb (bool_decide (full_url ∈ property_links))
         then property_links ++ [full_url] else property_links
       else property_links)
    hrefs [].

Definition scrape_search_page (url : string) : M (list string) :=
  if use_selenium cfg then
    _init_driver ;;
    SE.try_except
      (elements <- ask (fun t => rendered_search w t url) ;;
       match elements with
       | Some hrefs => SE.ret (rendered_links hrefs)
       | None => SE.raise WebDriverException
       end)
      (SE.ret [])
  else
    SE.try_except
      (response <- ask (fun t => static_search w t url) ;;
       match response with
       | Some hrefs => SE.ret (static_links hrefs)
       | None => SE.raise RequestException
       end)
      (SE.ret []).

(** Lines 205-212 and 247-252: the square-feet text and the derived price per
    square foot. *)
Definition set_square_feet (sqft_text : string) : E unit :=
  x <- SE.lift (parse_square_feet (Some sqft_text)) ;;
  setitem "square_feet" (PyFloat x) ;;
  property_data <- SE.get ;;
  if truthy (item property_data "price") && truthy (item property_data "square_feet") then
    q <- SE.lift (py_truediv (item property_data "price") (item property_data "square_feet")) ;;
    setitem "price_per_sqft" q
  else SE.ret tt.

Definition set_price (price_text : string) : E unit :=
  x <- SE.lift (parse_price (Some price_text)) ;;
  setitem "price" (PyFloat x).

Definition set_location (location_text : string) : E unit :=
  setitem "address" (PyStr (clean_text (Some location_text))) ;;
  let '(city, state) := extract_city_state (Some location_text) in
  setitem "city" (from_option PyStr PyNone city) ;;
  setitem "state" (from_option PyStr PyNone state).

(** Lines 186-222: each field in its own [try ... except: pass]. *)
Definition rendered_fields (pg : page) : E unit :=
  SE.try_pass (text <- find_element (title_elem pg) ;;
               setitem "title" (PyStr (clean_text (Some text)))) ;;
  SE.try_pass (text <- find_element (description_elem pg) ;;
               setitem "description" (PyStr (clean_text (Some text)))) ;;
  SE.try_pass (price_text <- find_element (price_elem pg) ;; set_price price_text) ;;
  SE.try_pass (sqft_text <- find_element (sqft_elem pg) ;; set_square_feet sqft_text) ;;
  SE.try_pass (location_text <- find_element (location_elem pg) ;;
               set_location location_text) ;;
  (* html = self.driver.page_source *)
  if page_source_ok pg then SE.ret tt else SE.raise WebDriverException.

(** Lines 234-260: [select_one] and [if elem:]. *)
Definition static_fields (pg : page) : E unit :=
  match title_elem pg with
  | Some text => setitem "title" (PyStr (clean_text (Some text)))
  | None => SE.ret tt
  end ;;
  match description_elem pg with
  | Some text => setitem "description" (PyStr (clean_text (Some text)))
  | None => SE.ret tt
  end ;;
  match price_elem pg with
  | Some price_text => set_price price_text
  | None => SE.ret tt
  end ;;
  match sqft_elem pg with
  | Some sqft_text => set_square_feet sqft_text
  | None => SE.ret tt
  end ;;
  match location_elem pg with
  | Some location_text => set_location location_text
  | None => SE.ret tt
  end.

(** Lines 265-273: one [<meta>] tag. *)
Definition meta_step (meta : meta_tag) : E unit :=
  let prop := default "" (meta_property meta) in
  let content := default "" (meta_content meta) in
  property_data <- SE.get ;;
  if Text.contains "og:title" prop then
    if negb (truthy (item property_data "title"))
    then setitem "title" (PyStr (clean_text (Some content)))
    else SE.ret tt
  else if Text.contains "og:description" prop then
    if negb (truthy (item property_data "description"))
    then setitem "description" (PyStr (clean_text (Some content)))
    else SE.ret tt
  else SE.ret tt.

Fixpoint meta_pass (metas : list meta_tag) : E unit :=
  match metas with
  | [] => SE.ret tt
  | meta :: metas' => meta_step meta ;; meta_pass metas'
  end.

(** Lines 278-281: the part after the first ["property"] or ["listing"] part
    that has a successor. *)
Fixpoint find_property_id (parts : list string) : option string :=
  match parts with
  | [] => None
  | part :: rest =>
      if String.eqb part "property" || String.eqb part "listing" then
        match rest with
        | next :: _ => Some (hd "" (Text.split "/" next))
        | [] => find_property_id rest
        end
      else find_property_id rest
  end.

Definition property_id_pass (url : string) : E unit :=
  if Text.contains "/property/" url || Text.contains "/listing/" url then
    match find_property_id (Text.split "/" url) with
    | Some id => setitem "property_id" (PyStr id)
    | None => SE.ret tt
    end
  else SE.ret tt.

(** The document of a detail page (lines 174-183 and 229-231). *)
Definition acquire (url : string) : M page :=
  if use_selenium cfg then
    _init_driver ;;
    doc <- ask (fun t => rendered_detail w t url) ;;
    match doc with
    | Some pg => SE.ret pg
    | None => SE.raise WebDriverException
    end
  else
    doc <- ask (fun t => static_detail w t url) ;;
    match doc with
    | Some pg => SE.ret pg
    | None => SE.raise RequestException
    end.

(** The body of the [try] of [scrape_property] once the document is there. *)
Definition extract (url : string) (pg : page) : E unit :=
  (if use_selenium cfg then rendered_fields pg else static_fields pg) ;;
  meta_pass (meta_tags pg) ;;
  property_id_pass url.

(** [try: ... except Exception: log] and [return property_data]: whatever
    the body raises, the record filled so far is returned. *)
Definition scrape_property (url : string) : M dict :=
  let property_data := new_property_data url in
  SE.try_except
    (pg <- acquire url ;;
     SE.ret (snd (extract url pg property_data)))
    (SE.ret property_data).

(** Lines 306-312 *)
Fixpoint collect_links (search_urls : list string) (max_properties : Z)
    (all_property_links : list string) : M (list string) :=
  match search_urls with
  | [] => SE.ret all_property_links
  | search_url :: rest =>
      links <- scrape_search_page search_url ;;
      let all_property_links := all_property_links ++ links in
      if len_ge all_property_links max_properties then SE.ret all_property_links
      else collect_links rest max_properties all_property_links
  end.

(** Lines 303-316: the links to visit. *)
Definition discover (search_urls : list string) (max_properties : Z) : M (list string) :=
  all_property_links <- collect_links search_urls max_properties [] ;;
  SE.ret (slice_to max_properties (set_order w all_property_links)).

(** Lines 323-325 *)
Definition visit (link : string) : M unit :=
  property_data <- scrape_property link ;;
  if truthy (item property_data "title") || truthy (item property_data "description")
  then SE.modify (append_property property_data)
  else SE.ret tt.

(** Lines 319-330 *)
Fixpoint visit_all (links : list string) (max_properties : Z) : M unit :=
  match links with
  | [] => SE.ret tt
  | link :: rest =>
      self <- SE.get ;;
      if len_ge (properties self) max_properties then SE.ret tt
      else visit link ;; visit_all rest max_properties
  end.

(** The data frame has one row per element of [self.properties]. *)
Definition scrape_multiple_pages (search_urls : list string) (max_properties : Z)
    : M (list dict) :=
  all_property_links <- discover search_urls max_properties ;;
  visit_all all_property_links max_properties ;;
  _close_driver ;;
  self <- SE.get ;;
  SE.ret (properties self).

End LoopNetScraper.

(** ** The numeric coercion in the words of the specification *)

Module Spec.

(** "strip every character that is not a digit, comma, or period" *)
Definition strip_non_numeric (s : string) : string :=
  Text.keep (fun c => negb (negb (Text.is_digit c) && negb (Text.is_char "," c)
                            && negb (Text.is_char "." c))) s.

(** "drop thousands separators" *)
Definition drop_separators (s : string) : string :=
  Text.keep (fun c => negb (Text.is_char "," c)) s.

(** "parse the remaining token as a number; on parse failure yield null":
    null is NaN. *)
Definition numeric_coercion (s : string) : float :=
  match Float.py_float (drop_separators (strip_non_numeric s)) with
  | Ret x => x
  | Raise _ => Float.nan
  end.

End Spec.


(** ** Vocabulary of the properties *)

(** A sequence of assignments [property_data[k] = v]. *)
Definition apply_updates (upd : list (string * pyval)) (d : dict) : dict :=
  foldl (fun d kv => <[kv.1 := kv.2]> d) d upd.

(** [m] changes the record by assignments to keys of [ks] only. *)
Definition writes {A} (ks : list string) (m : E A) : Prop :=
  forall d, exists upd,
    Forall (fun kv => kv.1 ∈ ks) upd /\ snd (m d) = apply_updates upd d.

(** A number that is not null and greater than zero. *)
Definition is_positive (v : pyval) : bool :=
  match v with
  | PyFloat x => Float.ltb Float.zero x
  | _ => false
  end.

(** A number that is not null and not zero. *)
Definition is_nonzero (v : pyval) : bool :=
  match v with
  | PyFloat x => negb (Float.is_nan x) && negb (Float.eqb x Float.zero)
  | _ => false
  end.

(** [price / square_feet] of two numbers. *)
Definition quotient (price square_feet : pyval) : pyval :=
  match price, square_feet with
  | PyFloat x, PyFloat y => PyFloat (Float.div x y)
  | _, _ => PyNone
  end.

(** The record that a run of [scrape_property] returns. *)
Definition record_of (r : outcome dict * scraper) : option dict :=
  match r with
  | (Ret d, _) => Some d
  | (Raise _, _) => None
  end.

(** What the guard of [set_square_feet] derives from two fields. *)
Definition derived (price square_feet : pyval) : pyval :=
  if truthy price && truthy square_feet then quotient price square_feet else PyNone.

(** The record before the square-feet text is read. *)
Definition no_area_yet (d : dict) : Prop :=
  item d "square_feet" = PyNone /\ item d "price_per_sqft" = PyNone /\
  (forall s, item d "price" <> PyStr s).

(** The record after it: the price per square foot is the derived one, and
    the area is absent or a number that is not below zero. *)
Definition priced (d : dict) : Prop :=
  item d "price_per_sqft" = derived (item d "price") (item d "square_feet") /\
  (forall s, item d "price" <> PyStr s) /\
  (item d "square_feet" = PyNone \/
   exists y, item d "square_feet" = PyFloat y /\ Float.ltb y Float.zero = false).

(** C1 as the specification states it. *)
Definition price_per_sqft_claimed (d : dict) : Prop :=
  let price := item d "price" in
  let square_feet := item d "square_feet" in
  if negb (is_null price) && negb (is_null square_feet) && is_positive square_feet
  then item d "price_per_sqft" = quotient price square_feet
  else is_null (item d "price_per_sqft") = true.

(** C1 with a price of zero on the null side. *)
Definition price_per_sqft_consistent (d : dict) : Prop :=
  let price := item d "price" in
  let square_feet := item d "square_feet" in
  if negb (is_null price) && negb (is_null square_feet) && is_positive square_feet
     && is_nonzero price
  then item d "price_per_sqft" = quotient price square_feet
  else is_null (item d "price_per_sqft") = true.

(** The keys that the extraction assigns. *)
Definition extracted_keys : list string :=
  ["title"; "description"; "price"; "square_feet"; "price_per_sqft";
   "address"; "city"; "state"; "property_id"].


(** The page offers none of the elements and no [<meta>] tag. *)
Definition finds_nothing (pg : page) : bool :=
  match title_elem pg, description_elem pg, price_elem pg, sqft_elem pg,
        location_elem pg, meta_tags pg with
  | None, None, None, None, None, [] => true
  | _, _, _, _, _, _ => false
  end.

(** The fields other than [source] and [url], and those other than
    [property_id] too. *)
Definition optional_fields : list string := drop 2 schema.
Definition page_fields : list string := drop 3 schema.

(** A text field that is not null and not the empty string. *)
Definition has_text (v : pyval) : bool :=
  match v with
  | PyStr s => negb (String.eqb s "")
  | _ => false
  end.

(** [title] and [description] hold [None] or a string. *)
Definition text_fields (d : dict) : Prop :=
  (forall x, item d "title" <> PyFloat x) /\ (forall x, item d "description" <> PyFloat x).

(** The browser sessions of [self] are in order: every session started is
    the open one or was quit, none was started twice, and all were started
    in the past. *)
Definition sessions_ok (self : scraper) : Prop :=
  started self = option_list (driver self) ++ quit_log self /\
  NoDup (started self) /\
  Forall (fun h => (h < clock self)%nat) (started self).

(** From [self] to [self'] nothing was quit, an open session stayed open and
    the sessions stayed in order. *)
Definition keeps_session (self self' : scraper) : Prop :=
  quit_log self' = quit_log self /\
  (forall h, driver self = Some h -> driver self' = Some h) /\
  (sessions_ok self -> sessions_ok self').

(** The same, and the records are those of [self]. *)
Definition only_requests (self self' : scraper) : Prop :=
  properties self' = properties self /\ keeps_session self self'.

(** The crawl has to open the browser session (rendered strategy, a first
    seed, no session open yet) and the browser does not come up. *)
Definition session_fails (w : world) (cfg : config) (search_urls : list string)
    (self : scraper) : bool :=
  use_selenium cfg
  && match search_urls with [] => false | _ :: _ => true end
  && match driver self with Some _ => false | None => true end
  && match launch_browser w (clock self) with Launched => false | _ => true end.


(** ** Vocabulary of the further properties *)

(** [None] or a string; [None] or a number. *)
Definition is_text (v : pyval) : bool :=
  match v with PyFloat _ => false | _ => true end.
Definition is_number (v : pyval) : bool :=
  match v with PyStr _ => false | _ => true end.

Definition text_keys : list string :=
  ["source"; "url"; "property_id"; "title"; "description"; "city"; "state"; "address"].
Definition number_keys : list string := ["price"; "price_per_sqft"; "square_feet"].

(** The fields that no statement of [scrape_property] assigns after the
    literal. *)
Definition never_assigned : list string :=
  ["property_type"; "year_built"; "parking_spaces"; "listing_date"].

(** An assignment that respects the kind of its field. *)
Definition well_typed (kv : string * pyval) : Prop :=
  (kv.1 ∈ text_keys -> is_text kv.2 = true) /\
  (kv.1 ∈ number_keys -> is_number kv.2 = true).

(** A record whose text fields hold no number and whose numeric fields hold
    no string. *)
Definition typed (d : dict) : Prop :=
  forall k, (k ∈ text_keys -> is_text (item d k) = true) /\
            (k ∈ number_keys -> is_number (item d k) = true).

(** [m] changes the record by well-typed assignments only. *)
Definition assigns_typed {A} (m : E A) : Prop :=
  forall d, exists upd, Forall well_typed upd /\ snd (m d) = apply_updates upd d.

(** The [url] column of a collection, and the acceptance test of line 324
    on text fields. *)
Definition urls (df : list dict) : list pyval := (fun d => item d "url") <$> df.
Definition accepted (d : dict) : bool :=
  has_text (item d "title") || has_text (item d "description").

(** The loop of lines 111-114 and 129-134 in general: [link a] is the link
    that the element [a] contributes, if any; it is appended unless it is
    there already. *)
Definition add_new {A} (link : A -> option string) (property_links : list string) (a : A)
    : list string :=
  match link a with
  | Some x => if bool_decide (x ∈ property_links) then property_links
              else property_links ++ [x]
  | None => property_links
  end.

(** What an anchor contributes with the rendered strategy and with the
    static one. *)
Definition rendered_link (href : option string) : option string :=
  match href with
  | Some href => if String.eqb href "" then None else Some href
  | None => None
  end.

Definition static_link (cfg : config) (href : string) : option string :=
  if Text.contains "/property/" href || Text.contains "/listing/" href
  then Some (if Text.startswith href "http" then href else base_url cfg +:+ href)
  else None.

(** A string without ["/"]; what may follow an identifier in a path:
    nothing, or ["/"] and more. *)
Definition no_slash (s : string) : bool :=
  forallb (fun c => negb (Text.is_char "/" c)) (list_ascii_of_string s).
Definition path_tail (t : string) : bool :=
  match t with
  | EmptyString => true
  | String c _ => Text.is_char "/" c
  end.

(** The part of a path is neither of the two markers. *)
Definition no_marker (part : string) : bool :=
  negb (String.eqb part "property" || String.eqb part "listing").

(** The characters that [clean_text] lets through: word characters, the
    punctuation of its class, and the space. *)
Definition clean_char (c : ascii) : bool :=
  Text.is_word c || Text.one_of ".,!?;:()-'" c || (Text.code c =? 34)%N
  || Text.is_char " " c.

Fixpoint no_double_space (l : list ascii) : bool :=
  match l with
  | a :: (b :: _) as t =>
      negb (Text.is_char " " a && Text.is_char " " b) && no_double_space t
  | _ => true
  end.

Definition no_space_first (l : list ascii) : bool :=
  match l with
  | [] => true
  | c :: _ => negb (Text.is_space c)
  end.

(** A text in the form that [clean_text] produces: only such characters, no
    two spaces in a row, no whitespace at either end. *)
Definition is_clean (s : string) : bool :=
  let l := list_ascii_of_string s in
  forallb clean_char l && no_double_space l
  && no_space_first l && no_space_first (rev l).

(** ** [fips_to_state_abbr] (utils.py) *)

(** [FIPS_TO_STATE]: the fifty states and the District of Columbia. *)
Definition fips_table : list (string * string) :=
  [("01", "AL"); ("02", "AK"); ("04", "AZ"); ("05", "AR"); ("06", "CA");
   ("08", "CO"); ("09", "CT"); ("10", "DE"); ("11", "DC"); ("12", "FL");
   ("13", "GA"); ("15", "HI"); ("16", "ID"); ("17", "IL"); ("18", "IN");
   ("19", "IA"); ("20", "KS"); ("21", "KY"); ("22", "LA"); ("23", "ME");
   ("24", "MD"); ("25", "MA"); ("26", "MI"); ("27", "MN"); ("28", "MS");
   ("29", "MO"); ("30", "MT"); ("31", "NE"); ("32", "NV"); ("33", "NH");
   ("34", "NJ"); ("35", "NM"); ("36", "NY"); ("37", "NC"); ("38", "ND");
   ("39", "OH"); ("40", "OK"); ("41", "OR"); ("42", "PA"); ("44", "RI");
   ("45", "SC"); ("46", "SD"); ("47", "TN"); ("48", "TX"); ("49", "UT");
   ("50", "VT"); ("51", "VA"); ("53", "WA"); ("54", "WV"); ("55", "WI");
   ("56", "WY")]%string.

Definition FIPS_TO_STATE : gmap string string := list_to_map fips_table.

(** The argument of [fips_to_state_abbr]: [None], an [int], a [float] or a
    [str]. *)
Inductive fips_code : Type :=
  | FipsNone
  | FipsInt (n : Z)
  | FipsFloat (x : Float.float)
  | FipsStr (s : string).

(** What a call does: it returns an abbreviation or [None], or [int] raises
    [OverflowError]. *)
Inductive fips_outcome : Type :=
  | Returns (abbr : option string)
  | OverflowError.

(** [int(x)] of a float that is not NaN: the integral part, towards zero;
    there is none at an infinity. *)
Definition int_of_float (x : Float.float) : option Z :=
  match x with
  | S754_zero _ => Some 0
  | S754_finite s m e =>
      let a := if 0 <=? e then Z.pos m * 2 ^ e else Z.pos m / 2 ^ (- e) in
      Some (if s then - a else a)
  | S754_infinity _ => None
  | S754_nan => None
  end.

(** The decimal digits of a natural number, as [str] and [format] write
    them. *)
Definition decimal (n : N) : string := NilZero.string_of_uint (N.to_uint n).

(** [str.zfill]-like padding with zeros on the left up to [width]. *)
Definition zero_pad (width : nat) (s : string) : string :=
  string_of_list_ascii (repeat "0"%char (width - String.length s)) +:+ s.

(** [f"{n:02d}"]: the sign counts in the width. *)
Definition format_02d (n : Z) : string :=
  if n <? 0 then String "-" (zero_pad 1 (decimal (Z.to_N (- n))))
  else zero_pad 2 (decimal (Z.to_N n)).

Definition fips_to_state_abbr (fips_code : fips_code) : fips_outcome :=
  match fips_code with
  | FipsNone => Returns None
  | FipsInt n => Returns (FIPS_TO_STATE !! format_02d n)
  | FipsFloat x =>
      if Float.is_nan x then Returns None
      else match int_of_float x with
           | Some n => Returns (FIPS_TO_STATE !! format_02d n)
           | None => OverflowError
           end
  | FipsStr s =>
      let fips_str := Text.strip s in
      let fips_str :=
        if (String.length fips_str =? 1)%nat then String "0" fips_str else fips_str in
      Returns (FIPS_TO_STATE !! fips_str)
  end.

(** An entry of the table whose key is the two-digit form of a code from 1 to
    56 and whose value is two capital letters. *)
Definition table_entry_ok (kv : string * string) : bool :=
  match NilZero.uint_of_string kv.1, list_ascii_of_string kv.2 with
  | Some d, [x; y] =>
      let m := Z.of_N (N.of_uint d) in
      (1 <=? m) && (m <=? 56) && String.eqb (format_02d m) kv.1
      && Text.is_upper x && Text.is_upper y
  | _, _ => false
  end.

(** ** Concrete sites *)

Module Example.

Definition static_cfg : config :=
  {| base_url := "https://www.loopnet.com"; use_selenium := false |}.

Definition rendered_cfg : config :=
  {| base_url := "https://www.loopnet.com"; use_selenium := true |}.

Definition blank_page : page :=
  {| title_elem := None; description_elem := None; price_elem := None;
     sqft_elem := None; location_elem := None; meta_tags := [];
     page_source_ok := true |}.

(** A site that answers the same at every request; [list(set(l))] keeps
    the first occurrences. *)
Definition site (browser : launch) (search : string -> option (list string))
    (detail : string -> option page) : world :=
  {| launch_browser := fun _ => browser;
     rendered_search := fun _ url => option_map (List.map Some) (search url);
     static_search := fun _ url => search url;
     rendered_detail := fun _ url => detail url;
     static_detail := fun _ url => detail url;
     set_order := remove_dups |}.

(** A listing offered for a price of zero. *)
Definition free_listing : page :=
  {| title_elem := Some "Warehouse"; description_elem := None;
     price_elem := Some "$0"; sqft_elem := Some "2,500 SF";
     location_elem := None; meta_tags := []; page_source_ok := true |}.

Definition free_site : world :=
  site Launched (fun _ => Some []) (fun _ => Some free_listing).


(** A detail page whose heading is there but empty, with an [og:title]. *)
Definition empty_heading : page :=
  {| title_elem := Some ""; description_elem := None; price_elem := None;
     sqft_elem := None; location_elem := None;
     meta_tags := [ {| meta_property := Some "og:title";
                       meta_content := Some "Corner shop" |} ];
     page_source_ok := true |}.

(** The same without any [<meta>] tag. *)
Definition empty_heading_only : page :=
  {| title_elem := Some ""; description_elem := None; price_elem := None;
     sqft_elem := None; location_elem := None; meta_tags := [];
     page_source_ok := true |}.

Definition empty_heading_site : world :=
  site Launched (fun _ => Some []) (fun _ => Some empty_heading_only).

Definition new_york : string :=
  "https://www.loopnet.com/search/commercial-real-estate/new-york-ny".
Definition chicago : string :=
  "https://www.loopnet.com/search/commercial-real-estate/chicago-il".

(** The browser cannot be started. *)
Definition no_browser_site : world :=
  site LaunchFails (fun _ => Some []) (fun _ => Some free_listing).


(** Two search pages: the first lists L1, L2, L3 (L2 twice), the second L2
    and L4. *)
Definition two_seed_search (url : string) : option (list string) :=
  if String.eqb url new_york
  then Some ["/property/1"; "/property/2"; "/property/3"; "/property/2"]
  else Some ["/property/2"; "/property/4"].

Definition two_seed_site (order : list string -> list string) : world :=
  {| launch_browser := fun _ => Launched;
     rendered_search := fun _ url => option_map (List.map Some) (two_seed_search url);
     static_search := fun _ url => two_seed_search url;
     rendered_detail := fun _ _ => Some free_listing;
     static_detail := fun _ _ => Some free_listing;
     set_order := order |}.

Definition L (n : string) : string := "https://www.loopnet.com/property/" +:+ n.

End Example.

(** * Properties *)

(** ** The embedding on concrete inputs *)

Example parse_price_dollars :
  parse_price (Some "$1,234.50") = Ret (Float.of_decimal 123450 2).
Proof. by vm_compute. Qed.

Example parse_price_tenth :
  parse_price (Some "0.1") = Ret (S754_finite false 7205759403792794 (-56)).
Proof. by vm_compute. Qed.

Example parse_price_two_periods : parse_price (Some "1.2.3") = Ret Float.nan.
Proof. by vm_compute. Qed.

Example parse_square_feet_suite :
  parse_square_feet (Some "Suite 5, 2,500 SF") = Ret (Float.of_decimal 5 0).
Proof. by vm_compute. Qed.

Example clean_text_heading :
  clean_text (Some "  Prime   retail * space!  ") = "Prime retail space!".
Proof. by vm_compute. Qed.

Example extract_city_state_austin :
  extract_city_state (Some "500 W 2nd St, Austin, TX 78701") = (Some "Austin", Some "TX").
Proof. by vm_compute. Qed.

Example rendered_links_first_seen :
  rendered_links [Some "https://a/property/1"; None; Some ""; Some "https://a/property/1";
                  Some "https://a/listing/2"]
  = ["https://a/property/1"; "https://a/listing/2"].
Proof. by vm_compute. Qed.

Example crawl_two_seeds_cap_two :
  match scrape_multiple_pages (Example.two_seed_site remove_dups) Example.static_cfg
          [Example.new_york; Example.chicago] 2 new_scraper with
  | (Ret df, self') =>
      (fun d => item d "url") <$> df = [PyStr (Example.L "1"); PyStr (Example.L "2")] /\
      (fun d => item d "property_id") <$> df = [PyStr "1"; PyStr "2"] /\
      clock self' = 3%nat
  | (Raise _, _) => False
  end.
Proof. by vm_compute. Qed.

Example crawl_rendered_session :
  match scrape_multiple_pages (Example.two_seed_site remove_dups) Example.rendered_cfg
          [Example.new_york; Example.chicago] 10000 new_scraper with
  | (Ret df, self') =>
      length df = 4%nat /\ driver self' = None /\
      started self' = [0%nat] /\ quit_log self' = [0%nat]
  | (Raise _, _) => False
  end.
Proof. by vm_compute. Qed.

(** ** Text helpers *)

Lemma keep_chars (p : ascii -> bool) (s : string) :
  list_ascii_of_string (Text.keep p s) = List.filter p (list_ascii_of_string s).
Proof. unfold Text.keep. apply list_ascii_of_string_of_list_ascii. Qed.

Lemma keep_forall (p : ascii -> bool) (s : string) :
  forallb p (list_ascii_of_string (Text.keep p s)) = true.
Proof.
  rewrite keep_chars. induction (list_ascii_of_string s) as [|c l IH]; simpl; [done|].
  destruct (p c) eqn:Hc; simpl; [rewrite Hc|]; done.
Qed.

Lemma filter_forallb_id (p : ascii -> bool) (l : list ascii) :
  forallb p l = true -> List.filter p l = l.
Proof.
  induction l as [|c l IH]; simpl; [done|].
  intros [Hc Hl]%andb_prop. rewrite Hc, IH; done.
Qed.

Lemma take_while_forallb (p : ascii -> bool) (l : list ascii) :
  forallb p (Text.take_while p l) = true.
Proof.
  induction l as [|c l IH]; simpl; [done|].
  destruct (p c) eqn:Hc; simpl; [rewrite Hc|]; done.
Qed.

Lemma search_run_forallb (p : ascii -> bool) (l g : list ascii) :
  search_run p l = Some g -> forallb p g = true.
Proof.
  induction l as [|c l IH]; simpl; [done|].
  destruct (p c) eqn:Hc; [|done].
  intros [= <-]. simpl. rewrite Hc. apply take_while_forallb.
Qed.

(** ** [float] raises nothing but [ValueError] *)

Lemma py_float_raises (s : string) (e : exn) :
  Float.py_float s = Raise e -> e = ValueError.
Proof.
  unfold Float.py_float.
  destruct (Text.drop_while _ _) as [|c fp].
  - destruct (Text.take_while _ _); [|done]. by intros [= <-].
  - destruct (_ && _ && _); [done|]. by intros [= <-].
Qed.

Lemma forallb_filter (p p2 q : ascii -> bool) (l : list ascii) :
  (forall c, p c = true -> p2 c = true -> q c = true) ->
  forallb p l = true -> forallb q (List.filter p2 l) = true.
Proof.
  intros Hq. induction l as [|c l IH]; simpl; [done|].
  intros [Hc Hl]%andb_prop.
  destruct (p2 c) eqn:H2; simpl; [|by apply IH].
  rewrite Hq, IH by done. done.
Qed.

Lemma forallb_filter_self (p : ascii -> bool) (l : list ascii) :
  forallb p (List.filter p l) = true.
Proof.
  induction l as [|c l IH]; simpl; [done|].
  destruct (p c) eqn:Hc; simpl; [rewrite Hc|]; done.
Qed.

Lemma forallb_filter_filter (p1 p2 q : ascii -> bool) (l : list ascii) :
  (forall c, p1 c = true -> p2 c = true -> q c = true) ->
  forallb q (List.filter p2 (List.filter p1 l)) = true.
Proof.
  intros Hq. apply (forallb_filter p1); [done|]. apply forallb_filter_self.
Qed.

(** The tokens that reach [float] hold digits and periods only. *)
Lemma parse_price_token_alphabet (s : string) :
  forallb (fun c => Text.is_digit c || Text.is_char "." c)
          (list_ascii_of_string (price_token s)) = true.
Proof.
  unfold price_token. rewrite !keep_chars. apply forallb_filter_filter.
  intros c. unfold Text.one_of; simpl.
  destruct (Text.is_digit c), (Text.is_char "." c), (Text.is_char "," c); done.
Qed.

Lemma parse_square_feet_token_alphabet (s g : string) :
  sqft_match s = Some g ->
  forallb Text.is_digit
          (list_ascii_of_string (Text.keep (fun c => negb (Text.is_char "," c)) g)) = true.
Proof.
  unfold sqft_match. destruct (search_run _ _) as [r|] eqn:Hr; [|done].
  intros [= <-]. apply search_run_forallb in Hr.
  rewrite keep_chars, list_ascii_of_string_of_list_ascii.
  revert Hr. apply forallb_filter. intros c.
  destruct (Text.is_digit c), (Text.is_char "," c); done.
Qed.

(** ** The numeric coercion *)

Lemma keep_ext (p q : ascii -> bool) (s : string) :
  (forall c, p c = q c) -> Text.keep p s = Text.keep q s.
Proof.
  intros Hpq. unfold Text.keep. f_equal.
  induction (list_ascii_of_string s) as [|c l IH]; simpl; [done|].
  rewrite Hpq, IH. done.
Qed.

Lemma parse_price_coercion (s : string) :
  parse_price (Some s) = Ret (Spec.numeric_coercion s).
Proof.
  unfold parse_price, Spec.numeric_coercion, Spec.drop_separators, Spec.strip_non_numeric.
  replace (Text.keep _ (Text.keep _ s)) with (price_token s).
  - destruct (Float.py_float (price_token s)) as [x|e] eqn:Hf; [done|].
    apply py_float_raises in Hf as ->. done.
  - unfold price_token. f_equal. apply keep_ext. intros c.
    unfold Text.one_of; simpl.
    destruct (Text.is_digit c), (Text.is_char "," c), (Text.is_char "." c); done.
Qed.

(** [parse_square_feet] applies the coercion to the first run of digits and
    commas only. *)
Lemma parse_square_feet_first_run (s : string) :
  parse_square_feet (Some s) =
  Ret (match sqft_match s with
       | Some run => Spec.numeric_coercion run
       | None => Float.nan
       end).
Proof.
  unfold parse_square_feet. destruct (sqft_match s) as [g|] eqn:Hg; [|done].
  unfold Spec.numeric_coercion, Spec.drop_separators, Spec.strip_non_numeric.
  assert (Text.keep
    (fun c => negb (negb (Text.is_digit c) && negb (Text.is_char "," c)
                    && negb (Text.is_char "." c))) g = g) as ->.
  { unfold sqft_match in Hg. destruct (search_run _ _) as [r|] eqn:Hr; [|done].
    injection Hg as <-. apply search_run_forallb in Hr.
    unfold Text.keep. rewrite list_ascii_of_string_of_list_ascii. f_equal.
    apply filter_forallb_id.
    induction r as [|c r IH]; simpl in *; [done|].
    apply andb_prop in Hr as [Hc Hr]. rewrite IH by done.
    destruct (Text.is_digit c), (Text.is_char "," c); done. }
  destruct (Float.py_float _) as [x|e] eqn:Hf; [done|].
  apply py_float_raises in Hf as ->. done.
Qed.


Lemma list_ascii_of_string_app (a b : string) :
  list_ascii_of_string (a +:+ b) = list_ascii_of_string a ++ list_ascii_of_string b.
Proof. induction a as [|c a IH]; [done|]. cbn. by rewrite <- IH. Qed.

Lemma string_of_chars_inj (s t : string) :
  list_ascii_of_string s = list_ascii_of_string t -> s = t.
Proof.
  intros H. by rewrite <- (string_of_list_ascii_of_string s),
    <- (string_of_list_ascii_of_string t), H.
Qed.





Lemma search_run_skip (p : ascii -> bool) (a l : list ascii) :
  forallb (fun c => negb (p c)) a = true -> search_run p (a ++ l) = search_run p l.
Proof.
  induction a as [|c a IH]; [done|]. simpl. intros [Hc Ha]%andb_prop.
  apply negb_true_iff in Hc. rewrite Hc. by apply IH.
Qed.

Lemma take_while_run (p : ascii -> bool) (run rest : list ascii) :
  forallb p run = true ->
  match rest with [] => true | c :: _ => negb (p c) end = true ->
  Text.take_while p (run ++ rest) = run.
Proof.
  intros Hrun Hrest. induction run as [|c run IH]; simpl in *.
  - destruct rest as [|c rest]; [done|]. simpl. apply negb_true_iff in Hrest.
    by rewrite Hrest.
  - apply andb_prop in Hrun as [Hc Hrun]. rewrite Hc, IH by done. done.
Qed.





(** ** [extract_city_state] *)

Lemma first_some_elim {A B} (f : A -> option B) (ns : list A) (r : B) :
  Text.first_some f ns = Some r -> exists n, n ∈ ns /\ f n = Some r.
Proof.
  induction ns as [|n ns IH]; simpl; [done|].
  destruct (f n) as [r'|] eqn:Hn.
  - intros [= <-]. exists n. split; [left|done].
  - intros (m & Hm & Hf)%IH. exists m. split; [by right|done].
Qed.

Lemma greedy_bounds (lo hi n : nat) : n ∈ Text.greedy lo hi -> (lo <= n <= hi)%nat.
Proof.
  unfold Text.greedy. rewrite list_elem_of_In, <- in_rev, in_seq. lia.
Qed.

Lemma take_take_while (p : ascii -> bool) (l : list ascii) (n : nat) :
  (n <= length (Text.take_while p l))%nat -> take n l = take n (Text.take_while p l).
Proof.
  revert n. induction l as [|c l IH]; intros n; simpl; [done|].
  destruct (p c); simpl.
  - destruct n; simpl; [done|]. intros Hn. f_equal. apply IH. lia.
  - intros Hn. by replace n with 0%nat by lia.
Qed.

Lemma forallb_take (p : ascii -> bool) (l : list ascii) (n : nat) :
  forallb p l = true -> forallb p (take n l) = true.
Proof.
  revert n. induction l as [|c l IH]; intros [|n]; simpl; try done.
  intros [-> Hl]%andb_prop. by apply IH.
Qed.

Lemma forallb_drop_while (p q : ascii -> bool) (l : list ascii) :
  forallb p l = true -> forallb p (Text.drop_while q l) = true.
Proof.
  induction l as [|c l IH]; simpl; [done|].
  intros Hcl. destruct (q c); [|done].
  apply andb_prop in Hcl as [_ Hl]. by apply IH.
Qed.

Lemma forallb_rev (p : ascii -> bool) (l : list ascii) :
  forallb p (rev l) = forallb p l.
Proof.
  induction l as [|c l IH]; simpl; [done|].
  rewrite forallb_app, IH. simpl. rewrite andb_true_r. apply andb_comm.
Qed.

Lemma forallb_strip (p : ascii -> bool) (s : string) :
  forallb p (list_ascii_of_string s) = true ->
  forallb p (list_ascii_of_string (Text.strip s)) = true.
Proof.
  intros Hs. unfold Text.strip, Text.strip_l.
  rewrite list_ascii_of_string_of_list_ascii, forallb_rev.
  apply forallb_drop_while. rewrite forallb_rev. by apply forallb_drop_while.
Qed.

Lemma city_state_at_group1 (l g1 g2 : list ascii) :
  city_state_at l = Some (g1, g2) ->
  forallb (fun c => negb (Text.is_char "," c)) g1 = true.
Proof.
  unfold city_state_at. intros (n & Hn & Hf)%first_some_elim.
  apply greedy_bounds in Hn as [_ Hn].
  destruct (drop n l) as [|c r]; [done|].
  destruct (Text.is_char "," c); [|done].
  apply first_some_elim in Hf as (m & _ & Hm).
  destruct (two_capitals _); [|done]. injection Hm as <- _.
  rewrite (take_take_while _ _ _ Hn). apply forallb_take, take_while_forallb.
Qed.

Lemma city_state_search_group1 (l g1 g2 : list ascii) :
  city_state_search l = Some (g1, g2) ->
  forallb (fun c => negb (Text.is_char "," c)) g1 = true.
Proof.
  induction l as [|c l IH]; cbn [city_state_search];
    destruct (city_state_at _) as [[a b]|] eqn:Hat;
    try (intros [= -> ->]; by apply city_state_at_group1 in Hat); done.
Qed.

(** The city that [extract_city_state] returns never holds a comma. *)
Lemma extract_city_state_city_no_comma (location : option string) (city : string)
    (state : option string) :
  extract_city_state location = (Some city, state) ->
  forallb (fun c => negb (Text.is_char "," c)) (list_ascii_of_string city) = true.
Proof.
  destruct location as [location|]; simpl; [|done].
  destruct (city_state_search _) as [[g1 g2]|] eqn:Hs; [|done].
  intros [= <- _]. apply forallb_strip.
  rewrite list_ascii_of_string_of_list_ascii.
  by apply city_state_search_group1 in Hs.
Qed.

(** C3, as stated: the city of ["Downtown Plaza, New York, NY"] is not
    ["Downtown Plaza, New York"]. *)
Lemma extract_city_state_downtown_plaza :
  extract_city_state (Some "Downtown Plaza, New York, NY")
  <> (Some "Downtown Plaza, New York", Some "NY").
Proof. vm_compute. discriminate. Qed.

(** C3 (amended): [extract_city_state] of ["Downtown Plaza, New York, NY"]
    is [("New York", "NY")], the text between the last two commas, since the
    city it returns never holds a comma; of ["Unknown Location"] it is
    [(None, None)]. *)
Theorem extract_city_state_examples :
  extract_city_state (Some "Downtown Plaza, New York, NY") = (Some "New York", Some "NY") /\
  extract_city_state (Some "Unknown Location") = (None, None) /\
  (forall location city state,
      extract_city_state location = (Some city, state) ->
      forallb (fun c => negb (Text.is_char "," c)) (list_ascii_of_string city) = true).
Proof.
  split; [by vm_compute|]. split; [by vm_compute|].
  exact extract_city_state_city_no_comma.
Qed.

Lemma extract_city_state_examples_witness :
  forallb (fun c => negb (Text.is_char "," c)) (list_ascii_of_string "Austin") = true.
Proof.
  exact (proj2 (proj2 extract_city_state_examples) (Some "Austin, TX") "Austin" (Some "TX")
               eq_refl).
Defined.

(** ** Floats *)

Lemma div_nan_l (y : float) : Float.div Float.nan y = Float.nan.
Proof. done. Qed.

Lemma div_nan_r (x : float) : Float.div x Float.nan = Float.nan.
Proof. by destruct x. Qed.

Lemma truthy_positive (x : float) : Float.ltb Float.zero x = true -> Float.truthy x = true.
Proof. destruct x as [[]|[]| |[] ? ?]; by cbv. Qed.

Lemma not_negative_not_positive (x : float) :
  Float.ltb x Float.zero = false -> Float.ltb Float.zero x = false ->
  Float.is_nan x = false -> Float.truthy x = false.
Proof. destruct x as [[]|[]| |[] ? ?]; by cbv. Qed.

Lemma binary_round_aux_not_negative (mz ez : Z) (lz : location) :
  Float.ltb (binary_round_aux Float.prec Float.emax false mz ez lz) Float.zero = false.
Proof.
  unfold binary_round_aux.
  destruct (shr_fexp _ _ mz ez lz) as [mrs' e'].
  destruct (shr_fexp _ _ _ e' loc_Exact) as [mrs'' e''].
  destruct (shr_m mrs''); [done| |done].
  by destruct (_ <=? _)%Z.
Qed.

Lemma of_decimal_not_negative (m : N) (k : nat) :
  Float.ltb (Float.of_decimal m k) Float.zero = false.
Proof.
  unfold Float.of_decimal, Float.div, Float.of_N.
  destruct m as [|p], (10 ^ N.of_nat k)%N as [|q]; try done.
  unfold SFdiv. destruct (SFdiv_core_binary _ _ _ _ _ _) as [[mz ez] lz].
  apply binary_round_aux_not_negative.
Qed.

Lemma py_float_not_negative (s : string) (x : float) :
  Float.py_float s = Ret x -> Float.ltb x Float.zero = false.
Proof.
  unfold Float.py_float.
  destruct (Text.drop_while _ _) as [|c fp].
  - destruct (Text.take_while _ _); [done|].
    intros [= <-]. apply of_decimal_not_negative.
  - destruct (_ && _ && _); [|done].
    intros [= <-]. apply of_decimal_not_negative.
Qed.

(** Nothing that [parse_square_feet] returns is below zero. *)
Lemma parse_square_feet_not_negative (s : option string) (x : float) :
  parse_square_feet s = Ret x -> Float.ltb x Float.zero = false.
Proof.
  destruct s as [s|]; simpl; [|by intros [= <-]].
  destruct (sqft_match s) as [g|]; [|by intros [= <-]].
  destruct (Float.py_float _) as [y|[]] eqn:Hy; try done.
  - intros [= <-]. by apply py_float_not_negative in Hy.
  - by intros [= <-].
Qed.

Lemma parse_square_feet_returns (s : option string) :
  exists x, parse_square_feet s = Ret x.
Proof.
  destruct s as [s|]; [|by eexists].
  rewrite parse_square_feet_first_run. by eexists.
Qed.

Lemma parse_price_returns (s : option string) :
  exists x, parse_price s = Ret x.
Proof.
  destruct s as [s|]; [|by eexists].
  rewrite parse_price_coercion. by eexists.
Qed.

(** ** Records: assignments and look-ups *)

Lemma item_insert_eq (d : dict) (k : string) (v : pyval) : item (<[k := v]> d) k = v.
Proof. unfold item. by rewrite lookup_insert_eq. Qed.

Lemma item_insert_ne (d : dict) (k k' : string) (v : pyval) :
  k <> k' -> item (<[k := v]> d) k' = item d k'.
Proof. intros Hk. unfold item. by rewrite lookup_insert_ne. Qed.

Lemma apply_updates_app (u1 u2 : list (string * pyval)) (d : dict) :
  apply_updates (u1 ++ u2) d = apply_updates u2 (apply_updates u1 d).
Proof. unfold apply_updates. apply foldl_app. Qed.

Lemma apply_updates_lookup_other (ks : list string) (upd : list (string * pyval))
    (d : dict) (k : string) :
  Forall (fun kv => kv.1 ∈ ks) upd -> k ∉ ks -> apply_updates upd d !! k = d !! k.
Proof.
  intros Hupd Hk. revert d. induction Hupd as [|[k' v] upd Hk' _ IH]; intros d; [done|].
  simpl. rewrite IH. apply lookup_insert_ne. intros ->. done.
Qed.

Lemma apply_updates_dom (ks : list string) (upd : list (string * pyval)) (d : dict) :
  Forall (fun kv => kv.1 ∈ ks) upd -> (forall k, k ∈ ks -> k ∈ dom d) ->
  dom (apply_updates upd d) = dom d.
Proof.
  intros Hupd. revert d. induction Hupd as [|[k' v] upd Hk' _ IH]; intros d Hks; [done|].
  simpl in *.
  assert (dom (<[k' := v]> d) = dom d) as Hdom.
  { rewrite dom_insert_L. apply subseteq_union_1_L, singleton_subseteq_l, Hks, Hk'. }
  rewrite IH; [done|]. intros k Hk. rewrite Hdom. by apply Hks.
Qed.

Section Writes.

Context {A B : Type}.

Lemma writes_ret (ks : list string) (a : A) : writes ks (SE.ret a).
Proof. intros d. by exists []. Qed.

Lemma writes_raise (ks : list string) (e : exn) : writes ks (@SE.raise dict A e).
Proof. intros d. by exists []. Qed.

Lemma writes_lift (ks : list string) (o : outcome A) : writes ks (SE.lift o).
Proof. intros d. by exists []. Qed.

Lemma writes_bind (ks : list string) (m : E A) (k : A -> E B) :
  writes ks m -> (forall a, writes ks (k a)) -> writes ks (SE.bind m k).
Proof.
  intros Hm Hk d. destruct (Hm d) as (u1 & Hu1 & E1). unfold SE.bind.
  destruct (m d) as [[a|e] d1]; simpl in *; subst d1.
  - destruct (Hk a (apply_updates u1 d)) as (u2 & Hu2 & E2).
    exists (u1 ++ u2). split; [by apply Forall_app|].
    by rewrite E2, apply_updates_app.
  - by exists u1.
Qed.

Lemma writes_get_bind (ks : list string) (k : dict -> E B) :
  (forall d, writes ks (k d)) -> writes ks (SE.bind SE.get k).
Proof. intros Hk d. apply (Hk d d). Qed.

Lemma writes_try_except (ks : list string) (m h : E A) :
  writes ks m -> writes ks h -> writes ks (SE.try_except m h).
Proof.
  intros Hm Hh d. destruct (Hm d) as (u1 & Hu1 & E1). unfold SE.try_except.
  destruct (m d) as [[a|e] d1]; simpl in *; subst d1.
  - by exists u1.
  - destruct (Hh (apply_updates u1 d)) as (u2 & Hu2 & E2).
    exists (u1 ++ u2). split; [by apply Forall_app|].
    by rewrite E2, apply_updates_app.
Qed.

Lemma writes_mono (ks ks' : list string) (m : E A) :
  ks ⊆ ks' -> writes ks m -> writes ks' m.
Proof.
  intros Hsub Hm d. destruct (Hm d) as (u & Hu & E1). exists u. split; [|done].
  eapply Forall_impl; [exact Hu|]. intros kv Hkv. by apply Hsub.
Qed.

Lemma writes_lookup_other (ks : list string) (m : E A) (d : dict) (k : string) :
  writes ks m -> k ∉ ks -> snd (m d) !! k = d !! k.
Proof.
  intros Hm Hk. destruct (Hm d) as (u & Hu & ->).
  by apply (apply_updates_lookup_other ks).
Qed.

Lemma writes_item_other (ks : list string) (m : E A) (d : dict) (k : string) :
  writes ks m -> k ∉ ks -> item (snd (m d)) k = item d k.
Proof. intros Hm Hk. unfold item. by rewrite (writes_lookup_other ks). Qed.

Lemma writes_dom (ks : list string) (m : E A) (d : dict) :
  writes ks m -> (forall k, k ∈ ks -> k ∈ dom d) -> dom (snd (m d)) = dom d.
Proof.
  intros Hm Hks. destruct (Hm d) as (u & Hu & ->). by apply (apply_updates_dom ks).
Qed.

End Writes.

Lemma writes_setitem (ks : list string) (k : string) (v : pyval) :
  k ∈ ks -> writes ks (setitem k v).
Proof. intros Hk d. exists [(k, v)]. split; [by constructor|done]. Qed.

Ltac solve_elem :=
  solve [repeat first [apply list_elem_of_here | apply list_elem_of_further]].

Ltac solve_notin :=
  let H := fresh "H" in
  intros H;
  repeat (apply elem_of_cons in H as [H|H]; [discriminate H|]);
  by apply elem_of_nil in H.

Ltac solve_subset :=
  let k := fresh "k" in
  let H := fresh "H" in
  intros k H;
  repeat (apply elem_of_cons in H as [->|H]; [solve_elem|]);
  by apply elem_of_nil in H.

Ltac writes_step :=
  lazymatch goal with
  | |- writes _ (SE.ret _) => apply writes_ret
  | |- writes _ (SE.raise _) => apply writes_raise
  | |- writes _ (SE.lift _) => apply writes_lift
  | |- writes _ (setitem _ _) => apply writes_setitem; solve_elem
  | |- writes _ (find_element _) => unfold find_element
  | |- writes _ (SE.bind SE.get _) => apply writes_get_bind; intros ?
  | |- writes _ (SE.bind _ _) => apply writes_bind; [|intros ?]
  | |- writes _ (SE.try_except _ _) => apply writes_try_except
  | |- writes _ (SE.try_pass _) => unfold SE.try_pass
  | |- writes _ (match ?x with _ => _ end) => destruct x
  end.

Ltac writes_steps := repeat writes_step.

(** ** The field passes: which keys they assign *)

Lemma writes_set_price (t : string) : writes ["price"] (set_price t).
Proof. unfold set_price. writes_steps. Qed.

Lemma writes_set_square_feet (t : string) :
  writes ["square_feet"; "price_per_sqft"] (set_square_feet t).
Proof. unfold set_square_feet. writes_steps. Qed.

Lemma writes_set_location (t : string) :
  writes ["address"; "city"; "state"] (set_location t).
Proof. unfold set_location. writes_steps. Qed.

Lemma writes_meta_step (meta : meta_tag) : writes ["title"; "description"] (meta_step meta).
Proof. unfold meta_step. writes_steps. Qed.

Lemma writes_meta_pass (metas : list meta_tag) :
  writes ["title"; "description"] (meta_pass metas).
Proof.
  induction metas as [|meta metas IH]; simpl; [apply writes_ret|].
  apply writes_bind; [apply writes_meta_step|done].
Qed.

Lemma writes_property_id_pass (url : string) : writes ["property_id"] (property_id_pass url).
Proof. unfold property_id_pass. writes_steps. Qed.

Ltac writes_pass :=
  lazymatch goal with
  | |- writes _ (set_price _) => eapply writes_mono; [|apply writes_set_price]; solve_subset
  | |- writes _ (set_square_feet _) =>
      eapply writes_mono; [|apply writes_set_square_feet]; solve_subset
  | |- writes _ (set_location _) =>
      eapply writes_mono; [|apply writes_set_location]; solve_subset
  | |- writes _ (meta_pass _) => eapply writes_mono; [|apply writes_meta_pass]; solve_subset
  | |- writes _ (property_id_pass _) =>
      eapply writes_mono; [|apply writes_property_id_pass]; solve_subset
  | |- _ => writes_step
  end.

Lemma writes_rendered_fields (pg : page) : writes extracted_keys (rendered_fields pg).
Proof. unfold rendered_fields. repeat writes_pass. Qed.

Lemma writes_static_fields (pg : page) : writes extracted_keys (static_fields pg).
Proof. unfold static_fields. repeat writes_pass. Qed.

Lemma writes_extract (cfg : config) (url : string) (pg : page) :
  writes extracted_keys (extract cfg url pg).
Proof.
  unfold extract. apply writes_bind; [|intros _; repeat writes_pass].
  destruct (use_selenium cfg); [apply writes_rendered_fields|apply writes_static_fields].
Qed.

(** ** C1: the derived price per square foot *)

Lemma no_area_yet_priced (d : dict) : no_area_yet d -> priced d.
Proof.
  intros (Hs & Hq & Hp). repeat split; [|done|by left].
  rewrite Hs, Hq. unfold derived. by rewrite andb_false_r.
Qed.

Lemma no_area_yet_new (url : string) : no_area_yet (new_property_data url).
Proof. by vm_compute. Qed.

(** A pass that leaves the three fields alone keeps both invariants. *)
Lemma no_area_yet_frame {A} (ks : list string) (m : E A) (d : dict) :
  writes ks m -> "price" ∉ ks -> "square_feet" ∉ ks -> "price_per_sqft" ∉ ks ->
  no_area_yet d -> no_area_yet (snd (m d)).
Proof.
  intros Hm H1 H2 H3. unfold no_area_yet.
  by rewrite !(writes_item_other ks m d) by done.
Qed.

Lemma priced_frame {A} (ks : list string) (m : E A) (d : dict) :
  writes ks m -> "price" ∉ ks -> "square_feet" ∉ ks -> "price_per_sqft" ∉ ks ->
  priced d -> priced (snd (m d)).
Proof.
  intros Hm H1 H2 H3. unfold priced.
  by rewrite !(writes_item_other ks m d) by done.
Qed.

Lemma set_price_run (t : string) (d : dict) :
  set_price t d = (Ret tt, <["price" := PyFloat (Spec.numeric_coercion t)]> d).
Proof. unfold set_price, SE.bind, SE.lift. by rewrite parse_price_coercion. Qed.

Lemma no_area_yet_set_price (t : string) (d : dict) :
  no_area_yet d -> no_area_yet (snd (set_price t d)).
Proof.
  intros (Hs & Hq & Hp). rewrite set_price_run. simpl. unfold no_area_yet.
  rewrite !item_insert_ne by done. rewrite item_insert_eq. done.
Qed.

Lemma set_square_feet_run (t : string) (d : dict) :
  (forall s, item d "price" <> PyStr s) ->
  exists y, parse_square_feet (Some t) = Ret y /\
    set_square_feet t d =
      (Ret tt,
       let d1 := <["square_feet" := PyFloat y]> d in
       if truthy (item d "price") && Float.truthy y
       then <["price_per_sqft" := quotient (item d "price") (PyFloat y)]> d1
       else d1).
Proof.
  intros Hp. destruct (parse_square_feet_returns (Some t)) as [y Hy].
  exists y. split; [done|].
  unfold set_square_feet, SE.bind, SE.lift, setitem, SE.modify, SE.get, SE.ret.
  rewrite Hy. rewrite item_insert_eq, item_insert_ne by done.
  cbn [truthy].
  destruct (item d "price") as [|s|x] eqn:Hx.
  - done.
  - exfalso; by apply (Hp s).
  - cbn [truthy quotient py_truediv].
    assert (Float.eqb y Float.zero = negb (Float.truthy y)) as ->.
    { unfold Float.truthy. by rewrite negb_involutive. }
    destruct (Float.truthy x), (Float.truthy y); done.
Qed.

Lemma priced_set_square_feet (t : string) (d : dict) :
  no_area_yet d -> priced (snd (set_square_feet t d)).
Proof.
  intros (Hs & Hq & Hp).
  destruct (set_square_feet_run t d Hp) as (y & Hy & ->). cbn [snd].
  apply parse_square_feet_not_negative in Hy.
  unfold priced, derived.
  destruct (truthy (item d "price") && Float.truthy y) eqn:Hg.
  - rewrite item_insert_eq. rewrite !item_insert_ne by done.
    rewrite item_insert_eq. cbn [truthy]. rewrite Hg. split_and!; [done..|]. right; eauto.
  - rewrite !item_insert_ne by done. rewrite item_insert_eq. cbn [truthy].
    rewrite Hg, Hq. split_and!; [done..|]. right; eauto.
Qed.

Lemma try_pass_snd (m : E unit) (d : dict) : snd (SE.try_pass m d) = snd (m d).
Proof. unfold SE.try_pass, SE.try_except. by destruct (m d) as [[[]|e] d']. Qed.

Lemma try_pass_ret (m : E unit) (d : dict) : fst (SE.try_pass m d) = Ret tt.
Proof. unfold SE.try_pass, SE.try_except. by destruct (m d) as [[[]|e] d']. Qed.

Lemma bind_snd_ret {A B} (m : E A) (k : A -> E B) (d : dict) (a : A) :
  fst (m d) = Ret a -> snd (SE.bind m k d) = snd (k a (snd (m d))).
Proof. unfold SE.bind. destruct (m d) as [[a'|e] d']; simpl; [|done]. by intros [= ->]. Qed.

Lemma bind_try_pass_snd {B} (m : E unit) (k : unit -> E B) (d : dict) :
  snd (SE.bind (SE.try_pass m) k d) = snd (k tt (snd (m d))).
Proof.
  rewrite (bind_snd_ret _ _ _ tt) by apply try_pass_ret. by rewrite try_pass_snd.
Qed.

Lemma writes_find_set (ks : list string) (elem : option string) (k : string)
    (f : string -> pyval) :
  k ∈ ks -> writes ks (SE.bind (find_element elem) (fun text => setitem k (f text))).
Proof.
  intros Hk. apply writes_bind; [writes_steps|intros ?; by apply writes_setitem].
Qed.

Lemma find_bind_snd {B} (elem : option string) (k : string -> E B) (d : dict) :
  snd (SE.bind (find_element elem) k d) =
  match elem with Some text => snd (k text d) | None => d end.
Proof. by destruct elem. Qed.
Lemma priced_rendered_fields (pg : page) (d : dict) :
  no_area_yet d -> priced (snd (rendered_fields pg d)).
Proof.
  intros H0. unfold rendered_fields.
  rewrite !bind_try_pass_snd.
  set (d1 := snd (SE.bind (find_element (title_elem pg)) _ d)).
  set (d2 := snd (SE.bind (find_element (description_elem pg)) _ d1)).
  set (d3 := snd (SE.bind (find_element (price_elem pg)) _ d2)).
  set (d4 := snd (SE.bind (find_element (sqft_elem pg)) _ d3)).
  set (d5 := snd (SE.bind (find_element (location_elem pg)) _ d4)).
  assert (no_area_yet d1) as H1.
  { apply (no_area_yet_frame ["title"]); [by apply writes_find_set; solve_elem|..|done];
      solve_notin. }
  assert (no_area_yet d2) as H2.
  { apply (no_area_yet_frame ["description"]);
      [by apply writes_find_set; solve_elem|..|done]; solve_notin. }
  assert (no_area_yet d3) as H3.
  { subst d3. rewrite find_bind_snd. destruct (price_elem pg); [|done].
    by apply no_area_yet_set_price. }
  assert (priced d4) as H4.
  { subst d4. rewrite find_bind_snd. destruct (sqft_elem pg).
    - by apply priced_set_square_feet.
    - by apply no_area_yet_priced. }
  assert (priced d5) as H5.
  { subst d5. rewrite find_bind_snd. destruct (location_elem pg); [|done].
    apply (priced_frame ["address"; "city"; "state"]); [apply writes_set_location|..|done];
      solve_notin. }
  by destruct (page_source_ok pg).
Qed.

Lemma static_step_snd {B} (elem : option string) (f : string -> E unit) (k : unit -> E B)
    (d : dict) :
  (forall t d', fst (f t d') = Ret tt) ->
  snd (SE.bind (match elem with Some t => f t | None => SE.ret tt end) k d) =
  snd (k tt (match elem with Some t => snd (f t d) | None => d end)).
Proof.
  intros Hf. destruct elem as [t|]; [|done].
  by rewrite (bind_snd_ret _ _ _ tt) by apply Hf.
Qed.

Lemma set_location_ret (t : string) (d : dict) : fst (set_location t d) = Ret tt.
Proof. unfold set_location. by destruct (extract_city_state _). Qed.

Lemma priced_static_fields (pg : page) (d : dict) :
  no_area_yet d -> priced (snd (static_fields pg d)).
Proof.
  intros H0. unfold static_fields.
  rewrite (static_step_snd (title_elem pg)) by done.
  rewrite (static_step_snd (description_elem pg)) by done.
  rewrite (static_step_snd (price_elem pg)) by (intros t d'; by rewrite set_price_run).
  set (d1 := match title_elem pg with Some t => _ | None => d end).
  set (d2 := match description_elem pg with Some t => _ | None => d1 end).
  set (d3 := match price_elem pg with Some t => _ | None => d2 end).
  assert (no_area_yet d1) as H1.
  { subst d1. destruct (title_elem pg); [|done].
    apply (no_area_yet_frame ["title"]);
      [by apply writes_setitem; solve_elem|..|done]; solve_notin. }
  assert (no_area_yet d2) as H2.
  { subst d2. destruct (description_elem pg); [|done].
    apply (no_area_yet_frame ["description"]);
      [by apply writes_setitem; solve_elem|..|done]; solve_notin. }
  assert (no_area_yet d3) as H3.
  { subst d3. destruct (price_elem pg); [|done]. by apply no_area_yet_set_price. }
  destruct (sqft_elem pg) as [t|] eqn:Hsq.
  - destruct (set_square_feet_run t d3) as (y & Hy & Hrun); [apply H3|].
    rewrite (bind_snd_ret _ _ _ tt) by (by rewrite Hrun).
    assert (priced (snd (set_square_feet t d3))) as H4 by (by apply priced_set_square_feet).
    destruct (location_elem pg); [|done].
    apply (priced_frame ["address"; "city"; "state"]); [apply writes_set_location|..|done];
      solve_notin.
  - cbn [SE.bind SE.ret]. apply no_area_yet_priced in H3.
    destruct (location_elem pg); [|done].
    apply (priced_frame ["address"; "city"; "state"]); [apply writes_set_location|..|done];
      solve_notin.
Qed.
Lemma bind_snd_inv {S A B} (P : S -> Prop) (m : SE S A) (k : A -> SE S B) (s : S) :
  P (snd (m s)) -> (forall a s', P s' -> P (snd (k a s'))) -> P (snd (SE.bind m k s)).
Proof.
  intros Hm Hk. unfold SE.bind. destruct (m s) as [[a|e] s']; simpl in *; [|done].
  by apply Hk.
Qed.

Lemma priced_extract (cfg : config) (url : string) (pg : page) (d : dict) :
  no_area_yet d -> priced (snd (extract cfg url pg d)).
Proof.
  intros H0. unfold extract. apply bind_snd_inv.
  - destruct (use_selenium cfg);
      [by apply priced_rendered_fields|by apply priced_static_fields].
  - intros _ d1 H1. apply bind_snd_inv.
    + apply (priced_frame ["title"; "description"]); [apply writes_meta_pass|..|done];
        solve_notin.
    + intros _ d2 H2.
      apply (priced_frame ["property_id"]); [apply writes_property_id_pass|..|done];
        solve_notin.
Qed.

(** [scrape_property] returns a record, whatever the outside world does. *)
Lemma scrape_property_returns (w : world) (cfg : config) (url : string) (self : scraper) :
  exists d self',
    scrape_property w cfg url self = (Ret d, self') /\
    (d = new_property_data url \/
     exists pg, d = snd (extract cfg url pg (new_property_data url))).
Proof.
  unfold scrape_property, SE.try_except, SE.bind, SE.ret.
  destruct (acquire w cfg url self) as [[pg|e] self']; eauto 6.
Qed.

Lemma scrape_property_priced (w : world) (cfg : config) (url : string) (self : scraper)
    (d : dict) (self' : scraper) :
  scrape_property w cfg url self = (Ret d, self') -> priced d.
Proof.
  destruct (scrape_property_returns w cfg url self) as (d' & s' & -> & Hd).
  intros [= <- <-]. destruct Hd as [->|[pg ->]].
  - apply no_area_yet_priced, no_area_yet_new.
  - apply priced_extract, no_area_yet_new.
Qed.

Lemma priced_consistent (d : dict) : priced d -> price_per_sqft_consistent d.
Proof.
  intros (Hq & Hp & Hs). unfold price_per_sqft_consistent. rewrite Hq. unfold derived.
  destruct (item d "price") as [|s|x]; [done|exfalso; by apply (Hp s)|].
  destruct Hs as [->|(y & -> & Hy)].
  { cbn [is_null is_positive truthy negb]. rewrite !andb_false_r. done. }
  cbn [is_null is_positive is_nonzero truthy quotient].
  destruct (Float.is_nan x) eqn:Hnx.
  { destruct x; try done. rewrite div_nan_l. cbn [negb andb]. by destruct (_ && _). }
  destruct (Float.is_nan y) eqn:Hny.
  { destruct y; try done. rewrite div_nan_r. cbn [negb andb]. by destruct (_ && _). }
  cbn [negb andb].
  destruct (Float.ltb Float.zero y) eqn:Hpos.
  - apply truthy_positive in Hpos. rewrite Hpos, andb_true_r.
    unfold Float.truthy. by destruct (negb (Float.eqb x Float.zero)).
  - pose proof (not_negative_not_positive y Hy Hpos Hny) as Hz.
    rewrite Hz, andb_false_r. done.
Qed.
(** C1, as stated, at a listing with the price text ["$0"] and the area
    text ["2,500 SF"]: price and square_feet are the numbers 0.0 and 2500.0,
    and price_per_sqft is [None], not [0.0 / 2500.0]. *)
Lemma price_zero_leaves_price_per_sqft_null :
  match scrape_property Example.free_site Example.static_cfg
          "https://www.loopnet.com/property/7" new_scraper with
  | (Ret d, _) =>
      item d "price" = PyFloat Float.zero /\
      item d "square_feet" = PyFloat (Float.of_decimal 2500 0) /\
      item d "price_per_sqft" = PyNone /\
      ~ price_per_sqft_claimed d
  | (Raise _, _) => False
  end.
Proof. vm_compute. repeat split. discriminate. Qed.

(** C1 (amended): every record that [scrape_property] returns has
    price_per_sqft equal to price / square_feet when price and square_feet
    are both non-null, square_feet is greater than zero and price is not
    zero; in every other case, a price of zero included, price_per_sqft is
    null. *)
Theorem price_per_sqft_invariant (w : world) (cfg : config) (url : string) (self : scraper) :
  exists d self',
    scrape_property w cfg url self = (Ret d, self') /\ price_per_sqft_consistent d.
Proof.
  destruct (scrape_property_returns w cfg url self) as (d & self' & Hrun & _).
  exists d, self'. split; [done|].
  by apply priced_consistent, (scrape_property_priced w cfg url self d self').
Qed.
Lemma new_property_data_dom (url : string) :
  dom (new_property_data url) = list_to_set schema.
Proof. vm_compute. reflexivity. Qed.

Lemma schema_size : size (list_to_set schema : gset string) = 15%nat.
Proof. vm_compute. reflexivity. Qed.

Lemma new_property_data_optional (url : string) :
  Forall (fun k => new_property_data url !! k = Some PyNone) optional_fields.
Proof. repeat constructor. Qed.

Lemma extracted_keys_in_schema (url : string) (k : string) :
  k ∈ extracted_keys -> k ∈ dom (new_property_data url).
Proof.
  rewrite new_property_data_dom, elem_of_list_to_set. revert k. solve_subset.
Qed.

Lemma extract_dom (cfg : config) (url : string) (pg : page) :
  dom (snd (extract cfg url pg (new_property_data url))) = list_to_set schema.
Proof.
  rewrite (writes_dom extracted_keys); [apply new_property_data_dom|apply writes_extract|].
  apply extracted_keys_in_schema.
Qed.

Lemma extract_source_url (cfg : config) (url : string) (pg : page) :
  let d := snd (extract cfg url pg (new_property_data url)) in
  d !! "source" = Some (PyStr "LoopNet") /\ d !! "url" = Some (PyStr url).
Proof.
  cbn zeta. rewrite !(writes_lookup_other extracted_keys _ _ _ (writes_extract cfg url pg)).
  - split; by vm_compute.
  - solve_notin.
  - solve_notin.
Qed.

Lemma extract_nothing (cfg : config) (url : string) (pg : page) (d : dict) :
  finds_nothing pg = true ->
  snd (extract cfg url pg d) = d \/
  snd (extract cfg url pg d) = snd (property_id_pass url d).
Proof.
  destruct pg as [[?|] [?|] [?|] [?|] [?|] [|? ?] ok]; try discriminate. intros _.
  unfold extract. destruct (use_selenium cfg).
  - destruct ok; [right|left]; reflexivity.
  - right. reflexivity.
Qed.

Lemma scrape_property_run (w : world) (cfg : config) (url : string) (self : scraper) :
  scrape_property w cfg url self =
  match acquire w cfg url self with
  | (Ret pg, self') => (Ret (snd (extract cfg url pg (new_property_data url))), self')
  | (Raise _, self') => (Ret (new_property_data url), self')
  end.
Proof.
  unfold scrape_property, SE.try_except, SE.bind, SE.ret.
  by destruct (acquire w cfg url self) as [[pg|e] self'].
Qed.

(** C10, as stated, at a listing of the example site: the record has 15
    keys, not 14. *)
Lemma record_has_fifteen_fields :
  match scrape_property Example.free_site Example.static_cfg
          "https://www.loopnet.com/property/7" new_scraper with
  | (Ret d, _) => size (dom d) = 15%nat /\ size (dom d) <> 14%nat
  | (Raise _, _) => False
  end.
Proof. vm_compute. split; [reflexivity|discriminate]. Qed.

(** C10 (amended): for every URL, in every state and whatever the outside
    world answers, [scrape_property] returns (it never raises) a mapping
    whose keys are exactly the 15 fields of the schema, with [source] equal
    to ["LoopNet"] and [url] equal to the input URL; when the fetch fails
    every other field is [None], and when the page offers no element and no
    meta tag every other field except [property_id] is [None]. *)
Theorem scrape_property_total (w : world) (cfg : config) (url : string) (self : scraper) :
  exists d self',
    scrape_property w cfg url self = (Ret d, self') /\
    dom d = list_to_set schema /\ size (dom d) = 15%nat /\
    d !! "source" = Some (PyStr "LoopNet") /\ d !! "url" = Some (PyStr url) /\
    match fst (acquire w cfg url self) with
    | Raise _ => Forall (fun k => d !! k = Some PyNone) optional_fields
    | Ret pg =>
        if finds_nothing pg
        then Forall (fun k => d !! k = Some PyNone) page_fields
        else True
    end.
Proof.
  rewrite scrape_property_run.
  destruct (acquire w cfg url self) as [[pg|e] self']; eexists _, _; (split; [reflexivity|]).
  - pose proof (extract_dom cfg url pg) as Hdom.
    destruct (extract_source_url cfg url pg) as [Hsrc Hurl].
    split; [done|]. split; [rewrite Hdom; apply schema_size|]. split; [done|]. split; [done|].
    cbn [fst]. destruct (finds_nothing pg) eqn:Hn; [|done].
    destruct (extract_nothing cfg url pg (new_property_data url) Hn) as [->| ->].
    + change page_fields with (drop 1 optional_fields).
      apply Forall_drop, new_property_data_optional.
    + unfold page_fields, schema. cbn [drop].
      repeat (apply Forall_cons; split); try (by apply Forall_nil);
        (rewrite (writes_lookup_other ["property_id"] _ _ _ (writes_property_id_pass url))
           by solve_notin); vm_compute; reflexivity.
  - split; [apply new_property_data_dom|].
    split; [rewrite new_property_data_dom; apply schema_size|].
    split; [by vm_compute|]. split; [by vm_compute|].
    apply new_property_data_optional.
Qed.
(** ** C9: the meta tags *)

Lemma meta_step_keeps (k : string) (meta : meta_tag) (d : dict) :
  truthy (item d k) = true -> item (snd (meta_step meta d)) k = item d k.
Proof.
  intros Hk. unfold meta_step, SE.bind, SE.get.
  destruct (Text.contains "og:title" _).
  - destruct (truthy (item d "title")) eqn:Ht; [done|].
    cbn [negb setitem SE.modify snd]. apply item_insert_ne. intros <-. congruence.
  - destruct (Text.contains "og:description" _); [|done].
    destruct (truthy (item d "description")) eqn:Ht; [done|].
    cbn [negb setitem SE.modify snd]. apply item_insert_ne. intros <-. congruence.
Qed.

Lemma meta_step_ret (meta : meta_tag) (d : dict) : fst (meta_step meta d) = Ret tt.
Proof.
  unfold meta_step, SE.bind, SE.get.
  destruct (Text.contains "og:title" _).
  - by destruct (truthy (item d "title")).
  - destruct (Text.contains "og:description" _); [|done].
    by destruct (truthy (item d "description")).
Qed.

Lemma meta_pass_keeps (k : string) (metas : list meta_tag) (d : dict) :
  truthy (item d k) = true -> item (snd (meta_pass metas d)) k = item d k.
Proof.
  revert d. induction metas as [|meta metas IH]; intros d Hk; [done|].
  cbn [meta_pass]. rewrite (bind_snd_ret _ _ _ tt) by apply meta_step_ret.
  pose proof (meta_step_keeps k meta d Hk) as Hstep.
  rewrite IH; [done|]. by rewrite Hstep.
Qed.

(** C9, as stated, at a page whose heading is found with an empty text:
    after the primary pass [title] is the string [""], which is not null,
    and the meta pass assigns the [og:title] to it. *)
Lemma meta_pass_overrides_empty_title :
  let d := snd (static_fields Example.empty_heading (new_property_data "u")) in
  item d "title" = PyStr "" /\ item d "title" <> PyNone /\
  item (snd (meta_pass (meta_tags Example.empty_heading) d)) "title" = PyStr "Corner shop".
Proof. vm_compute. split; [reflexivity|]. split; [discriminate|reflexivity]. Qed.

(** C9 (amended): the meta pass leaves [title] (resp. [description]) as
    it is whenever the primary pass left there a text that is not empty; it
    assigns only to a field that is null or the empty string. *)
Theorem meta_pass_never_overrides (metas : list meta_tag) (d : dict) :
  (has_text (item d "title") = true ->
   item (snd (meta_pass metas d)) "title" = item d "title") /\
  (has_text (item d "description") = true ->
   item (snd (meta_pass metas d)) "description" = item d "description").
Proof.
  split; intros Ht; apply meta_pass_keeps.
  - by destruct (item d "title").
  - by destruct (item d "description").
Qed.

Lemma meta_pass_never_overrides_witness :
  let d := snd (static_fields Example.free_listing (new_property_data "u")) in
  item (snd (meta_pass (meta_tags Example.empty_heading) d)) "title" = item d "title".
Proof.
  exact (proj1 (meta_pass_never_overrides (meta_tags Example.empty_heading)
                  (snd (static_fields Example.free_listing (new_property_data "u"))))
               eq_refl).
Defined.
(** ** C7: which records are kept *)

Lemma text_fields_new (url : string) : text_fields (new_property_data url).
Proof. split; intros x; by vm_compute. Qed.

Lemma text_fields_frame {A} (ks : list string) (m : E A) (d : dict) :
  writes ks m -> "title" ∉ ks -> "description" ∉ ks ->
  text_fields d -> text_fields (snd (m d)).
Proof.
  intros Hm H1 H2. unfold text_fields.
  by rewrite !(writes_item_other ks m d) by done.
Qed.

Lemma text_fields_set (k : string) (s : string) (d : dict) :
  text_fields d -> text_fields (<[k := PyStr s]> d).
Proof.
  intros [Ht Hd]. split; intros x.
  - destruct (decide (k = "title")) as [->|Hk].
    + by rewrite item_insert_eq.
    + rewrite item_insert_ne by done. apply Ht.
  - destruct (decide (k = "description")) as [->|Hk].
    + by rewrite item_insert_eq.
    + rewrite item_insert_ne by done. apply Hd.
Qed.

Lemma text_fields_rendered_fields (pg : page) (d : dict) :
  text_fields d -> text_fields (snd (rendered_fields pg d)).
Proof.
  intros H0. unfold rendered_fields.
  rewrite !bind_try_pass_snd, !find_bind_snd.
  set (d1 := match title_elem pg with Some t => _ | None => d end).
  set (d2 := match description_elem pg with Some t => _ | None => d1 end).
  set (d3 := match price_elem pg with Some t => _ | None => d2 end).
  set (d4 := match sqft_elem pg with Some t => _ | None => d3 end).
  set (d5 := match location_elem pg with Some t => _ | None => d4 end).
  assert (text_fields d1) as H1.
  { subst d1. destruct (title_elem pg); [|done]. by apply text_fields_set. }
  assert (text_fields d2) as H2.
  { subst d2. destruct (description_elem pg); [|done]. by apply text_fields_set. }
  assert (text_fields d3) as H3.
  { subst d3. destruct (price_elem pg); [|done].
    apply (text_fields_frame ["price"]); [apply writes_set_price|..|done]; solve_notin. }
  assert (text_fields d4) as H4.
  { subst d4. destruct (sqft_elem pg); [|done].
    apply (text_fields_frame ["square_feet"; "price_per_sqft"]);
      [apply writes_set_square_feet|..|done]; solve_notin. }
  assert (text_fields d5) as H5.
  { subst d5. destruct (location_elem pg); [|done].
    apply (text_fields_frame ["address"; "city"; "state"]);
      [apply writes_set_location|..|done]; solve_notin. }
  by destruct (page_source_ok pg).
Qed.

Lemma static_step_inv (P : dict -> Prop) {B} (elem : option string) (f : string -> E unit)
    (k : unit -> E B) (d : dict) :
  (forall t d', P d' -> P (snd (f t d'))) ->
  (forall d', P d' -> P (snd (k tt d'))) ->
  P d -> P (snd (SE.bind (match elem with Some t => f t | None => SE.ret tt end) k d)).
Proof.
  intros Hf Hk Hd. apply bind_snd_inv.
  - destruct elem; [by apply Hf|done].
  - intros []. apply Hk.
Qed.

Lemma text_fields_static_fields (pg : page) (d : dict) :
  text_fields d -> text_fields (snd (static_fields pg d)).
Proof.
  intros H0. unfold static_fields.
  apply static_step_inv; [intros; by apply text_fields_set| |done]. intros d1 H1.
  apply static_step_inv; [intros; by apply text_fields_set| |done]. intros d2 H2.
  apply static_step_inv; [| |done].
  { intros t d' Hd'.
    apply (text_fields_frame ["price"]); [apply writes_set_price|..|done]; solve_notin. }
  intros d3 H3.
  apply static_step_inv; [| |done].
  { intros t d' Hd'.
    apply (text_fields_frame ["square_feet"; "price_per_sqft"]);
      [apply writes_set_square_feet|..|done]; solve_notin. }
  intros d4 H4. destruct (location_elem pg); [|done].
  apply (text_fields_frame ["address"; "city"; "state"]);
    [apply writes_set_location|..|done]; solve_notin.
Qed.

Lemma text_fields_meta_step (meta : meta_tag) (d : dict) :
  text_fields d -> text_fields (snd (meta_step meta d)).
Proof.
  intros Hd. unfold meta_step, SE.bind, SE.get.
  destruct (Text.contains "og:title" _).
  - destruct (negb _); [|done]. by apply text_fields_set.
  - destruct (Text.contains "og:description" _); [|done].
    destruct (negb _); [|done]. by apply text_fields_set.
Qed.

Lemma text_fields_meta_pass (metas : list meta_tag) (d : dict) :
  text_fields d -> text_fields (snd (meta_pass metas d)).
Proof.
  revert d. induction metas as [|meta metas IH]; intros d Hd; [done|].
  cbn [meta_pass]. apply bind_snd_inv; [by apply text_fields_meta_step|].
  intros _ d' Hd'. by apply IH.
Qed.

Lemma text_fields_extract (cfg : config) (url : string) (pg : page) (d : dict) :
  text_fields d -> text_fields (snd (extract cfg url pg d)).
Proof.
  intros Hd. unfold extract. apply bind_snd_inv.
  - destruct (use_selenium cfg);
      [by apply text_fields_rendered_fields|by apply text_fields_static_fields].
  - intros _ d1 H1. apply bind_snd_inv; [by apply text_fields_meta_pass|].
    intros _ d2 H2.
    apply (text_fields_frame ["property_id"]); [apply writes_property_id_pass|..|done];
      solve_notin.
Qed.

Lemma truthy_has_text (d : dict) :
  text_fields d ->
  truthy (item d "title") || truthy (item d "description")
  = has_text (item d "title") || has_text (item d "description").
Proof.
  intros [Ht Hd].
  destruct (item d "title") as [|s|x]; [| |exfalso; by apply (Ht x)];
    (destruct (item d "description") as [|s'|x']; [done|done|exfalso; by apply (Hd x')]).
Qed.
(** ** The scraper object: what the methods do to [self] *)

Lemma keeps_session_refl (self : scraper) : keeps_session self self.
Proof. unfold keeps_session. auto. Qed.

Lemma keeps_session_trans (s1 s2 s3 : scraper) :
  keeps_session s1 s2 -> keeps_session s2 s3 -> keeps_session s1 s3.
Proof.
  intros (Hq1 & Hd1 & Hs1) (Hq2 & Hd2 & Hs2). unfold keeps_session.
  split; [congruence|]. split; eauto.
Qed.

Lemma only_requests_refl (self : scraper) : only_requests self self.
Proof. split; [done|apply keeps_session_refl]. Qed.

Lemma only_requests_trans (s1 s2 s3 : scraper) :
  only_requests s1 s2 -> only_requests s2 s3 -> only_requests s1 s3.
Proof.
  intros [Hp1 Hk1] [Hp2 Hk2]. split; [congruence|by eapply keeps_session_trans].
Qed.

Lemma sessions_ok_tick (self : scraper) : sessions_ok self -> sessions_ok (tick self).
Proof.
  intros (Hs & Hn & Hc). unfold sessions_ok. split; [done|]. split; [done|].
  eapply Forall_impl; [exact Hc|]. simpl. lia.
Qed.

Lemma only_requests_tick (self : scraper) : only_requests self (tick self).
Proof.
  unfold only_requests, keeps_session.
  split; [done|]. split; [done|]. split; [done|]. apply sessions_ok_tick.
Qed.

Lemma sessions_ok_start (self : scraper) :
  driver self = None -> sessions_ok self ->
  sessions_ok (log_started (clock self) (set_driver (Some (clock self)) (tick self))).
Proof.
  intros Hd (Hs & Hn & Hc). rewrite Hd in Hs. simpl in *.
  unfold sessions_ok. simpl. split; [|split].
  - by rewrite Hs.
  - apply NoDup_cons. split; [|done].
    intros Hin. rewrite Forall_forall in Hc. specialize (Hc _ Hin). lia.
  - apply Forall_cons. split; [lia|].
    eapply Forall_impl; [exact Hc|]. simpl. lia.
Qed.

Lemma only_requests_start (self : scraper) :
  driver self = None ->
  only_requests self (log_started (clock self) (set_driver (Some (clock self)) (tick self))).
Proof.
  intros Hd. unfold only_requests, keeps_session.
  split; [done|]. split; [done|]. split.
  - intros h. by rewrite Hd.
  - by apply sessions_ok_start.
Qed.

Lemma init_driver_run (w : world) (self : scraper) :
  _init_driver w self =
  match driver self with
  | Some _ => (Ret tt, self)
  | None =>
      let opened := log_started (clock self) (set_driver (Some (clock self)) (tick self)) in
      match launch_browser w (clock self) with
      | Launched => (Ret tt, opened)
      | LaunchFails => (Raise WebDriverException, tick self)
      | ScriptFails => (Raise WebDriverException, opened)
      end
  end.
Proof.
  unfold _init_driver, SE.bind, SE.get, ask. destruct (driver self); [done|].
  by destruct (launch_browser w (clock self)).
Qed.

Lemma init_driver_only_requests (w : world) (self : scraper) :
  only_requests self (snd (_init_driver w self)).
Proof.
  rewrite init_driver_run. destruct (driver self) eqn:Hd; [apply only_requests_refl|].
  destruct (launch_browser w (clock self)); simpl;
    [by apply only_requests_start|apply only_requests_tick|by apply only_requests_start].
Qed.

(** [_init_driver] raises exactly when no session is open and the browser
    does not come up; when it returns, a session is open. *)
Lemma init_driver_outcome (w : world) (self : scraper) :
  match fst (_init_driver w self) with
  | Ret _ => driver (snd (_init_driver w self)) <> None /\
             (driver self = None -> launch_browser w (clock self) = Launched)
  | Raise e => e = WebDriverException /\ driver self = None /\
               launch_browser w (clock self) <> Launched
  end.
Proof.
  rewrite init_driver_run. destruct (driver self) eqn:Hd; simpl.
  - split; [by rewrite Hd|done].
  - by destruct (launch_browser w (clock self)).
Qed.

Lemma scrape_search_page_run (w : world) (cfg : config) (url : string) (self : scraper) :
  scrape_search_page w cfg url self =
  if use_selenium cfg then
    match _init_driver w self with
    | (Ret _, s1) =>
        (Ret (match rendered_search w (clock s1) url with
              | Some hrefs => rendered_links hrefs
              | None => []
              end), tick s1)
    | (Raise e, s1) => (Raise e, s1)
    end
  else
    (Ret (match static_search w (clock self) url with
          | Some hrefs => static_links cfg hrefs
          | None => []
          end), tick self).
Proof.
  unfold scrape_search_page, SE.bind, SE.try_except, ask, SE.ret, SE.raise.
  destruct (use_selenium cfg).
  - destruct (_init_driver w self) as [[[]|e] s1]; [|done].
    by destruct (rendered_search w (clock s1) url).
  - by destruct (static_search w (clock self) url).
Qed.

Lemma scrape_search_page_only_requests (w : world) (cfg : config) (url : string)
    (self : scraper) :
  only_requests self (snd (scrape_search_page w cfg url self)).
Proof.
  rewrite scrape_search_page_run. destruct (use_selenium cfg).
  - pose proof (init_driver_only_requests w self) as Hi.
    destruct (_init_driver w self) as [[[]|e] s1]; simpl in *; [|done].
    eapply only_requests_trans; [exact Hi|apply only_requests_tick].
  - apply only_requests_tick.
Qed.

(** A search page raises exactly when the rendered strategy has no session
    and the browser does not come up. *)
Lemma scrape_search_page_outcome (w : world) (cfg : config) (url : string)
    (self : scraper) :
  match fst (scrape_search_page w cfg url self) with
  | Ret _ => use_selenium cfg = true ->
             driver (snd (scrape_search_page w cfg url self)) <> None /\
             (driver self = None -> launch_browser w (clock self) = Launched)
  | Raise e => e = WebDriverException /\ use_selenium cfg = true /\
               driver self = None /\ launch_browser w (clock self) <> Launched
  end.
Proof.
  rewrite scrape_search_page_run. destruct (use_selenium cfg); [|done].
  pose proof (init_driver_outcome w self) as Hi.
  destruct (_init_driver w self) as [[[]|e] s1]; simpl in *.
  - intros _. done.
  - destruct Hi as (-> & Hd & Hl). done.
Qed.

Lemma acquire_only_requests (w : world) (cfg : config) (url : string) (self : scraper) :
  only_requests self (snd (acquire w cfg url self)).
Proof.
  unfold acquire, SE.bind, ask, SE.ret, SE.raise. destruct (use_selenium cfg).
  - pose proof (init_driver_only_requests w self) as Hi.
    destruct (_init_driver w self) as [[[]|e] s1]; simpl in *; [|done].
    destruct (rendered_detail w (clock s1) url); simpl;
      (eapply only_requests_trans; [exact Hi|apply only_requests_tick]).
  - destruct (static_detail w (clock self) url); simpl; apply only_requests_tick.
Qed.

Lemma scrape_property_only_requests (w : world) (cfg : config) (url : string)
    (self : scraper) :
  only_requests self (snd (scrape_property w cfg url self)).
Proof.
  rewrite scrape_property_run. pose proof (acquire_only_requests w cfg url self) as Ha.
  by destruct (acquire w cfg url self) as [[pg|e] s1].
Qed.
Lemma visit_run (w : world) (cfg : config) (link : string) (self : scraper) :
  exists d s1,
    scrape_property w cfg link self = (Ret d, s1) /\
    text_fields d /\ only_requests self s1 /\
    visit w cfg link self =
      (Ret tt,
       if truthy (item d "title") || truthy (item d "description")
       then append_property d s1 else s1).
Proof.
  destruct (scrape_property_returns w cfg link self) as (d & s1 & Hrun & Hd).
  exists d, s1. split; [done|]. split; [|split].
  - destruct Hd as [->|[pg ->]]; [|apply text_fields_extract]; apply text_fields_new.
  - pose proof (scrape_property_only_requests w cfg link self) as H.
    by rewrite Hrun in H.
  - unfold visit, SE.bind. rewrite Hrun.
    by destruct (truthy (item d "title") || truthy (item d "description")).
Qed.

Lemma keeps_session_append (d : dict) (self : scraper) :
  keeps_session self (append_property d self).
Proof. unfold keeps_session, sessions_ok. simpl. auto. Qed.

Lemma visit_keeps_session (w : world) (cfg : config) (link : string) (self : scraper) :
  fst (visit w cfg link self) = Ret tt /\
  keeps_session self (snd (visit w cfg link self)) /\
  (length (properties (snd (visit w cfg link self))) <= S (length (properties self)))%nat.
Proof.
  destruct (visit_run w cfg link self) as (d & s1 & _ & _ & [Hp Hk] & ->).
  split; [done|]. cbn [snd].
  destruct (truthy (item d "title") || truthy (item d "description")).
  - split; [eapply keeps_session_trans; [exact Hk|apply keeps_session_append]|].
    simpl. rewrite length_app, Hp. simpl. lia.
  - split; [done|]. rewrite Hp. lia.
Qed.

Lemma visit_all_cons (w : world) (cfg : config) (link : string) (rest : list string)
    (cap : Z) (self : scraper) :
  visit_all w cfg (link :: rest) cap self =
  if len_ge (properties self) cap then (Ret tt, self)
  else match visit w cfg link self with
       | (Ret _, s1) => visit_all w cfg rest cap s1
       | (Raise e, s1) => (Raise e, s1)
       end.
Proof.
  cbn [visit_all]. unfold SE.bind, SE.get. by destruct (len_ge (properties self) cap).
Qed.

Lemma visit_all_spec (w : world) (cfg : config) (links : list string) (cap : Z)
    (self : scraper) :
  let r := visit_all w cfg links cap self in
  fst r = Ret tt /\ keeps_session self (snd r) /\
  Z.of_nat (length (properties (snd r))) <= Z.max cap (Z.of_nat (length (properties self))).
Proof.
  revert self. induction links as [|link rest IH]; intros self; cbn zeta.
  - split; [done|]. split; [apply keeps_session_refl|]. simpl. lia.
  - rewrite visit_all_cons. unfold len_ge.
    destruct (cap <=? Z.of_nat (length (properties self))) eqn:Hcap.
    + split; [done|]. split; [apply keeps_session_refl|]. simpl. lia.
    + apply Z.leb_gt in Hcap.
      destruct (visit_keeps_session w cfg link self) as (Hret & Hk & Hlen).
      destruct (visit w cfg link self) as [[[]|e] s1]; [|done].
      cbn [fst snd] in *.
      destruct (IH s1) as (Hr & Hk' & Hl). split; [done|].
      split; [by eapply keeps_session_trans|]. lia.
Qed.

Lemma close_driver_run (self : scraper) :
  _close_driver self =
  (Ret tt, match driver self with
           | Some h => set_driver None (log_quit h self)
           | None => self
           end).
Proof. unfold _close_driver, SE.bind, SE.get. by destruct (driver self). Qed.


Lemma collect_links_only_requests (w : world) (cfg : config) (seeds : list string)
    (cap : Z) (acc : list string) (self : scraper) :
  only_requests self (snd (collect_links w cfg seeds cap acc self)).
Proof.
  revert acc self. induction seeds as [|seed rest IH]; intros acc self.
  - apply only_requests_refl.
  - cbn [collect_links]. unfold SE.bind.
    pose proof (scrape_search_page_only_requests w cfg seed self) as Hs.
    destruct (scrape_search_page w cfg seed self) as [[links|e] s1]; cbn [snd] in *; [|done].
    destruct (len_ge _ _); [done|].
    eapply only_requests_trans; [exact Hs|apply IH].
Qed.

(** Once a session is open, or with the static strategy, the search pages
    raise nothing. *)
Lemma collect_links_returns (w : world) (cfg : config) (seeds : list string)
    (cap : Z) (acc : list string) (self : scraper) :
  use_selenium cfg = false \/ driver self <> None ->
  exists links, fst (collect_links w cfg seeds cap acc self) = Ret links.
Proof.
  revert acc self. induction seeds as [|seed rest IH]; intros acc self Hok.
  - by eexists.
  - cbn [collect_links]. unfold SE.bind.
    pose proof (scrape_search_page_outcome w cfg seed self) as Ho.
    destruct (scrape_search_page w cfg seed self) as [[links|e] s1]; cbn [fst snd] in *.
    + destruct (len_ge _ _); [by eexists|]. apply IH.
      destruct (use_selenium cfg); [right|by left]. by apply Ho.
    + destruct Ho as (_ & Hsel & Hd & _). destruct Hok as [Hf|Hn]; congruence.
Qed.

(** The link collection raises exactly when the first search page cannot
    open the session. *)
Lemma collect_links_outcome (w : world) (cfg : config) (seeds : list string)
    (cap : Z) (acc : list string) (self : scraper) :
  match fst (collect_links w cfg seeds cap acc self) with
  | Ret _ =>
      seeds <> [] -> use_selenium cfg = true -> driver self = None ->
      launch_browser w (clock self) = Launched
  | Raise e =>
      e = WebDriverException /\ seeds <> [] /\ use_selenium cfg = true /\
      driver self = None /\ launch_browser w (clock self) <> Launched
  end.
Proof.
  destruct seeds as [|seed rest]; [by cbn|].
  cbn [collect_links]. unfold SE.bind.
  pose proof (scrape_search_page_outcome w cfg seed self) as Ho.
  destruct (scrape_search_page w cfg seed self) as [[links|e] s1] eqn:Hrun; cbn [fst snd] in *.
  - assert (use_selenium cfg = false \/ driver s1 <> None) as Hok.
    { destruct (use_selenium cfg); [right|by left]. by apply Ho. }
    destruct (len_ge _ _); cbn [fst].
    + intros _ Hsel Hd. by apply Ho.
    + destruct (collect_links_returns w cfg rest cap (acc ++ links) s1 Hok) as [l ->].
      intros _ Hsel Hd. by apply Ho.
  - destruct Ho as (-> & Hsel & Hd & Hl). done.
Qed.
Lemma discover_run (w : world) (cfg : config) (seeds : list string) (cap : Z)
    (self : scraper) :
  discover w cfg seeds cap self =
  match collect_links w cfg seeds cap [] self with
  | (Ret all_links, s1) => (Ret (slice_to cap (set_order w all_links)), s1)
  | (Raise e, s1) => (Raise e, s1)
  end.
Proof.
  unfold discover, SE.bind, SE.ret.
  by destruct (collect_links w cfg seeds cap [] self) as [[l|e] s1].
Qed.

Lemma scrape_multiple_pages_run (w : world) (cfg : config) (seeds : list string)
    (cap : Z) (self : scraper) :
  scrape_multiple_pages w cfg seeds cap self =
  match discover w cfg seeds cap self with
  | (Ret links, s1) =>
      let s3 := snd (_close_driver (snd (visit_all w cfg links cap s1))) in
      (Ret (properties s3), s3)
  | (Raise e, s1) => (Raise e, s1)
  end.
Proof.
  unfold scrape_multiple_pages, SE.bind at 1.
  destruct (discover w cfg seeds cap self) as [[links|e] s1]; [|done].
  unfold SE.bind at 1. pose proof (visit_all_spec w cfg links cap s1) as (Hret & _).
  cbn zeta in Hret.
  destruct (visit_all w cfg links cap s1) as [[[]|e] s2]; [|discriminate Hret].
  unfold SE.bind, SE.get, SE.ret. cbn [snd]. rewrite !close_driver_run. done.
Qed.

Lemma close_driver_properties (self : scraper) :
  properties (snd (_close_driver self)) = properties self.
Proof. rewrite close_driver_run. cbn [snd]. by destruct (driver self). Qed.

Lemma discover_only_requests (w : world) (cfg : config) (seeds : list string) (cap : Z)
    (self : scraper) :
  only_requests self (snd (discover w cfg seeds cap self)).
Proof.
  rewrite discover_run.
  pose proof (collect_links_only_requests w cfg seeds cap [] self) as H.
  by destruct (collect_links w cfg seeds cap [] self) as [[l|e] s1].
Qed.

(** The records held after a crawl, whether it returns or raises. *)
Lemma scrape_multiple_pages_length (w : world) (cfg : config) (seeds : list string)
    (cap : Z) (self : scraper) :
  let r := scrape_multiple_pages w cfg seeds cap self in
  Z.of_nat (length (properties (snd r))) <= Z.max cap (Z.of_nat (length (properties self))) /\
  match fst r with Ret df => df = properties (snd r) | Raise _ => True end.
Proof.
  cbn zeta. rewrite scrape_multiple_pages_run.
  destruct (discover_only_requests w cfg seeds cap self) as [Hp _].
  destruct (discover w cfg seeds cap self) as [[links|e] s1]; cbn [fst snd] in *.
  - split; [|done]. rewrite close_driver_properties.
    destruct (visit_all_spec w cfg links cap s1) as (_ & _ & Hl). rewrite Hp in Hl. done.
  - split; [|done]. rewrite Hp. lia.
Qed.

(** C4, as stated: a scraper that holds three records from a crawl with a
    maximum of three returns these three from a crawl with a maximum of one;
    and with a maximum of -1 a new scraper returns no record, which is more
    than the maximum. *)
Lemma record_cap_exceeded :
  match scrape_multiple_pages (Example.two_seed_site remove_dups) Example.static_cfg
          [Example.new_york; Example.chicago] 3 new_scraper with
  | (Ret first, self) =>
      match scrape_multiple_pages (Example.two_seed_site remove_dups) Example.static_cfg
              [Example.new_york; Example.chicago] 1 self with
      | (Ret df, _) => length first = 3%nat /\ length df = 3%nat /\
                       ~ Z.of_nat (length df) <= 1
      | _ => False
      end
  | _ => False
  end /\
  match scrape_multiple_pages (Example.two_seed_site remove_dups) Example.static_cfg
          [Example.new_york; Example.chicago] (-1) new_scraper with
  | (Ret df, _) => length df = 0%nat /\ ~ Z.of_nat (length df) <= -1
  | _ => False
  end.
Proof. vm_compute. repeat split; try reflexivity; intros H; by apply H. Qed.

(** C4 (amended): for every seed list, every answer of the outside world,
    every maximum and every scraper, a crawl returns at most the larger of
    [max_properties] and the number of records the scraper held before (and
    holds no more when it raises); so a new scraper, which holds none, returns
    at most [max_properties] records when the maximum is not negative. *)
Theorem record_cap (w : world) (cfg : config) (search_urls : list string)
    (max_properties : Z) (self : scraper) :
  match scrape_multiple_pages w cfg search_urls max_properties self with
  | (Ret df, _) =>
      Z.of_nat (length df)
      <= Z.max max_properties (Z.of_nat (length (properties self))) /\
      (properties self = [] -> 0 <= max_properties ->
       Z.of_nat (length df) <= max_properties)
  | (Raise _, self') =>
      Z.of_nat (length (properties self'))
      <= Z.max max_properties (Z.of_nat (length (properties self))) /\
      (properties self = [] -> 0 <= max_properties ->
       Z.of_nat (length (properties self')) <= max_properties)
  end.
Proof.
  destruct (scrape_multiple_pages_length w cfg search_urls max_properties self)
    as [Hlen Hdf].
  destruct (scrape_multiple_pages w cfg search_urls max_properties self)
    as [[df|e] self']; cbn [fst snd] in *.
  - subst df. split; [done|]. intros Hnew Hcap. rewrite Hnew in Hlen. simpl in Hlen. lia.
  - split; [done|]. intros Hnew Hcap. rewrite Hnew in Hlen. simpl in Hlen. lia.
Qed.

Lemma record_cap_witness :
  match scrape_multiple_pages (Example.two_seed_site remove_dups) Example.static_cfg
          [Example.new_york; Example.chicago] 2 new_scraper with
  | (Ret df, _) => Z.of_nat (length df) <= 2
  | (Raise _, self') => Z.of_nat (length (properties self')) <= 2
  end.
Proof.
  pose proof (record_cap (Example.two_seed_site remove_dups) Example.static_cfg
                [Example.new_york; Example.chicago] 2 new_scraper) as H.
  destruct (scrape_multiple_pages _ _ _ _ _) as [[df|e] self'];
    apply (proj2 H); [reflexivity|lia|reflexivity|lia].
Defined.

(** C7, as stated, at a detail page whose heading is found with an empty
    text and that has no description: [title] is the string [""], which is
    not null, and the record is not appended. *)
Lemma empty_title_record_discarded :
  match scrape_property Example.empty_heading_site Example.static_cfg
          (Example.L "7") new_scraper,
        visit Example.empty_heading_site Example.static_cfg (Example.L "7") new_scraper
  with
  | (Ret d, _), (Ret _, self') =>
      item d "title" = PyStr "" /\ item d "title" <> PyNone /\ properties self' = []
  | _, _ => False
  end.
Proof. vm_compute. split; [reflexivity|]. split; [discriminate|reflexivity]. Qed.

(** C7 (amended): [visit] appends the record that [scrape_property]
    returns for the link if and only if its title or its description is a
    text that is not empty (neither null nor the empty string); otherwise the
    collection stays as it was. *)
Theorem record_accepted_iff_text (w : world) (cfg : config) (link : string)
    (self : scraper) :
  exists d s1 s2,
    scrape_property w cfg link self = (Ret d, s1) /\
    visit w cfg link self = (Ret tt, s2) /\
    properties s2 =
      if has_text (item d "title") || has_text (item d "description")
      then properties self ++ [d]
      else properties self.
Proof.
  destruct (visit_run w cfg link self) as (d & s1 & Hrun & Htext & [Hp _] & Hvisit).
  exists d, s1. eexists. split; [done|]. split; [exact Hvisit|].
  rewrite <- (truthy_has_text d Htext).
  destruct (truthy (item d "title") || truthy (item d "description")); simpl; by rewrite Hp.
Qed.

(** ** C2 and C8: the session *)

Lemma session_fails_spec (w : world) (cfg : config) (seeds : list string) (self : scraper) :
  session_fails w cfg seeds self = true <->
  seeds <> [] /\ use_selenium cfg = true /\ driver self = None /\
  launch_browser w (clock self) <> Launched.
Proof.
  unfold session_fails.
  destruct (use_selenium cfg), seeds, (driver self), (launch_browser w (clock self));
    simpl; split; try done; intros (? & ? & ? & ?); done.
Qed.

(** C2, as stated, where the browser cannot be started: the crawl raises
    and returns nothing. *)
Lemma session_failure_raises :
  match scrape_multiple_pages Example.no_browser_site Example.rendered_cfg
          [Example.new_york; Example.chicago] 10000 new_scraper with
  | (Raise WebDriverException, _) => True
  | _ => False
  end.
Proof. by vm_compute. Qed.

(** C2 (amended): if the session initialization fails during a crawl, the
    exception leaves [scrape_multiple_pages]: the crawl halts, nothing is
    returned to the caller, and the records accumulated before stay in
    [self.properties]; in every other case the crawl returns its records. *)
Theorem session_failure_escapes (w : world) (cfg : config) (search_urls : list string)
    (max_properties : Z) (self : scraper) :
  if session_fails w cfg search_urls self then
    exists self',
      scrape_multiple_pages w cfg search_urls max_properties self
      = (Raise WebDriverException, self') /\
      properties self' = properties self
  else
    exists df self',
      scrape_multiple_pages w cfg search_urls max_properties self = (Ret df, self') /\
      df = properties self'.
Proof.
  rewrite scrape_multiple_pages_run, discover_run.
  pose proof (collect_links_outcome w cfg search_urls max_properties [] self) as Ho.
  destruct (collect_links_only_requests w cfg search_urls max_properties [] self) as [Hp _].
  destruct (collect_links w cfg search_urls max_properties [] self) as [[l|e] s1];
    cbn [fst snd] in *.
  - destruct (session_fails w cfg search_urls self) eqn:Hf.
    + apply session_fails_spec in Hf as (Hs & Hsel & Hd & Hl). by destruct Hl; apply Ho.
    + by eexists _, _.
  - destruct Ho as (-> & Ho). apply session_fails_spec in Ho as ->. by exists s1.
Qed.
Lemma close_driver_closes (self : scraper) : driver (snd (_close_driver self)) = None.
Proof. rewrite close_driver_run. cbn [snd]. by destruct (driver self) eqn:Hd. Qed.




(** ** C6: the links to visit *)

Lemma slice_to_NoDup (n : Z) (l : list string) : NoDup l -> NoDup (slice_to n l).
Proof.
  intros Hl. unfold slice_to.
  destruct (0 <=? n); exact (sublist_NoDup _ l Hl (sublist_take _ _)).
Qed.

Lemma discover_NoDup (w : world) (cfg : config) (seeds : list string) (cap : Z)
    (self : scraper) (links : list string) (self' : scraper) :
  python_set w -> discover w cfg seeds cap self = (Ret links, self') -> NoDup links.
Proof.
  intros Hset. rewrite discover_run.
  destruct (collect_links w cfg seeds cap [] self) as [[l|e] s1]; [|done].
  intros [= <- _]. apply slice_to_NoDup, Hset.
Qed.

Lemma two_seed_links (order : list string -> list string) (cap : Z) :
  4 <= cap ->
  fst (collect_links (Example.two_seed_site order) Example.static_cfg
         [Example.new_york; Example.chicago] cap [] new_scraper)
  = Ret [Example.L "1"; Example.L "2"; Example.L "3"; Example.L "2"; Example.L "4"].
Proof.
  intros Hcap. cbn [collect_links]. unfold SE.bind.
  assert (scrape_search_page (Example.two_seed_site order) Example.static_cfg
            Example.new_york new_scraper
          = (Ret [Example.L "1"; Example.L "2"; Example.L "3"], tick new_scraper)) as ->
    by (vm_compute; reflexivity).
  unfold len_ge. cbn [app length].
  destruct (cap <=? Z.of_nat 3) eqn:H3; [apply Z.leb_le in H3; lia|].
  assert (scrape_search_page (Example.two_seed_site order) Example.static_cfg
            Example.chicago (tick new_scraper)
          = (Ret [Example.L "2"; Example.L "4"], tick (tick new_scraper))) as ->
    by (vm_compute; reflexivity).
  cbn [app length]. by destruct (cap <=? Z.of_nat 5).
Qed.
Lemma two_seed_site_python_set : python_set (Example.two_seed_site remove_dups).
Proof.
  intros l. simpl. split; [apply NoDup_remove_dups|].
  intros x. apply elem_of_remove_dups.
Qed.

(** C6: whatever the search pages answer and in whatever order Python
    lists a set, the links that the discovery phase hands on hold no URL
    twice; and two search pages that list L1, L2, L3 and L2, L4 give exactly
    L1, L2, L3, L4 under any maximum of at least four. *)
Theorem link_set_no_duplicates :
  (forall w cfg search_urls max_properties self links self',
      python_set w ->
      discover w cfg search_urls max_properties self = (Ret links, self') ->
      NoDup links) /\
  (forall order max_properties,
      python_set (Example.two_seed_site order) -> 4 <= max_properties ->
      match discover (Example.two_seed_site order) Example.static_cfg
              [Example.new_york; Example.chicago] max_properties new_scraper with
      | (Ret links, _) =>
          links ≡ₚ [Example.L "1"; Example.L "2"; Example.L "3"; Example.L "4"]
      | (Raise _, _) => False
      end).
Proof.
  split; [exact discover_NoDup|].
  intros order cap Hset Hcap. rewrite discover_run.
  pose proof (two_seed_links order cap Hcap) as Hall.
  destruct (collect_links _ _ _ _ _ _) as [[all_links|e] s1]; [|done].
  cbn [fst] in Hall. injection Hall as ->.
  destruct (Hset [Example.L "1"; Example.L "2"; Example.L "3"; Example.L "2"; Example.L "4"])
    as [Hnd Hin].
  cbn [set_order Example.two_seed_site] in *.
  set (all_links := [Example.L "1"; Example.L "2"; Example.L "3"; Example.L "2";
                     Example.L "4"]) in *.
  assert (order all_links
          ≡ₚ [Example.L "1"; Example.L "2"; Example.L "3"; Example.L "4"]) as Hperm.
  { apply NoDup_Permutation; [done|apply (bool_decide_unpack _); by vm_compute|].
    intros x. rewrite Hin. subst all_links. rewrite !elem_of_cons. tauto. }
  unfold slice_to. destruct (0 <=? cap) eqn:H0; [|apply Z.leb_gt in H0; lia].
  rewrite take_ge; [done|]. rewrite (Permutation_length Hperm). simpl. lia.
Qed.

Lemma link_set_no_duplicates_witness :
  match discover (Example.two_seed_site remove_dups) Example.static_cfg
          [Example.new_york; Example.chicago] 10000 new_scraper with
  | (Ret links, _) =>
      NoDup links /\
      links ≡ₚ [Example.L "1"; Example.L "2"; Example.L "3"; Example.L "4"]
  | (Raise _, _) => False
  end.
Proof.
  pose proof (proj1 link_set_no_duplicates (Example.two_seed_site remove_dups)
                Example.static_cfg [Example.new_york; Example.chicago] 10000 new_scraper)
    as H1.
  pose proof (proj2 link_set_no_duplicates remove_dups 10000
                two_seed_site_python_set ltac:(lia)) as H2.
  destruct (discover _ _ _ _ _) as [[links|e] self']; [|exact H2].
  split; [|exact H2].
  exact (H1 links self' two_seed_site_python_set eq_refl).
Defined.
(** * Further properties of the scraper *)

(** ** The collection that a crawl builds *)

Lemma scrape_property_url (w : world) (cfg : config) (url : string) (self : scraper)
    (d : dict) (s1 : scraper) :
  scrape_property w cfg url self = (Ret d, s1) -> item d "url" = PyStr url.
Proof.
  rewrite scrape_property_run.
  destruct (acquire w cfg url self) as [[pg|e] s']; intros [= <- _].
  - unfold item. by rewrite (proj2 (extract_source_url cfg url pg)).
  - by vm_compute.
Qed.

Lemma visit_all_news (w : world) (cfg : config) (links : list string) (cap : Z)
    (self : scraper) :
  exists news,
    properties (snd (visit_all w cfg links cap self)) = properties self ++ news /\
    Forall (fun d => accepted d = true) news /\
    urls news `sublist_of` (PyStr <$> links).
Proof.
  revert self. induction links as [|link rest IH]; intros self.
  - exists []. simpl. rewrite app_nil_r. repeat split; constructor.
  - rewrite visit_all_cons. destruct (len_ge (properties self) cap).
    + exists []. simpl. rewrite app_nil_r. split; [done|]. split; [constructor|].
      apply sublist_nil_l.
    + destruct (visit_run w cfg link self) as (d & s1 & Hrun & Htext & [Hp _] & ->).
      pose proof (scrape_property_url w cfg link self d s1 Hrun) as Hurl.
      rewrite (truthy_has_text d Htext). fold (accepted d).
      destruct (accepted d) eqn:Hacc.
      * destruct (IH (append_property d s1)) as (news & Hn & Hall & Hsub).
        exists (d :: news). rewrite Hn. simpl. rewrite Hp, <- app_assoc. simpl.
        split; [done|]. split; [by constructor|].
        unfold urls in *. simpl. rewrite Hurl. by apply sublist_skip.
      * destruct (IH s1) as (news & Hn & Hall & Hsub).
        exists news. rewrite Hn, Hp. split; [done|]. split; [done|].
        simpl. by apply sublist_cons.
Qed.

Lemma PyStr_inj : Inj (=) (=) PyStr.
Proof. by intros s1 s2 [= ->]. Qed.

(** X1: [self.properties] is never reset: the data frame that a crawl
    returns starts with the records the scraper held before, and a crawl that
    raises leaves them as they were. *)
Theorem crawl_accumulates (w : world) (cfg : config) (search_urls : list string)
    (max_properties : Z) (self : scraper) :
  match scrape_multiple_pages w cfg search_urls max_properties self with
  | (Ret df, self') =>
      properties self' = df /\
      exists news, df = properties self ++ news /\
                   Forall (fun d => accepted d = true) news
  | (Raise _, self') => properties self' = properties self
  end.
Proof.
  rewrite scrape_multiple_pages_run.
  destruct (discover_only_requests w cfg search_urls max_properties self) as [Hp _].
  destruct (discover w cfg search_urls max_properties self) as [[links|e] s1];
    cbn [snd] in Hp; [|done].
  cbn zeta. split; [done|]. rewrite close_driver_properties.
  destruct (visit_all_news w cfg links max_properties s1) as (news & Hn & Hall & _).
  exists news. by rewrite Hn, Hp.
Qed.

(** X2: a crawl with a new scraper returns only records whose title or
    description is a text that is not empty, each for a different URL, in
    the order of the links that the discovery phase handed on. *)
Theorem crawl_records_distinct (w : world) (cfg : config) (search_urls : list string)
    (max_properties : Z) :
  python_set w ->
  match discover w cfg search_urls max_properties new_scraper,
        scrape_multiple_pages w cfg search_urls max_properties new_scraper with
  | (Ret links, _), (Ret df, _) =>
      urls df `sublist_of` (PyStr <$> links) /\ NoDup (urls df) /\
      Forall (fun d => accepted d = true) df
  | (Raise _, _), (Raise _, _) => True
  | _, _ => False
  end.
Proof.
  intros Hset. rewrite scrape_multiple_pages_run.
  destruct (discover_only_requests w cfg search_urls max_properties new_scraper) as [Hp _].
  destruct (discover w cfg search_urls max_properties new_scraper) as [[links|e] s1] eqn:Hd;
    cbn [snd] in Hp; [|done].
  cbn zeta. rewrite close_driver_properties.
  destruct (visit_all_news w cfg links max_properties s1) as (news & Hn & Hall & Hsub).
  rewrite Hn, Hp. simpl. split; [done|]. split; [|done].
  eapply sublist_NoDup; [|exact Hsub].
  pose proof PyStr_inj as Hinj.
  apply (NoDup_fmap_2 PyStr). by apply (discover_NoDup w cfg _ _ _ _ _ Hset Hd).
Qed.

Lemma crawl_records_distinct_witness :
  match discover (Example.two_seed_site remove_dups) Example.static_cfg
          [Example.new_york; Example.chicago] 3 new_scraper,
        scrape_multiple_pages (Example.two_seed_site remove_dups) Example.static_cfg
          [Example.new_york; Example.chicago] 3 new_scraper with
  | (Ret links, _), (Ret df, _) =>
      urls df `sublist_of` (PyStr <$> links) /\ NoDup (urls df) /\
      Forall (fun d => accepted d = true) df
  | (Raise _, _), (Raise _, _) => True
  | _, _ => False
  end.
Proof.
  exact (crawl_records_distinct (Example.two_seed_site remove_dups) Example.static_cfg
           [Example.new_york; Example.chicago] 3 two_seed_site_python_set).
Defined.
(** ** The browser session *)

Lemma close_driver_started (self : scraper) :
  started (snd (_close_driver self)) = started self.
Proof. rewrite close_driver_run. cbn [snd]. by destruct (driver self). Qed.

Lemma new_scraper_sessions_ok : sessions_ok new_scraper.
Proof.
  unfold sessions_ok. simpl. split; [done|]. split; [apply NoDup_nil_2|apply Forall_nil_2].
Qed.

Lemma open_sessions_bound (self : scraper) :
  sessions_ok self -> quit_log self = [] -> (length (started self) <= 1)%nat.
Proof.
  intros (Hs & _) Hq. rewrite Hs, Hq, app_nil_r. destruct (driver self); simpl; lia.
Qed.

(** X3: the session is reused: a crawl with a new scraper starts at most
    one browser, however many search and detail pages it loads, and whether
    it returns or raises. *)
Theorem crawl_starts_one_browser (w : world) (cfg : config) (search_urls : list string)
    (max_properties : Z) :
  (length (started (snd (scrape_multiple_pages w cfg search_urls max_properties
                           new_scraper))) <= 1)%nat.
Proof.
  rewrite scrape_multiple_pages_run.
  destruct (discover_only_requests w cfg search_urls max_properties new_scraper)
    as (_ & Hq & _ & Hs).
  specialize (Hs new_scraper_sessions_ok).
  destruct (discover w cfg search_urls max_properties new_scraper) as [[links|e] s1];
    cbn [snd] in *.
  - rewrite close_driver_started.
    destruct (visit_all_spec w cfg links max_properties s1) as (_ & (Hq' & _ & Hs') & _).
    apply open_sessions_bound; [by apply Hs'|]. by rewrite Hq', Hq.
  - by apply open_sessions_bound.
Qed.

Lemma close_driver_quit_log (self : scraper) :
  quit_log (snd (_close_driver self)) = option_list (driver self) ++ quit_log self.
Proof. rewrite close_driver_run. cbn [snd]. by destruct (driver self). Qed.

(** X4: [_close_driver] is idempotent: after it no session is open, a
    second call changes nothing, and the session that was open is quit
    once. *)
Theorem close_driver_idempotent (self : scraper) :
  let self' := snd (_close_driver self) in
  driver self' = None /\
  _close_driver self' = (Ret tt, self') /\
  quit_log self' = option_list (driver self) ++ quit_log self.
Proof.
  cbn zeta. rewrite !close_driver_run. cbn [snd].
  destruct (driver self) as [h|] eqn:Hd; simpl; [done|]. by rewrite Hd.
Qed.

(** ** The static strategy *)

Lemma static_search_page_run (w : world) (cfg : config) (url : string) (self : scraper) :
  use_selenium cfg = false ->
  scrape_search_page w cfg url self =
  (Ret (match static_search w (clock self) url with
        | Some hrefs => static_links cfg hrefs
        | None => []
        end), tick self).
Proof. intros Hs. rewrite scrape_search_page_run. by rewrite Hs. Qed.

Lemma static_collect_links (w : world) (cfg : config) (seeds : list string) (cap : Z)
    (acc : list string) (self : scraper) :
  use_selenium cfg = false ->
  let r := collect_links w cfg seeds cap acc self in
  (exists links, fst r = Ret links) /\
  driver (snd r) = driver self /\ started (snd r) = started self.
Proof.
  intros Hs. revert acc self. induction seeds as [|seed rest IH]; intros acc self.
  - cbn. eauto.
  - cbn zeta. cbn [collect_links]. unfold SE.bind.
    rewrite static_search_page_run by done.
    destruct (len_ge _ _); [cbn; eauto|]. apply (IH _ (tick self)).
Qed.

Lemma static_acquire (w : world) (cfg : config) (url : string) (self : scraper) :
  use_selenium cfg = false ->
  driver (snd (acquire w cfg url self)) = driver self /\
  started (snd (acquire w cfg url self)) = started self.
Proof.
  intros Hs. unfold acquire, SE.bind, ask. rewrite Hs.
  by destruct (static_detail w (clock self) url).
Qed.

Lemma static_visit_all (w : world) (cfg : config) (links : list string) (cap : Z)
    (self : scraper) :
  use_selenium cfg = false ->
  driver (snd (visit_all w cfg links cap self)) = driver self /\
  started (snd (visit_all w cfg links cap self)) = started self.
Proof.
  intros Hs. revert self. induction links as [|link rest IH]; intros self; [done|].
  rewrite visit_all_cons. destruct (len_ge _ _); [done|].
  destruct (visit_run w cfg link self) as (d & s1 & Hrun & _ & _ & ->).
  assert (driver s1 = driver self /\ started s1 = started self) as [Hd Hst].
  { pose proof (static_acquire w cfg link self Hs) as Ha.
    rewrite scrape_property_run in Hrun.
    destruct (acquire w cfg link self) as [[pg|e] s']; injection Hrun as _ <-; exact Ha. }
  destruct (truthy _ || truthy _).
  - destruct (IH (append_property d s1)) as [-> ->]. by simpl.
  - by destruct (IH s1) as [-> ->].
Qed.

(** X5: with the static strategy a crawl never raises and never starts a
    browser: it returns its records and the only thing it does to the
    session is to quit one that was open before. *)
Theorem static_crawl_returns (w : world) (cfg : config) (search_urls : list string)
    (max_properties : Z) (self : scraper) :
  use_selenium cfg = false ->
  exists df self',
    scrape_multiple_pages w cfg search_urls max_properties self = (Ret df, self') /\
    started self' = started self /\ driver self' = None /\
    quit_log self' = option_list (driver self) ++ quit_log self.
Proof.
  intros Hs. rewrite scrape_multiple_pages_run, discover_run.
  destruct (static_collect_links w cfg search_urls max_properties [] self Hs)
    as ([links Hl] & Hd & Hst).
  pose proof (collect_links_only_requests w cfg search_urls max_properties [] self)
    as (_ & Hq & _).
  destruct (collect_links w cfg search_urls max_properties [] self) as [[l|e] s1];
    cbn [fst snd] in *; [|done].
  eexists _, _. split; [reflexivity|].
  set (links' := slice_to max_properties (set_order w l)).
  destruct (static_visit_all w cfg links' max_properties s1 Hs) as [Hd2 Hst2].
  destruct (visit_all_spec w cfg links' max_properties s1) as (_ & (Hq2 & _) & _).
  rewrite close_driver_started, close_driver_closes, close_driver_quit_log, Hst2, Hst.
  split; [done|]. split; [done|]. by rewrite Hd2, Hd, Hq2, Hq.
Qed.

Lemma static_crawl_returns_witness :
  exists df self',
    scrape_multiple_pages (Example.two_seed_site remove_dups) Example.static_cfg
      [Example.new_york] 10 new_scraper = (Ret df, self') /\
    started self' = started new_scraper /\ driver self' = None /\
    quit_log self' = option_list (driver new_scraper) ++ quit_log new_scraper.
Proof.
  exact (static_crawl_returns (Example.two_seed_site remove_dups) Example.static_cfg
           [Example.new_york] 10 new_scraper eq_refl).
Defined.
(** ** The maximum *)

Lemma visit_all_full (w : world) (cfg : config) (links : list string) (cap : Z)
    (self : scraper) :
  cap <= Z.of_nat (length (properties self)) ->
  visit_all w cfg links cap self = (Ret tt, self).
Proof.
  intros Hcap. destruct links as [|link rest]; [done|].
  rewrite visit_all_cons. unfold len_ge.
  by destruct (cap <=? Z.of_nat (length (properties self))) eqn:H; [|apply Z.leb_gt in H; lia].
Qed.

(** X6: when the scraper already holds [max_properties] records (a maximum
    of zero or less included) the crawl loads the search pages and no detail
    page: it closes the session and returns the records it held. *)
Theorem crawl_at_maximum (w : world) (cfg : config) (search_urls : list string)
    (max_properties : Z) (self : scraper) :
  max_properties <= Z.of_nat (length (properties self)) ->
  scrape_multiple_pages w cfg search_urls max_properties self =
  match discover w cfg search_urls max_properties self with
  | (Ret _, s1) => (Ret (properties self), snd (_close_driver s1))
  | (Raise e, s1) => (Raise e, s1)
  end.
Proof.
  intros Hcap. rewrite scrape_multiple_pages_run.
  destruct (discover_only_requests w cfg search_urls max_properties self) as [Hp _].
  destruct (discover w cfg search_urls max_properties self) as [[links|e] s1];
    cbn [snd] in Hp; [|done].
  cbn zeta. rewrite visit_all_full by (by rewrite Hp). cbn [snd].
  by rewrite close_driver_properties, Hp.
Qed.

Lemma crawl_at_maximum_witness :
  scrape_multiple_pages (Example.two_seed_site remove_dups) Example.static_cfg
    [Example.new_york; Example.chicago] 0 new_scraper =
  match discover (Example.two_seed_site remove_dups) Example.static_cfg
          [Example.new_york; Example.chicago] 0 new_scraper with
  | (Ret _, s1) => (Ret (properties new_scraper), snd (_close_driver s1))
  | (Raise e, s1) => (Raise e, s1)
  end.
Proof.
  apply (crawl_at_maximum (Example.two_seed_site remove_dups) Example.static_cfg
           [Example.new_york; Example.chicago] 0 new_scraper).
  simpl. lia.
Defined.

(** ** The fields of a record *)

(** X7: [scrape_property] never fills [property_type], [year_built],
    [parking_spaces] and [listing_date]: they are [None] in every record,
    whatever the page holds. *)
Theorem fields_never_assigned (w : world) (cfg : config) (url : string) (self : scraper) :
  exists d self',
    scrape_property w cfg url self = (Ret d, self') /\
    Forall (fun k => d !! k = Some PyNone) never_assigned.
Proof.
  destruct (scrape_property_returns w cfg url self) as (d & self' & Hrun & Hd).
  exists d, self'. split; [done|].
  unfold never_assigned. destruct Hd as [->|[pg ->]].
  - repeat (apply Forall_cons; split); try (by apply Forall_nil); by vm_compute.
  - repeat (apply Forall_cons; split); try (by apply Forall_nil);
      (rewrite (writes_lookup_other extracted_keys _ _ _ (writes_extract cfg url pg))
         by solve_notin); by vm_compute.
Qed.
(** ** The kinds of the fields *)

Lemma typed_insert (k : string) (v : pyval) (d : dict) :
  well_typed (k, v) -> typed d -> typed (<[k := v]> d).
Proof.
  intros [Ht Hn] Hd k'. destruct (decide (k = k')) as [<-|Hk].
  - rewrite item_insert_eq. done.
  - rewrite item_insert_ne by done. apply Hd.
Qed.

Lemma typed_apply_updates (upd : list (string * pyval)) (d : dict) :
  Forall well_typed upd -> typed d -> typed (apply_updates upd d).
Proof.
  intros Hupd. revert d. induction Hupd as [|[k v] upd Hkv _ IH]; intros d Hd; [done|].
  simpl. apply IH. by apply typed_insert.
Qed.

Section AssignsTyped.

Context {A B : Type}.

Lemma typed_ret (a : A) : assigns_typed (SE.ret a).
Proof. intros d. by exists []. Qed.

Lemma typed_raise (e : exn) : assigns_typed (@SE.raise dict A e).
Proof. intros d. by exists []. Qed.

Lemma typed_bind (m : E A) (k : A -> E B) :
  assigns_typed m -> (forall a, assigns_typed (k a)) -> assigns_typed (SE.bind m k).
Proof.
  intros Hm Hk d. destruct (Hm d) as (u1 & Hu1 & E1). unfold SE.bind.
  destruct (m d) as [[a|e] d1]; simpl in *; subst d1.
  - destruct (Hk a (apply_updates u1 d)) as (u2 & Hu2 & E2).
    exists (u1 ++ u2). split; [by apply Forall_app|].
    by rewrite E2, apply_updates_app.
  - by exists u1.
Qed.

Lemma typed_lift_bind (o : outcome A) (k : A -> E B) :
  (forall a, o = Ret a -> assigns_typed (k a)) -> assigns_typed (SE.bind (SE.lift o) k).
Proof.
  intros Hk d. unfold SE.bind, SE.lift. destruct o as [a|e]; [by apply Hk|by exists []].
Qed.

Lemma typed_get_bind (k : dict -> E B) :
  (forall d, assigns_typed (k d)) -> assigns_typed (SE.bind SE.get k).
Proof. intros Hk d. apply (Hk d d). Qed.

Lemma typed_try_except (m h : E A) :
  assigns_typed m -> assigns_typed h -> assigns_typed (SE.try_except m h).
Proof.
  intros Hm Hh d. destruct (Hm d) as (u1 & Hu1 & E1). unfold SE.try_except.
  destruct (m d) as [[a|e] d1]; simpl in *; subst d1.
  - by exists u1.
  - destruct (Hh (apply_updates u1 d)) as (u2 & Hu2 & E2).
    exists (u1 ++ u2). split; [by apply Forall_app|].
    by rewrite E2, apply_updates_app.
Qed.

End AssignsTyped.

Lemma typed_setitem (k : string) (v : pyval) :
  well_typed (k, v) -> assigns_typed (setitem k v).
Proof. intros Hkv d. exists [(k, v)]. split; [by constructor|done]. Qed.

Ltac solve_well_typed :=
  let Hk := fresh "Hk" in
  split; simpl; intros Hk; first [reflexivity | exfalso; revert Hk; solve_notin].

Ltac typed_step :=
  lazymatch goal with
  | |- assigns_typed (SE.ret _) => apply typed_ret
  | |- assigns_typed (SE.raise _) => apply typed_raise
  | |- assigns_typed (setitem _ _) => apply typed_setitem; solve_well_typed
  | |- assigns_typed (find_element _) => unfold find_element
  | |- assigns_typed (SE.bind SE.get _) => apply typed_get_bind; intros ?
  | |- assigns_typed (SE.bind (SE.lift _) _) => apply typed_lift_bind; intros ? ?
  | |- assigns_typed (SE.bind _ _) => apply typed_bind; [|intros ?]
  | |- assigns_typed (SE.try_except _ _) => apply typed_try_except
  | |- assigns_typed (SE.try_pass _) => unfold SE.try_pass
  | |- assigns_typed (match ?x with _ => _ end) => destruct x eqn:?
  end.

Lemma py_truediv_number (a b q : pyval) : py_truediv a b = Ret q -> exists x, q = PyFloat x.
Proof.
  destruct a as [| |x], b as [| |y]; try done. simpl.
  destruct (Float.eqb y Float.zero); [done|]. intros [= <-]. by eexists.
Qed.

Lemma typed_set_price (t : string) : assigns_typed (set_price t).
Proof. unfold set_price. repeat typed_step. Qed.

Lemma typed_set_square_feet (t : string) : assigns_typed (set_square_feet t).
Proof.
  unfold set_square_feet. repeat typed_step.
  match goal with H : py_truediv _ _ = Ret _ |- _ =>
    apply py_truediv_number in H as [x ->] end.
  apply typed_setitem. solve_well_typed.
Qed.

Lemma typed_set_location (t : string) : assigns_typed (set_location t).
Proof.
  unfold set_location. destruct (extract_city_state (Some t)) as [[c|] [s|]];
    repeat typed_step.
Qed.

Lemma typed_meta_pass (metas : list meta_tag) : assigns_typed (meta_pass metas).
Proof.
  induction metas as [|meta metas IH]; simpl; [apply typed_ret|].
  apply typed_bind; [|done]. unfold meta_step. repeat typed_step.
Qed.

Lemma typed_property_id_pass (url : string) : assigns_typed (property_id_pass url).
Proof. unfold property_id_pass. repeat typed_step. Qed.

Ltac typed_pass :=
  lazymatch goal with
  | |- assigns_typed (set_price _) => apply typed_set_price
  | |- assigns_typed (set_square_feet _) => apply typed_set_square_feet
  | |- assigns_typed (set_location _) => apply typed_set_location
  | |- assigns_typed (meta_pass _) => apply typed_meta_pass
  | |- assigns_typed (property_id_pass _) => apply typed_property_id_pass
  | |- _ => typed_step
  end.

Lemma typed_extract (cfg : config) (url : string) (pg : page) :
  assigns_typed (extract cfg url pg).
Proof.
  unfold extract. apply typed_bind; [|intros _; repeat typed_pass].
  destruct (use_selenium cfg); [unfold rendered_fields|unfold static_fields];
    repeat typed_pass.
Qed.

Lemma typed_new (url : string) : typed (new_property_data url).
Proof.
  intros k. split; intros Hk.
  - unfold text_keys in Hk.
    repeat (apply elem_of_cons in Hk as [->|Hk]; [by vm_compute|]).
    by apply elem_of_nil in Hk.
  - unfold number_keys in Hk.
    repeat (apply elem_of_cons in Hk as [->|Hk]; [by vm_compute|]).
    by apply elem_of_nil in Hk.
Qed.

(** X8: in every record that [scrape_property] returns the text fields
    (source, url, property_id, title, description, city, state, address)
    hold [None] or a string, and price, price_per_sqft and square_feet hold
    [None] or a number. *)
Theorem record_fields_typed (w : world) (cfg : config) (url : string) (self : scraper) :
  exists d self',
    scrape_property w cfg url self = (Ret d, self') /\
    Forall (fun k => is_text (item d k) = true) text_keys /\
    Forall (fun k => is_number (item d k) = true) number_keys.
Proof.
  destruct (scrape_property_returns w cfg url self) as (d & self' & Hrun & Hd).
  exists d, self'. split; [done|].
  assert (typed d) as Ht.
  { destruct Hd as [->|[pg ->]]; [apply typed_new|].
    destruct (typed_extract cfg url pg (new_property_data url)) as (upd & Hupd & ->).
    apply typed_apply_updates; [done|apply typed_new]. }
  split; apply Forall_forall; intros k Hk; by apply Ht.
Qed.
(** ** The two strategies *)

Lemma step_agree {B} (e : option string) (f : string -> E unit) (K1 K2 : unit -> E B)
    (d : dict) :
  (forall t, e = Some t -> fst (f t d) = Ret tt) ->
  (forall d', d' = snd ((match e with Some t => f t | None => SE.ret tt end) d) ->
              K1 tt d' = K2 tt d') ->
  SE.bind (SE.try_pass (SE.bind (find_element e) f)) K1 d =
  SE.bind (match e with Some t => f t | None => SE.ret tt end) K2 d.
Proof.
  intros Hret HK. destruct e as [t|].
  - specialize (Hret t eq_refl). specialize (HK (snd (f t d)) eq_refl).
    unfold SE.bind, SE.try_pass, SE.try_except, find_element, SE.ret in *.
    destruct (f t d) as [[[]|e] d1]; [exact HK|done].
  - apply (HK d). done.
Qed.

Lemma last_step_agree (e : option string) (f : string -> E unit) (d : dict) :
  (forall t, e = Some t -> fst (f t d) = Ret tt) ->
  SE.bind (SE.try_pass (SE.bind (find_element e) f)) (fun _ => SE.ret tt) d =
  (match e with Some t => f t | None => SE.ret tt end) d.
Proof.
  intros Hret. destruct e as [t|]; [|done]. specialize (Hret t eq_refl).
  unfold SE.bind, SE.try_pass, SE.try_except, find_element, SE.ret in *.
  by destruct (f t d) as [[[]|e] d1].
Qed.

Lemma fields_agree (pg : page) (d : dict) :
  no_area_yet d -> page_source_ok pg = true ->
  rendered_fields pg d = static_fields pg d.
Proof.
  intros H0 Hok. unfold rendered_fields, static_fields. rewrite Hok.
  apply step_agree; [done|]. intros d1 Hd1.
  assert (no_area_yet d1) as H1.
  { subst d1. destruct (title_elem pg); [|done].
    apply (no_area_yet_frame ["title"]);
      [by apply writes_setitem; solve_elem|..|done]; solve_notin. }
  apply step_agree; [done|]. intros d2 Hd2.
  assert (no_area_yet d2) as H2.
  { subst d2. destruct (description_elem pg); [|done].
    apply (no_area_yet_frame ["description"]);
      [by apply writes_setitem; solve_elem|..|done]; solve_notin. }
  apply step_agree; [intros t _; by rewrite set_price_run|]. intros d3 Hd3.
  assert (no_area_yet d3) as H3.
  { subst d3. destruct (price_elem pg); [|done]. by apply no_area_yet_set_price. }
  apply step_agree.
  { intros t _. destruct (set_square_feet_run t d3) as (y & _ & ->); [apply H3|done]. }
  intros d4 Hd4. apply last_step_agree. intros t _. apply set_location_ret.
Qed.

(** X9: the two strategies are interchangeable on the same page: when the
    page source is available, the rendered extraction (each field in its own
    [try]) and the static one (no [try]) give the same record. *)
Theorem strategies_agree (rendered static : config) (url : string) (pg : page) :
  use_selenium rendered = true -> use_selenium static = false ->
  page_source_ok pg = true ->
  extract rendered url pg (new_property_data url) =
  extract static url pg (new_property_data url).
Proof.
  intros Hr Hs Hok. unfold extract. rewrite Hr, Hs. unfold SE.bind at 1 3.
  by rewrite (fields_agree pg _ (no_area_yet_new url) Hok).
Qed.

Lemma strategies_agree_witness :
  extract Example.rendered_cfg (Example.L "7") Example.free_listing
    (new_property_data (Example.L "7")) =
  extract Example.static_cfg (Example.L "7") Example.free_listing
    (new_property_data (Example.L "7")).
Proof.
  exact (strategies_agree Example.rendered_cfg Example.static_cfg (Example.L "7")
           Example.free_listing eq_refl eq_refl eq_refl).
Defined.
(** ** The links of a search page *)

Lemma add_new_fold {A} (link : A -> option string) (l : list A) (acc : list string) :
  NoDup acc ->
  let r := fold_left (add_new link) l acc in
  NoDup r /\
  (forall x, x ∈ r <-> x ∈ acc \/ Some x ∈ link <$> l) /\
  exists rest, r = acc ++ rest /\ rest `sublist_of` omap link l.
Proof.
  revert acc. induction l as [|a l IH]; intros acc Hacc; cbn zeta.
  - simpl. split; [done|]. split.
    + intros x. rewrite elem_of_nil. tauto.
    + exists []. by rewrite app_nil_r.
  - cbn [fold_left fmap list_fmap omap list_omap]. unfold add_new at 2 4 6.
    destruct (link a) as [y|] eqn:Hy.
    + destruct (bool_decide (y ∈ acc)) eqn:Hin.
      * apply bool_decide_eq_true in Hin.
        destruct (IH acc Hacc) as (Hnd & Hmem & rest & Hrest & Hsub).
        split; [done|]. split.
        -- intros x. rewrite Hmem, elem_of_cons.
           split; [tauto|]. intros [Hx|[Hx|Hx]]; [tauto| |tauto].
           injection Hx as ->. tauto.
        -- exists rest. split; [done|]. by apply sublist_cons.
      * apply bool_decide_eq_false in Hin.
        assert (NoDup (acc ++ [y])) as Hacc'.
        { apply NoDup_app. split; [done|]. split; [|apply NoDup_singleton].
          intros x Hx ->%list_elem_of_singleton. done. }
        destruct (IH (acc ++ [y]) Hacc') as (Hnd & Hmem & rest & Hrest & Hsub).
        split; [done|]. split.
        -- intros x. rewrite Hmem, elem_of_app, list_elem_of_singleton, elem_of_cons.
           split.
           ++ intros [[Hx|Hx]|Hx]; [tauto| |tauto]. subst x. tauto.
           ++ intros [Hx|[Hx|Hx]]; [tauto| |tauto]. injection Hx as ->. tauto.
        -- exists (y :: rest). rewrite Hrest, <- app_assoc. split; [done|].
           by apply sublist_skip.
    + destruct (IH acc Hacc) as (Hnd & Hmem & rest & Hrest & Hsub).
      split; [done|]. split; [|by exists rest].
      intros x. rewrite Hmem, elem_of_cons. split; [tauto|].
      intros [?|[?|?]]; [tauto|done|tauto].
Qed.

Lemma fold_left_ext' {A B} (f g : B -> A -> B) (l : list A) (b : B) :
  (forall b a, f b a = g b a) -> fold_left f l b = fold_left g l b.
Proof.
  intros Hfg. revert b. induction l as [|a l IH]; intros b; [done|].
  simpl. by rewrite Hfg, IH.
Qed.

Lemma rendered_links_add_new (hrefs : list (option string)) :
  rendered_links hrefs = fold_left (add_new rendered_link) hrefs [].
Proof.
  apply fold_left_ext'. intros acc [href|]; [|done].
  unfold add_new, rendered_link. destruct (String.eqb href ""); [done|]. simpl.
  by destruct (bool_decide (href ∈ acc)).
Qed.

Lemma static_links_add_new (cfg : config) (hrefs : list string) :
  static_links cfg hrefs = fold_left (add_new (static_link cfg)) hrefs [].
Proof.
  apply fold_left_ext'. intros acc href. unfold add_new, static_link.
  destruct (_ || _); [|done].
  by destruct (bool_decide (_ ∈ acc)).
Qed.

(** The order of the links: [x] stands before [y] only if a candidate that
    gives [x] comes before every candidate that gives [y]. *)
Lemma add_new_order {A} (link : A -> option string) (l : list A) (acc : list string)
    (i j : nat) (x y : string) :
  NoDup acc -> (i < j)%nat ->
  fold_left (add_new link) l acc !! i = Some x ->
  fold_left (add_new link) l acc !! j = Some y ->
  (j < length acc)%nat \/
  ((i < length acc)%nat /\ y ∉ acc) \/
  ((x ∉ acc) /\ (y ∉ acc) /\
   exists p a, l !! p = Some a /\ link a = Some x /\
               forall b, b ∈ take p l -> link b <> Some y).
Proof.
  revert acc. induction l as [|a l IH]; intros acc Hacc Hij Hi Hj.
  - left. simpl in Hj. by apply lookup_lt_Some in Hj.
  - cbn [fold_left] in Hi, Hj. unfold add_new at 2 in Hi. unfold add_new at 2 in Hj.
    destruct (link a) as [z|] eqn:Hz.
    + destruct (bool_decide (z ∈ acc)) eqn:Hin.
      * apply bool_decide_eq_true in Hin.
        destruct (IH acc Hacc Hij Hi Hj) as [H|[H|(Hx & Hy & p & b & Hp & Hb & Hbefore)]];
          [by left|by right; left|].
        right; right. split; [done|]. split; [done|].
        exists (S p), b. split; [done|]. split; [done|].
        intros c [->|Hc]%elem_of_cons; [|by apply Hbefore].
        rewrite Hz. intros [= ->]. done.
      * apply bool_decide_eq_false in Hin.
        assert (NoDup (acc ++ [z])) as Hacc'.
        { apply NoDup_app. split; [done|]. split; [|apply NoDup_singleton].
          intros c Hc ->%list_elem_of_singleton. done. }
        destruct (add_new_fold link l (acc ++ [z]) Hacc') as (_ & _ & rest & Hrest & _).
        cbn zeta in Hrest.
        destruct (IH (acc ++ [z]) Hacc' Hij Hi Hj)
          as [H|[[H Hy]|(Hx & Hy & p & b & Hp & Hb & Hbefore)]].
        -- rewrite length_app in H. simpl in H.
           destruct (decide (j < length acc)%nat) as [Hlt|Hge]; [by left|].
           right; left. split; [lia|].
           assert (j = length acc) as -> by lia.
           rewrite Hrest, <- app_assoc in Hj. rewrite lookup_app_r in Hj by lia.
           rewrite Nat.sub_diag in Hj. injection Hj as <-. done.
        -- rewrite length_app in H. simpl in H.
           assert (y ∉ acc) as Hy' by (intros ?; apply Hy, elem_of_app; by left).
           destruct (decide (i < length acc)%nat) as [Hlt|Hge]; [by right; left|].
           right; right.
           assert (i = length acc) as -> by lia.
           rewrite Hrest, <- app_assoc in Hi. rewrite lookup_app_r in Hi by lia.
           rewrite Nat.sub_diag in Hi. injection Hi as <-.
           split; [done|]. split; [done|].
           exists 0%nat, a. split; [done|]. split; [done|].
           intros c Hc. by apply elem_of_nil in Hc.
        -- right; right.
           split; [intros ?; apply Hx, elem_of_app; by left|].
           split; [intros ?; apply Hy, elem_of_app; by left|].
           exists (S p), b. split; [done|]. split; [done|].
           intros c [->|Hc]%elem_of_cons; [|by apply Hbefore].
           rewrite Hz. intros [= ->]. apply Hy, elem_of_app. right. by left.
    + destruct (IH acc Hacc Hij Hi Hj) as [H|[H|(Hx & Hy & p & b & Hp & Hb & Hbefore)]];
        [by left|by right; left|].
      right; right. split; [done|]. split; [done|].
      exists (S p), b. split; [done|]. split; [done|].
      intros c [->|Hc]%elem_of_cons; [|by apply Hbefore]. by rewrite Hz.
Qed.

(** X10: the links of a rendered search page are the [href] values that are
    neither [None] nor empty, each once, in the order of their first
    occurrence: a link stands before another only if it occurs in the page
    before every occurrence of the other. *)
Theorem rendered_links_spec (hrefs : list (option string)) :
  NoDup (rendered_links hrefs) /\
  (forall x, x ∈ rendered_links hrefs <-> x <> "" /\ Some x ∈ hrefs) /\
  rendered_links hrefs `sublist_of` omap rendered_link hrefs /\
  (forall i j x y,
      (i < j)%nat ->
      rendered_links hrefs !! i = Some x -> rendered_links hrefs !! j = Some y ->
      exists p, hrefs !! p = Some (Some x) /\ Some y ∉ take p hrefs).
Proof.
  rewrite rendered_links_add_new.
  destruct (add_new_fold rendered_link hrefs [] (NoDup_nil_2 (A:=string)))
    as (Hnd & Hmem & rest & Hrest & Hsub).
  cbn zeta in *.
  assert (forall x, x ∈ fold_left (add_new rendered_link) hrefs [] <->
                    x <> "" /\ Some x ∈ hrefs) as Hmem'.
  { intros x. rewrite Hmem, elem_of_nil, list_elem_of_fmap. split.
    - intros [[]|([h|] & Hx & Hin)]; [|done].
      unfold rendered_link in Hx. destruct (String.eqb h "") eqn:He; [done|].
      injection Hx as ->. apply String.eqb_neq in He. done.
    - intros [Hne Hin]. right. exists (Some x). split; [|done].
      unfold rendered_link. apply String.eqb_neq in Hne. by rewrite Hne. }
  split; [done|]. split; [done|]. split; [by rewrite Hrest|].
  intros i j x y Hij Hi Hj.
  assert (y <> "") as Hy by (eapply Hmem', list_elem_of_lookup_2, Hj).
  destruct (add_new_order rendered_link hrefs [] i j x y (NoDup_nil_2 (A:=string))
              Hij Hi Hj) as [H|[[H _]|(_ & _ & p & a & Hp & Ha & Hbefore)]];
    [simpl in H; lia|simpl in H; lia|].
  exists p. split.
  - rewrite Hp. f_equal. destruct a as [h|]; [|done]. unfold rendered_link in Ha.
    destruct (String.eqb h ""); [done|]. by injection Ha as ->.
  - intros Hin. apply (Hbefore _ Hin). unfold rendered_link.
    apply String.eqb_neq in Hy. by rewrite Hy.
Qed.

Lemma rendered_links_spec_witness :
  exists p, [Some "/property/1"; Some "/property/2"; Some "/property/1"] !! p
            = Some (Some "/property/1") /\
            Some "/property/2"
            ∉ take p [Some "/property/1"; Some "/property/2"; Some "/property/1"].
Proof.
  apply (proj2 (proj2 (proj2 (rendered_links_spec
           [Some "/property/1"; Some "/property/2"; Some "/property/1"])))
           0%nat 1%nat "/property/1" "/property/2");
    [lia|reflexivity|reflexivity].
Defined.

Lemma is_prefix_app (p a b : list ascii) :
  Text.is_prefix p a = true -> Text.is_prefix p (a ++ b) = true.
Proof.
  revert a. induction p as [|c p IH]; intros [|c' a]; simpl; try done.
  intros [Hc Hp]%andb_prop. rewrite Hc. by apply IH.
Qed.

Lemma contains_l_app_r (p a b : list ascii) :
  Text.contains_l p b = true -> Text.contains_l p (a ++ b) = true.
Proof.
  intros Hb. induction a as [|c a IH]; [done|].
  cbn [app Text.contains_l]. rewrite IH. apply orb_true_r.
Qed.

(** X11: the links of a static search page are the anchors whose [href]
    holds ["/property/"] or ["/listing/"], made absolute with [base_url]
    unless they start with ["http"], each once, in the order of their first
    occurrence: a link stands before another only if an anchor that gives it
    comes before every anchor that gives the other. *)
Theorem static_links_spec (cfg : config) (hrefs : list string) :
  NoDup (static_links cfg hrefs) /\
  (forall x, x ∈ static_links cfg hrefs <->
             exists href, href ∈ hrefs /\ static_link cfg href = Some x) /\
  static_links cfg hrefs `sublist_of` omap (static_link cfg) hrefs /\
  (forall i j x y,
      (i < j)%nat ->
      static_links cfg hrefs !! i = Some x -> static_links cfg hrefs !! j = Some y ->
      exists p href, hrefs !! p = Some href /\ static_link cfg href = Some x /\
                     forall h, h ∈ take p hrefs -> static_link cfg h <> Some y).
Proof.
  rewrite static_links_add_new.
  destruct (add_new_fold (static_link cfg) hrefs [] (NoDup_nil_2 (A:=string)))
    as (Hnd & Hmem & rest & Hrest & Hsub).
  cbn zeta in *. split; [done|]. split; [|split; [by rewrite Hrest|]].
  - intros x. rewrite Hmem, elem_of_nil, list_elem_of_fmap. split.
    + intros [[]|(h & Hx & Hin)]. by exists h.
    + intros (h & Hin & Hx). right. by exists h.
  - intros i j x y Hij Hi Hj.
    destruct (add_new_order (static_link cfg) hrefs [] i j x y (NoDup_nil_2 (A:=string))
                Hij Hi Hj) as [H|[[H _]|(_ & _ & p & a & Hp & Ha & Hbefore)]];
      [simpl in H; lia|simpl in H; lia|].
    by exists p, a.
Qed.

Lemma static_links_spec_witness :
  exists p href,
    ["/property/1"; "/about"; "/property/2"; "/property/1"] !! p = Some href /\
    static_link Example.static_cfg href = Some (Example.L "1") /\
    forall h, h ∈ take p ["/property/1"; "/about"; "/property/2"; "/property/1"] ->
              static_link Example.static_cfg h <> Some (Example.L "2").
Proof.
  apply (proj2 (proj2 (proj2 (static_links_spec Example.static_cfg
           ["/property/1"; "/about"; "/property/2"; "/property/1"])))
           0%nat 1%nat (Example.L "1") (Example.L "2"));
    [lia|reflexivity|reflexivity].
Defined.

(** X12: when [base_url] starts with ["http"], every link of a static search
    page starts with ["http"] and holds ["/property/"] or ["/listing/"]. *)
Theorem static_links_absolute (cfg : config) (hrefs : list string) :
  Text.startswith (base_url cfg) "http" = true ->
  Forall (fun x => Text.startswith x "http" = true /\
                   Text.contains "/property/" x || Text.contains "/listing/" x = true)
         (static_links cfg hrefs).
Proof.
  intros Hbase. apply Forall_forall. intros x Hx.
  rewrite static_links_add_new in Hx.
  destruct (add_new_fold (static_link cfg) hrefs [] (NoDup_nil_2 (A:=string)))
    as (_ & Hmem & _).
  apply Hmem in Hx as [Hx|Hx]; [by apply elem_of_nil in Hx|].
  apply list_elem_of_fmap in Hx as (h & Hx & _).
  unfold static_link in Hx. destruct (_ || _) eqn:Hmark; [|done].
  destruct (Text.startswith h "http") eqn:Hh; injection Hx as ->; [done|].
  unfold Text.startswith, Text.contains in *. rewrite list_ascii_of_string_app. split.
  - by apply is_prefix_app.
  - apply orb_prop in Hmark as [Hm|Hm]; apply orb_true_iff; [left|right];
      by apply contains_l_app_r.
Qed.

Lemma static_links_absolute_witness :
  Forall (fun x => Text.startswith x "http" = true /\
                   Text.contains "/property/" x || Text.contains "/listing/" x = true)
         (static_links Example.static_cfg
            ["/property/1"; "/about"; "http://other/listing/7"; "/property/1"]).
Proof. exact (static_links_absolute Example.static_cfg _ eq_refl). Defined.
(** ** The identifier of a listing *)

Lemma is_char_eq (x c : ascii) : Text.is_char x c = true -> c = x.
Proof.
  unfold Text.is_char, Text.code. intros H%N.eqb_eq.
  rewrite <- (ascii_N_embedding c), <- (ascii_N_embedding x). by rewrite H.
Qed.

Lemma is_char_refl (x : ascii) : Text.is_char x x = true.
Proof. apply N.eqb_refl. Qed.

Lemma split_go_app (sep s : ascii) (cur x y : list ascii) :
  Text.is_char sep s = true ->
  Text.split_go sep cur (x ++ s :: y) = Text.split_go sep cur x ++ Text.split_go sep [] y.
Proof.
  intros Hs. revert cur. induction x as [|c x IH]; intros cur; simpl.
  - by rewrite Hs.
  - destruct (Text.is_char sep c); [|apply IH]. by rewrite IH.
Qed.

Lemma split_go_no_sep (sep : ascii) (cur l : list ascii) :
  forallb (fun c => negb (Text.is_char sep c)) l = true ->
  Text.split_go sep cur l = [string_of_list_ascii (rev cur ++ l)].
Proof.
  revert cur. induction l as [|c l IH]; intros cur; simpl.
  - by rewrite app_nil_r.
  - intros [Hc Hl]%andb_prop. apply negb_true_iff in Hc. rewrite Hc, IH by done.
    simpl. by rewrite <- app_assoc.
Qed.

Lemma split_no_sep (s : string) : no_slash s = true -> Text.split "/" s = [s].
Proof.
  intros Hs. unfold Text.split. rewrite split_go_no_sep by done.
  simpl. by rewrite string_of_list_ascii_of_string.
Qed.

Lemma split_go_parts (sep : ascii) (cur l : list ascii) :
  forallb (fun c => negb (Text.is_char sep c)) cur = true ->
  Forall (fun p => forallb (fun c => negb (Text.is_char sep c)) (list_ascii_of_string p) = true)
         (Text.split_go sep cur l).
Proof.
  revert cur. induction l as [|c l IH]; intros cur Hcur; simpl.
  - apply Forall_singleton. by rewrite list_ascii_of_string_of_list_ascii, forallb_rev.
  - destruct (Text.is_char sep c) eqn:Hc.
    + apply Forall_cons. split; [|by apply IH].
      by rewrite list_ascii_of_string_of_list_ascii, forallb_rev.
    + apply IH. simpl. by rewrite Hc.
Qed.

Lemma split_go_not_nil (sep : ascii) (cur l : list ascii) : Text.split_go sep cur l <> [].
Proof.
  revert cur. induction l as [|c l IH]; intros cur; simpl; [done|].
  destruct (Text.is_char sep c); [done|apply IH].
Qed.

Lemma split_hd_no_slash (s : string) : no_slash (hd "" (Text.split "/" s)) = true.
Proof.
  pose proof (split_go_parts "/" [] (list_ascii_of_string s) eq_refl) as Hp.
  unfold Text.split. destruct (Text.split_go _ _ _) as [|p ps]; [done|].
  by apply Forall_cons in Hp as [Hp _].
Qed.

Lemma find_property_id_no_slash (parts : list string) (id : string) :
  find_property_id parts = Some id -> no_slash id = true.
Proof.
  induction parts as [|part rest IH]; [done|]. cbn [find_property_id].
  destruct (_ || _); [|done].
  destruct rest as [|next rest']; [done|]. intros [= <-]. apply split_hd_no_slash.
Qed.

Lemma find_property_id_marker (pre post : list string) (marker next : string) :
  no_marker marker = false ->
  is_Some (find_property_id (pre ++ marker :: next :: post)).
Proof.
  intros Hm. apply negb_false_iff in Hm.
  induction pre as [|part pre IH]; cbn [app find_property_id].
  - rewrite Hm. by eexists.
  - destruct (pre ++ marker :: next :: post) as [|x xs] eqn:Hx; [by destruct pre|].
    destruct (String.eqb part "property" || String.eqb part "listing"); [by eexists|done].
Qed.

Lemma find_property_id_first (pre post : list string) (marker next : string) :
  Forall (fun p => no_marker p = true) pre -> no_marker marker = false ->
  find_property_id (pre ++ marker :: next :: post) = Some (hd "" (Text.split "/" next)).
Proof.
  intros Hpre Hm. apply negb_false_iff in Hm.
  induction Hpre as [|part pre Hp _ IH]; cbn [app find_property_id].
  - by rewrite Hm.
  - apply negb_true_iff in Hp. by rewrite Hp.
Qed.

Lemma is_prefix_split (p l : list ascii) :
  Text.is_prefix p l = true -> exists b, l = p ++ b.
Proof.
  revert l. induction p as [|c p IH]; intros l; [by exists l|].
  destruct l as [|c' l]; [done|]. simpl. intros [Hc Hp]%andb_prop.
  apply is_char_eq in Hc as ->. destruct (IH l Hp) as [b ->]. by exists b.
Qed.

Lemma contains_l_split (p l : list ascii) :
  Text.contains_l p l = true -> exists a b, l = a ++ p ++ b.
Proof.
  induction l as [|c l IH]; cbn [Text.contains_l].
  - rewrite orb_false_r. intros [b ->]%is_prefix_split. by exists [], b.
  - intros [Hp|Hl]%orb_prop.
    + apply is_prefix_split in Hp as [b ->]. by exists [], b.
    + destruct (IH Hl) as (a & b & ->). by exists (c :: a), b.
Qed.

(** The parts of a path that holds ["/" marker "/"]. *)
Lemma split_marker (a b : list ascii) (marker : string) :
  no_slash marker = true ->
  Text.split_go "/" [] (a ++ "/"%char :: list_ascii_of_string marker ++ "/"%char :: b) =
  Text.split_go "/" [] a ++ marker :: Text.split_go "/" [] b.
Proof.
  intros Hm. rewrite split_go_app by apply is_char_refl. f_equal.
  rewrite split_go_app by apply is_char_refl.
  rewrite split_go_no_sep by done. simpl. by rewrite string_of_list_ascii_of_string.
Qed.

Lemma contains_marker_parts (marker url : string) :
  no_slash marker = true ->
  Text.contains ("/" +:+ marker +:+ "/") url = true ->
  exists pre next post, Text.split "/" url = pre ++ marker :: next :: post.
Proof.
  intros Hm Hc. unfold Text.contains in Hc. apply contains_l_split in Hc as (a & b & Hurl).
  rewrite !list_ascii_of_string_app in Hurl. cbn [list_ascii_of_string app] in Hurl.
  rewrite <- app_assoc in Hurl. cbn [app] in Hurl.
  unfold Text.split. rewrite Hurl, split_marker by done.
  pose proof (split_go_not_nil "/" [] b) as Hb.
  destruct (Text.split_go "/" [] b) as [|next post]; [done|]. by eexists _, _, _.
Qed.

(** X13: [property_id] is derived exactly when the URL holds ["/property/"]
    or ["/listing/"]: it is then a string without ["/"]; otherwise the record
    is left as it is. *)
Theorem property_id_derived (url : string) (d : dict) :
  if Text.contains "/property/" url || Text.contains "/listing/" url
  then exists id, snd (property_id_pass url d) = <["property_id" := PyStr id]> d /\
                  no_slash id = true
  else snd (property_id_pass url d) = d.
Proof.
  unfold property_id_pass.
  destruct (Text.contains "/property/" url) eqn:Hp; cbn [orb].
  - destruct (contains_marker_parts "property" url eq_refl Hp) as (pre & next & post & ->).
    destruct (find_property_id_marker pre post "property" next eq_refl) as [id Hid].
    rewrite Hid. exists id. split; [done|]. by apply find_property_id_no_slash in Hid.
  - destruct (Text.contains "/listing/" url) eqn:Hl; [|done].
    destruct (contains_marker_parts "listing" url eq_refl Hl) as (pre & next & post & ->).
    destruct (find_property_id_marker pre post "listing" next eq_refl) as [id Hid].
    rewrite Hid. exists id. split; [done|]. by apply find_property_id_no_slash in Hid.
Qed.
Lemma is_prefix_self (p b : list ascii) : Text.is_prefix p (p ++ b) = true.
Proof. induction p as [|c p IH]; [done|]. simpl. by rewrite is_char_refl. Qed.

Lemma contains_l_here (a p b : list ascii) : Text.contains_l p (a ++ p ++ b) = true.
Proof.
  apply contains_l_app_r. destruct (p ++ b) as [|c l] eqn:Hl.
  - destruct p; [done|discriminate Hl].
  - cbn [Text.contains_l]. rewrite <- Hl, is_prefix_self. done.
Qed.

Lemma no_marker_false (marker : string) :
  no_marker marker = false -> marker = "property" \/ marker = "listing".
Proof.
  unfold no_marker. intros [H|H]%negb_false_iff%orb_prop; apply String.eqb_eq in H; auto.
Qed.

Lemma split_id_tail (id tail : string) :
  no_slash id = true -> path_tail tail = true ->
  exists post,
    Text.split_go "/" [] (list_ascii_of_string id ++ list_ascii_of_string tail) = id :: post.
Proof.
  intros Hid Ht. destruct tail as [|c tail]; cbn [list_ascii_of_string].
  - rewrite app_nil_r, split_go_no_sep by done. simpl.
    rewrite string_of_list_ascii_of_string. by exists [].
  - simpl in Ht. rewrite split_go_app by done. rewrite split_go_no_sep by done. simpl.
    rewrite string_of_list_ascii_of_string. by eexists.
Qed.

(** X14: round trip: for a URL built as base ["/property/"] id (or
    ["/listing/"] id), followed by nothing or by ["/"] and more, where the id
    holds no ["/"] and no part of the base is ["property"] or ["listing"],
    [property_id] is that id. *)
Theorem property_id_round_trip (base marker id tail : string) (d : dict) :
  Forall (fun p => no_marker p = true) (Text.split "/" base) ->
  no_marker marker = false -> no_slash id = true -> path_tail tail = true ->
  snd (property_id_pass (base +:+ "/" +:+ marker +:+ "/" +:+ id +:+ tail) d)
  = <["property_id" := PyStr id]> d.
Proof.
  intros Hbase Hm Hid Ht.
  set (url := base +:+ "/" +:+ marker +:+ "/" +:+ id +:+ tail).
  assert (list_ascii_of_string url =
          list_ascii_of_string base ++ "/"%char :: list_ascii_of_string marker ++
          "/"%char :: (list_ascii_of_string id ++ list_ascii_of_string tail)) as Hurl.
  { subst url. rewrite !list_ascii_of_string_app. by cbn [list_ascii_of_string app]. }
  assert (no_slash marker = true) as Hms
    by (destruct (no_marker_false marker Hm) as [-> | ->]; done).
  assert (Text.contains "/property/" url || Text.contains "/listing/" url = true) as Hc.
  { unfold Text.contains. rewrite Hurl.
    destruct (no_marker_false marker Hm) as [-> | ->]; apply orb_true_iff; [left|right].
    - apply (contains_l_here _ (list_ascii_of_string "/property/")).
    - apply (contains_l_here _ (list_ascii_of_string "/listing/")). }
  unfold property_id_pass. rewrite Hc. unfold Text.split. rewrite Hurl, split_marker by done.
  destruct (split_id_tail id tail Hid Ht) as [post ->].
  rewrite find_property_id_first by done. by rewrite split_no_sep.
Qed.

Lemma property_id_round_trip_witness :
  snd (property_id_pass
         ("https://www.loopnet.com" +:+ "/" +:+ "listing" +:+ "/" +:+ "123-main-st"
          +:+ "/photos") (new_property_data "u"))
  = <["property_id" := PyStr "123-main-st"]> (new_property_data "u").
Proof.
  apply (property_id_round_trip "https://www.loopnet.com" "listing" "123-main-st" "/photos").
  - change (Text.split "/" "https://www.loopnet.com")
      with ["https:"; ""; "www.loopnet.com"].
    repeat (apply Forall_cons; split); try reflexivity. apply Forall_nil. done.
  - reflexivity.
  - reflexivity.
  - reflexivity.
Defined.
(** * Further properties of [scripts/utils.py] *)

(** ** The two parsers *)

(** X15: neither parser ever returns a number below zero: no sign survives
    the character classes, so ["-500"] parses to 500. *)
Theorem parsers_never_negative (s : option string) :
  (exists x, parse_price s = Ret x /\ Float.ltb x Float.zero = false) /\
  (exists y, parse_square_feet s = Ret y /\ Float.ltb y Float.zero = false) /\
  parse_price (Some "-500") = Ret (Float.of_decimal 500 0).
Proof.
  split; [|split; [|by vm_compute]].
  - destruct (parse_price_returns s) as [x Hx]. exists x. split; [done|].
    destruct s as [s|]; [|by injection Hx as <-].
    unfold parse_price in Hx.
    destruct (Float.py_float (price_token s)) as [x'|[]] eqn:Hf; try done.
    + injection Hx as <-. by apply py_float_not_negative in Hf.
    + by injection Hx as <-.
  - destruct (parse_square_feet_returns s) as [y Hy]. exists y. split; [done|].
    by apply parse_square_feet_not_negative in Hy.
Qed.

Lemma filter_filter (p q : ascii -> bool) (l : list ascii) :
  List.filter q (List.filter p l) = List.filter (fun c => p c && q c) l.
Proof.
  induction l as [|c l IH]; [done|]. simpl.
  destruct (p c); simpl; [|done]. destruct (q c); by rewrite IH.
Qed.

Lemma filter_ext' (p q : ascii -> bool) (l : list ascii) :
  (forall c, p c = q c) -> List.filter p l = List.filter q l.
Proof. intros H. induction l as [|c l IH]; [done|]. simpl. by rewrite H, IH. Qed.

Lemma filter_none (p q : ascii -> bool) (l : list ascii) :
  forallb (fun c => negb (q c)) l = true -> (forall c, p c = true -> q c = true) ->
  List.filter p l = [].
Proof.
  intros Hl Hpq. induction l as [|c l IH]; [done|]. simpl in *.
  apply andb_prop in Hl as [Hc Hl]. destruct (p c) eqn:Hp; [|by apply IH].
  apply Hpq in Hp. by rewrite Hp in Hc.
Qed.

Lemma price_token_chars (s : string) :
  list_ascii_of_string (price_token s) =
  List.filter (fun c => Text.is_digit c || Text.is_char "." c) (list_ascii_of_string s).
Proof.
  unfold price_token. rewrite !keep_chars, filter_filter. apply filter_ext'.
  intros c. unfold Text.one_of. simpl.
  destruct (Text.is_char "," c) eqn:Hc.
  - apply is_char_eq in Hc as ->. done.
  - by destruct (Text.is_digit c), (Text.is_char "." c).
Qed.


(** X16: on ASCII text [parse_price] reads the digits and periods only:
    characters that are neither (currency signs, letters, spaces, commas, a
    minus sign) may be put in or taken out anywhere without changing the
    result. *)
Theorem parse_price_ignores_other_characters (a u b : string) :
  ascii_text (a +:+ u +:+ b) = true ->
  forallb (fun c => negb (Text.is_digit c || Text.is_char "." c))
          (list_ascii_of_string u) = true ->
  parse_price (Some (a +:+ u +:+ b)) = parse_price (Some (a +:+ b)).
Proof.
  intros _ Hu. unfold parse_price.
  assert (price_token (a +:+ u +:+ b) = price_token (a +:+ b)) as ->; [|done].
  apply string_of_chars_inj.
  rewrite !price_token_chars, !list_ascii_of_string_app, !List.filter_app.
  by rewrite (filter_none _ (fun c => Text.is_digit c || Text.is_char "." c)
                (list_ascii_of_string u)).
Qed.

Lemma parse_price_ignores_other_characters_witness :
  parse_price (Some ("$1" +:+ ",  " +:+ "250 USD")) = parse_price (Some ("$1" +:+ "250 USD")).
Proof.
  exact (parse_price_ignores_other_characters "$1" ",  " "250 USD" eq_refl eq_refl).
Defined.

(** X17: on ASCII text [parse_square_feet] reads the first number only:
    whatever comes before the first run of digits and commas and whatever
    comes after it is ignored, so ["from 2,500 to 5,000 SF"] gives 2500. *)
Theorem parse_square_feet_first_number (a run rest : string) :
  let p c := Text.is_digit c || Text.is_char "," c in
  ascii_text (a +:+ run +:+ rest) = true ->
  forallb (fun c => negb (p c)) (list_ascii_of_string a) = true ->
  run <> "" -> forallb p (list_ascii_of_string run) = true ->
  match rest with EmptyString => true | String c _ => negb (p c) end = true ->
  parse_square_feet (Some (a +:+ run +:+ rest)) = parse_square_feet (Some run).
Proof.
  intros p _ Ha Hne Hrun Hrest. unfold parse_square_feet.
  assert (forall l, l <> [] -> forallb p l = true ->
                    search_run p l = Some (Text.take_while p l)) as Hsearch.
  { intros [|c l] Hl Hp; [done|]. simpl in *. by apply andb_prop in Hp as [-> _]. }
  assert (list_ascii_of_string run <> []) as Hne' by (by destruct run).
  assert (sqft_match (a +:+ run +:+ rest) = Some run) as ->.
  { unfold sqft_match. rewrite !list_ascii_of_string_app, search_run_skip by done.
    fold p. destruct (list_ascii_of_string run) as [|c l] eqn:Hl; [done|].
    cbn [app search_run]. cbn [forallb] in Hrun. apply andb_prop in Hrun as [Hc Hrun'].
    rewrite Hc. cbn [fmap option_fmap option_map]. f_equal.
    change (c :: l ++ list_ascii_of_string rest) with ((c :: l) ++ list_ascii_of_string rest).
    rewrite take_while_run.
    - by rewrite <- Hl, string_of_list_ascii_of_string.
    - simpl. by rewrite Hc.
    - by destruct rest. }
  assert (sqft_match run = Some run) as ->; [|done].
  unfold sqft_match. fold p. rewrite Hsearch by done.
  cbn [fmap option_fmap option_map]. f_equal.
  rewrite <- (app_nil_r (list_ascii_of_string run)) at 1.
  rewrite take_while_run by done. apply string_of_list_ascii_of_string.
Qed.

Lemma parse_square_feet_first_number_witness :
  parse_square_feet (Some ("from " +:+ "2,500" +:+ " to 5,000 SF"))
  = parse_square_feet (Some "2,500").
Proof.
  apply (parse_square_feet_first_number "from " "2,500" " to 5,000 SF"); try reflexivity.
  discriminate.
Defined.
(** ** [clean_text] *)

Lemma clean_char_space (c : ascii) :
  clean_char c = true -> Text.is_space c = Text.is_char " " c.
Proof. destruct c as [[] [] [] [] [] [] [] []]; by vm_compute. Qed.

Lemma kept_clean_char (c : ascii) :
  (Text.is_word c || Text.is_space c || Text.one_of ".,!?;:()-'" c
   || (Text.code c =? 34)%N) = true ->
  negb (Text.is_space c) || Text.is_char " " c = true -> clean_char c = true.
Proof. destruct c as [[] [] [] [] [] [] [] []]; by vm_compute. Qed.

Lemma clean_char_kept (c : ascii) :
  clean_char c = true ->
  (Text.is_word c || Text.is_space c || Text.one_of ".,!?;:()-'" c
   || (Text.code c =? 34)%N) = true.
Proof. destruct c as [[] [] [] [] [] [] [] []]; by vm_compute. Qed.

(** What [squeeze] gives. *)
Lemma squeeze_go_forallb (p q : ascii -> bool) (r : bool) (l : list ascii) :
  q " "%char = true -> forallb q l = true -> forallb q (Text.squeeze_go p r l) = true.
Proof.
  intros Hq. revert r. induction l as [|c l IH]; intros r; simpl; [done|].
  intros [Hc Hl]%andb_prop. destruct (p c).
  - destruct r; simpl; [|rewrite Hq]; by apply IH.
  - simpl. rewrite Hc. by apply IH.
Qed.

Lemma squeeze_go_class (p : ascii -> bool) (r : bool) (l : list ascii) :
  forallb (fun c => negb (p c) || Text.is_char " " c) (Text.squeeze_go p r l) = true.
Proof.
  revert r. induction l as [|c l IH]; intros r; simpl; [done|].
  destruct (p c) eqn:Hc.
  - destruct r; simpl; [apply IH|]. rewrite IH. by rewrite orb_true_r.
  - simpl. by rewrite Hc, IH.
Qed.

Lemma no_double_space_cons (a : ascii) (l : list ascii) :
  no_double_space (a :: l) =
  match l with
  | [] => true
  | b :: _ => negb (Text.is_char " " a && Text.is_char " " b)
  end && no_double_space l.
Proof. by destruct l. Qed.

Lemma squeeze_go_spaces (r : bool) (l : list ascii) :
  no_double_space (Text.squeeze_go (Text.is_char " ") r l) = true /\
  (r = true ->
   match Text.squeeze_go (Text.is_char " ") r l with
   | [] => true
   | c :: _ => negb (Text.is_char " " c)
   end = true).
Proof.
  revert r. induction l as [|c l IH]; intros r; simpl; [done|].
  destruct (Text.is_char " " c) eqn:Hc.
  - destruct r.
    + apply IH.
    + destruct (IH true) as [Hnd Hhd]. specialize (Hhd eq_refl). split; [|done].
      rewrite no_double_space_cons, Hnd.
      destruct (Text.squeeze_go _ true l) as [|b t]; [done|].
      apply negb_true_iff in Hhd. by rewrite Hhd, andb_false_r.
  - destruct (IH false) as [Hnd _]. split; [|by rewrite Hc].
    rewrite no_double_space_cons, Hnd.
    destruct (Text.squeeze_go _ false l) as [|b t]; [done|]. by rewrite Hc.
Qed.

(** [squeeze] leaves a list alone whose class characters are single
    spaces. *)
Lemma squeeze_go_id (p : ascii -> bool) (r : bool) (l : list ascii) :
  forallb (fun c => negb (p c) || Text.is_char " " c) l = true ->
  (forall c, Text.is_char " " c = true -> p c = true) ->
  no_double_space l = true ->
  (r = true -> match l with [] => true | c :: _ => negb (p c) end = true) ->
  Text.squeeze_go p r l = l.
Proof.
  intros Hcl Hsp. revert r Hcl. induction l as [|c l IH]; intros r Hcl Hnd Hr; [done|].
  cbn [forallb] in Hcl. apply andb_prop in Hcl as [Hc Hl]. cbn [Text.squeeze_go].
  rewrite no_double_space_cons in Hnd. apply andb_prop in Hnd as [Hab Hnd'].
  destruct (p c) eqn:Hpc.
  - destruct r; [by specialize (Hr eq_refl)|].
    simpl in Hc. apply is_char_eq in Hc as ->. f_equal. apply IH; try done.
    intros _. destruct l as [|b t]; [done|].
    rewrite is_char_refl in Hab. simpl in Hab.
    destruct (p b) eqn:Hpb; [|done].
    cbn [forallb] in Hl. apply andb_prop in Hl as [Hb _]. rewrite Hpb in Hb.
    simpl in Hb. by rewrite Hb in Hab.
  - f_equal. by apply IH.
Qed.

(** What [strip] gives. *)
Lemma drop_while_suffix (p : ascii -> bool) (l : list ascii) :
  exists w, l = w ++ Text.drop_while p l.
Proof.
  induction l as [|c l [w IH]]; [by exists []|]. simpl.
  destruct (p c); [|by exists []]. exists (c :: w). simpl. by f_equal.
Qed.

Lemma drop_while_first (l : list ascii) :
  no_space_first (Text.drop_while Text.is_space l) = true.
Proof.
  induction l as [|c l IH]; [done|]. simpl.
  destruct (Text.is_space c) eqn:Hc; [done|]. simpl. by rewrite Hc.
Qed.

Lemma drop_while_id (l : list ascii) :
  no_space_first l = true -> Text.drop_while Text.is_space l = l.
Proof. destruct l as [|c l]; [done|]. simpl. intros H%negb_true_iff. by rewrite H. Qed.

Lemma no_double_space_app_l (l1 l2 : list ascii) :
  no_double_space (l1 ++ l2) = true -> no_double_space l1 = true.
Proof.
  induction l1 as [|a l1 IH]; [done|]. cbn [app]. rewrite !no_double_space_cons.
  intros [Hab Ht]%andb_prop. rewrite (IH Ht), andb_true_r.
  by destruct l1.
Qed.

Lemma no_double_space_app_r (l1 l2 : list ascii) :
  no_double_space (l1 ++ l2) = true -> no_double_space l2 = true.
Proof.
  induction l1 as [|a l1 IH]; [done|]. cbn [app]. rewrite no_double_space_cons.
  intros [_ Ht]%andb_prop. by apply IH.
Qed.

Lemma strip_l_prefix (l : list ascii) :
  exists w1 w2, l = w1 ++ Text.strip_l l ++ w2.
Proof.
  unfold Text.strip_l. destruct (drop_while_suffix Text.is_space l) as [w1 H1].
  destruct (drop_while_suffix Text.is_space (rev (Text.drop_while Text.is_space l)))
    as [w2 H2].
  exists w1, (rev w2). rewrite <- rev_app_distr, <- H2, rev_involutive. exact H1.
Qed.

Lemma strip_l_first (l : list ascii) : no_space_first (Text.strip_l l) = true.
Proof.
  unfold Text.strip_l. set (m := Text.drop_while Text.is_space l).
  pose proof (drop_while_first l) as Hm. fold m in Hm.
  destruct (drop_while_suffix Text.is_space (rev m)) as [w Hw].
  assert (m = rev (Text.drop_while Text.is_space (rev m)) ++ rev w) as Hm'.
  { by rewrite <- rev_app_distr, <- Hw, rev_involutive. }
  destruct (rev (Text.drop_while Text.is_space (rev m))) as [|c t]; [done|].
  rewrite Hm' in Hm. exact Hm.
Qed.

Lemma strip_l_last (l : list ascii) : no_space_first (rev (Text.strip_l l)) = true.
Proof. unfold Text.strip_l. rewrite rev_involutive. apply drop_while_first. Qed.

Lemma strip_l_id (l : list ascii) :
  no_space_first l = true -> no_space_first (rev l) = true -> Text.strip_l l = l.
Proof.
  intros H1 H2. unfold Text.strip_l. rewrite (drop_while_id l H1), (drop_while_id _ H2).
  apply rev_involutive.
Qed.

(** The characters of [clean_text]. *)
Lemma clean_text_chars (s : string) :
  list_ascii_of_string (clean_text (Some s)) =
  Text.strip_l
    (Text.squeeze_go (Text.is_char " ") false
       (List.filter (fun c => Text.is_word c || Text.is_space c
                              || Text.one_of ".,!?;:()-'" c || (Text.code c =? 34)%N)
          (Text.squeeze_go Text.is_space false (list_ascii_of_string s)))).
Proof.
  unfold clean_text, Text.strip, Text.squeeze, Text.keep.
  by rewrite !list_ascii_of_string_of_list_ascii.
Qed.
Lemma forallb_impl (p q : ascii -> bool) (l : list ascii) :
  (forall c, p c = true -> q c = true) -> forallb p l = true -> forallb q l = true.
Proof.
  intros Hpq. induction l as [|c l IH]; [done|]. simpl.
  intros [Hc Hl]%andb_prop. by rewrite (Hpq c Hc), IH.
Qed.

Lemma forallb_strip_l (p : ascii -> bool) (l : list ascii) :
  forallb p l = true -> forallb p (Text.strip_l l) = true.
Proof.
  intros Hl. unfold Text.strip_l. rewrite forallb_rev.
  apply forallb_drop_while. rewrite forallb_rev. by apply forallb_drop_while.
Qed.

(** A text in clean form is a fixed point of [clean_text]. *)
Lemma clean_text_fixed (t : string) : is_clean t = true -> clean_text (Some t) = t.
Proof.
  unfold is_clean. cbn zeta.
  intros [[[Hch Hnd]%andb_prop Hf]%andb_prop Hl]%andb_prop.
  apply string_of_chars_inj. rewrite clean_text_chars.
  set (l := list_ascii_of_string t) in *.
  assert (Text.squeeze_go Text.is_space false l = l) as ->.
  { apply squeeze_go_id; [| |done|done].
    - revert Hch. apply forallb_impl. intros c Hc.
      rewrite (clean_char_space c Hc). by destruct (Text.is_char " " c).
    - intros c ->%is_char_eq. done. }
  rewrite filter_forallb_id by (revert Hch; apply forallb_impl, clean_char_kept).
  assert (Text.squeeze_go (Text.is_char " ") false l = l) as ->.
  { apply squeeze_go_id; [|done|done|done].
    apply (forallb_impl (fun _ => true)).
    - intros c _. by destruct (Text.is_char " " c).
    - clear. induction l; simpl; auto. }
  by apply strip_l_id.
Qed.

Lemma forallb_filter_of (p p2 q : ascii -> bool) (l : list ascii) :
  (forall c, p c = true -> p2 c = true -> q c = true) ->
  forallb p l = true -> forallb q (List.filter p2 l) = true.
Proof.
  intros Hq. induction l as [|c l IH]; simpl; [done|].
  intros [Hc Hl]%andb_prop.
  destruct (p2 c) eqn:H2; simpl; [|by apply IH].
  by rewrite (Hq c Hc H2), IH.
Qed.

Lemma clean_text_some_clean (s : string) : is_clean (clean_text (Some s)) = true.
Proof.
  unfold is_clean. cbn zeta. rewrite clean_text_chars.
  set (l1 := Text.squeeze_go Text.is_space false (list_ascii_of_string s)).
  set (l2 := List.filter _ l1).
  set (l3 := Text.squeeze_go (Text.is_char " ") false l2).
  assert (forallb clean_char l2 = true) as H2.
  { subst l2.
    apply (forallb_filter_of (fun c => negb (Text.is_space c) || Text.is_char " " c)).
    - intros c Hc Hk. by apply kept_clean_char.
    - apply squeeze_go_class. }
  assert (forallb clean_char l3 = true) as H3 by (by apply squeeze_go_forallb).
  assert (no_double_space l3 = true) as Hnd by apply squeeze_go_spaces.
  rewrite forallb_strip_l, strip_l_first, strip_l_last by done.
  destruct (strip_l_prefix l3) as (w1 & w2 & Hw). rewrite Hw in Hnd.
  apply no_double_space_app_r, no_double_space_app_l in Hnd. by rewrite Hnd.
Qed.

(** X18: what [clean_text] returns for an ASCII text (or for [None]) holds
    only letters, digits, underscores, the punctuation marks that the function
    keeps and single spaces, and neither starts nor ends with whitespace. *)
Theorem clean_text_is_clean (text : option string) :
  from_option ascii_text true text = true -> is_clean (clean_text text) = true.
Proof. intros _. destruct text as [s|]; [apply clean_text_some_clean|done]. Qed.

Lemma clean_text_is_clean_witness :
  is_clean (clean_text (Some "  Prime   office  (2nd floor) #12 ")) = true.
Proof. apply (clean_text_is_clean (Some "  Prime   office  (2nd floor) #12 ")). reflexivity. Defined.

(** X19: [clean_text] is idempotent: cleaning a cleaned text again (as the
    combiner does with the scraped columns) changes nothing. *)
Theorem clean_text_idempotent (text : option string) :
  clean_text (Some (clean_text text)) = clean_text text.
Proof.
  apply clean_text_fixed. destruct text as [s|]; [apply clean_text_some_clean|done].
Qed.
Lemma upper_not_space (c : ascii) : Text.is_upper c = true -> Text.is_space c = false.
Proof. destruct c as [[] [] [] [] [] [] [] []]; by vm_compute. Qed.

Lemma two_capitals_elim (l g : list ascii) :
  two_capitals l = Some g ->
  exists a b post, l = a :: b :: post /\ g = [a; b] /\
                   Text.is_upper a = true /\ Text.is_upper b = true.
Proof.
  destruct l as [|a [|b post]]; simpl; try done.
  destruct (Text.is_upper a) eqn:Ha, (Text.is_upper b) eqn:Hb; simpl; try done.
  intros [= <-]. by exists a, b, post.
Qed.

Lemma city_state_at_elim (l g1 g2 : list ascii) :
  city_state_at l = Some (g1, g2) ->
  exists ws a b post,
    l = g1 ++ "," %char :: ws ++ a :: b :: post /\ g1 <> [] /\
    forallb (fun c => negb (Text.is_char "," c)) g1 = true /\
    forallb Text.is_space ws = true /\
    Text.is_upper a = true /\ Text.is_upper b = true /\ g2 = [a; b].
Proof.
  intros Hat. pose proof (city_state_at_group1 _ _ _ Hat) as Hg1. revert Hat.
  unfold city_state_at. intros (n & Hn & Hf)%first_some_elim.
  apply greedy_bounds in Hn as [Hn1 Hn].
  destruct (drop n l) as [|c r] eqn:Hd; [done|].
  destruct (Text.is_char "," c) eqn:Hc; [|done]. apply is_char_eq in Hc as ->.
  apply first_some_elim in Hf as (m & Hm & Hf).
  apply greedy_bounds in Hm as [_ Hm].
  destruct (two_capitals _) as [g|] eqn:Hg; [|done]. injection Hf as <- <-.
  apply two_capitals_elim in Hg as (a & b & post & Hdr & -> & Ha & Hb).
  exists (take m r), a, b, post. repeat split; try done.
  - rewrite <- Hdr, take_drop, <- Hd. by rewrite take_drop.
  - intros Hnil. assert (length (take n l) = 0%nat) as Hlen by by rewrite Hnil.
    rewrite length_take in Hlen.
    assert (length (drop n l) = S (length r)) as Hdl by by rewrite Hd.
    rewrite length_drop in Hdl. lia.
  - rewrite (take_take_while _ _ _ Hm). apply forallb_take, take_while_forallb.
Qed.

Lemma city_state_search_eq (l : list ascii) :
  city_state_search l =
  match city_state_at l with
  | Some r => Some r
  | None => match l with [] => None | _ :: l' => city_state_search l' end
  end.
Proof. by destruct l. Qed.

Lemma city_state_search_elim (l g1 g2 : list ascii) :
  city_state_search l = Some (g1, g2) ->
  exists pre ws a b post,
    l = pre ++ g1 ++ "," %char :: ws ++ a :: b :: post /\ g1 <> [] /\
    forallb (fun c => negb (Text.is_char "," c)) g1 = true /\
    forallb Text.is_space ws = true /\
    Text.is_upper a = true /\ Text.is_upper b = true /\ g2 = [a; b].
Proof.
  induction l as [|c l IH]; rewrite city_state_search_eq;
    destruct (city_state_at _) as [[h1 h2]|] eqn:Hat; try done.
  - intros [= -> ->]. apply city_state_at_elim in Hat as (ws & a & b & post & H).
    by exists [], ws, a, b, post.
  - intros (pre & ws & a & b & post & -> & H)%IH.
    by exists (c :: pre), ws, a, b, post.
Qed.

Lemma first_some_intro {A B} (f : A -> option B) (ns : list A) (n : A) :
  n ∈ ns -> is_Some (f n) -> is_Some (Text.first_some f ns).
Proof.
  induction ns as [|k ns IH]; simpl; [by intros ?%elem_of_nil|].
  intros [->|Hn]%elem_of_cons Hf.
  - destruct Hf as [r ->]. by eexists.
  - destruct (f k); [by eexists|]. by apply IH.
Qed.

Lemma greedy_elem (lo hi n : nat) : (lo <= n <= hi)%nat -> n ∈ Text.greedy lo hi.
Proof.
  unfold Text.greedy. rewrite list_elem_of_In, <- in_rev, in_seq. lia.
Qed.

Lemma take_while_app_stop (p : ascii -> bool) (l : list ascii) (c : ascii)
    (r : list ascii) :
  forallb p l = true -> p c = false -> Text.take_while p (l ++ c :: r) = l.
Proof.
  intros Hl Hc. induction l as [|x l IH]; simpl; [by rewrite Hc|].
  simpl in Hl. apply andb_prop in Hl as [-> Hl]. by rewrite IH.
Qed.

Lemma city_state_at_intro (g1 ws : list ascii) (a b : ascii) (post : list ascii) :
  g1 <> [] ->
  forallb (fun c => negb (Text.is_char "," c)) g1 = true ->
  forallb Text.is_space ws = true ->
  Text.is_upper a = true -> Text.is_upper b = true ->
  is_Some (city_state_at (g1 ++ "," %char :: ws ++ a :: b :: post)).
Proof.
  intros Hne Hg1 Hws Ha Hb. unfold city_state_at.
  apply (first_some_intro _ _ (length g1)).
  - apply greedy_elem. rewrite take_while_app_stop by done.
    destruct g1; [done|]. simpl. lia.
  - rewrite drop_app_length. change (Text.is_char "," ",") with true. cbn match.
    cbv beta iota.
    apply (first_some_intro _ _ (length ws)).
    + apply greedy_elem. rewrite take_while_app_stop; [lia|done|].
      by apply upper_not_space.
    + rewrite drop_app_length. simpl. rewrite Ha, Hb. by eexists.
Qed.

Lemma city_state_search_intro (pre rest : list ascii) :
  is_Some (city_state_at rest) -> is_Some (city_state_search (pre ++ rest)).
Proof.
  intros [r Hr]. induction pre as [|c pre IH]; rewrite city_state_search_eq.
  - simpl. rewrite Hr. by eexists.
  - destruct (city_state_at ((c :: pre) ++ rest)) as [q|]; [by exists q|]. apply IH.
Qed.

(** X20: for an ASCII location [extract_city_state] finds a city and a
    state exactly when the trimmed location holds a non-empty run without
    commas, a comma, optional whitespace and two capital letters. *)
Theorem extract_city_state_matches (location : string) :
  ascii_text location = true ->
  (exists city state,
      extract_city_state (Some location) = (Some city, Some state)) <->
  (exists pre g1 ws a b post,
      list_ascii_of_string (Text.strip location)
      = pre ++ g1 ++ "," %char :: ws ++ a :: b :: post /\
      g1 <> [] /\
      forallb (fun c => negb (Text.is_char "," c)) g1 = true /\
      forallb Text.is_space ws = true /\
      Text.is_upper a = true /\ Text.is_upper b = true).
Proof.
  intros _. unfold extract_city_state. cbn zeta. split.
  - intros (city & state & H).
    destruct (city_state_search _) as [[g1 g2]|] eqn:Hs; [|done].
    apply city_state_search_elim in Hs as (pre & ws & a & b & post & Hl & ? & ? & ? & ? & ? & _).
    by exists pre, g1, ws, a, b, post.
  - intros (pre & g1 & ws & a & b & post & -> & Hne & Hg1 & Hws & Ha & Hb).
    destruct (city_state_search_intro pre _
                (city_state_at_intro g1 ws a b post Hne Hg1 Hws Ha Hb)) as [[h1 h2] ->].
    by eexists _, _.
Qed.

Lemma extract_city_state_matches_witness :
  exists city state, extract_city_state (Some "Austin, TX") = (Some city, Some state).
Proof.
  apply (extract_city_state_matches "Austin, TX" eq_refl).
  exists [], (list_ascii_of_string "Austin"), [" "%char], "T"%char, "X"%char, [].
  repeat split; try reflexivity. discriminate.
Defined.

(** X21: [extract_city_state] returns both parts or neither; the state it
    returns is two capital letters and the city has no whitespace at either
    end. *)
Theorem extract_city_state_both_or_neither (location : option string) :
  extract_city_state location = (None, None) \/
  exists city a b,
    extract_city_state location = (Some city, Some (String a (String b EmptyString))) /\
    Text.is_upper a = true /\ Text.is_upper b = true /\
    no_space_first (list_ascii_of_string city) = true /\
    no_space_first (rev (list_ascii_of_string city)) = true.
Proof.
  destruct location as [location|]; [|by left]. unfold extract_city_state. cbn zeta.
  destruct (city_state_search _) as [[g1 g2]|] eqn:Hs; [|by left]. right.
  apply city_state_search_elim in Hs as (pre & ws & a & b & post & _ & _ & _ & _ & Ha & Hb & ->).
  exists (Text.strip (string_of_list_ascii g1)), a, b. repeat split; try done.
  - f_equal. f_equal. unfold Text.strip.
    rewrite list_ascii_of_string_of_list_ascii, strip_l_id; [done| |]; simpl;
      by rewrite upper_not_space.
  - unfold Text.strip. rewrite list_ascii_of_string_of_list_ascii. apply strip_l_first.
  - unfold Text.strip. rewrite list_ascii_of_string_of_list_ascii. apply strip_l_last.
Qed.

(** X22: a location without a comma has no city and no state. *)
Theorem extract_city_state_without_comma (location : string) :
  forallb (fun c => negb (Text.is_char "," c)) (list_ascii_of_string location) = true ->
  extract_city_state (Some location) = (None, None).
Proof.
  intros Hl%forallb_strip. unfold extract_city_state. cbn zeta.
  destruct (city_state_search _) as [[g1 g2]|] eqn:Hs; [|done].
  apply city_state_search_elim in Hs as (pre & ws & a & b & post & Heq & _).
  rewrite Heq, !forallb_app in Hl. simpl in Hl.
  rewrite andb_false_r, andb_false_r in Hl. done.
Qed.

Lemma extract_city_state_without_comma_witness :
  extract_city_state (Some "Unknown Location") = (None, None).
Proof. apply extract_city_state_without_comma. reflexivity. Defined.
(** ** [fips_to_state_abbr] *)



Lemma string_of_uint_not_empty (d : Decimal.uint) :
  d <> Decimal.Nil -> NilEmpty.string_of_uint d <> EmptyString.
Proof. by destruct d. Qed.










Lemma fips_table_ok : forallb table_entry_ok fips_table = true.
Proof. by vm_compute. Qed.

Lemma fips_table_entry (k a : string) :
  FIPS_TO_STATE !! k = Some a ->
  exists m x y, 1 <= m <= 56 /\ format_02d m = k /\
                a = String x (String y EmptyString) /\
                Text.is_upper x = true /\ Text.is_upper y = true.
Proof.
  intros H%elem_of_list_to_map_2%list_elem_of_In.
  pose proof (proj1 (forallb_forall _ _) fips_table_ok _ H) as Hok.
  unfold table_entry_ok in Hok. cbn [fst snd] in Hok.
  destruct (NilZero.uint_of_string k) as [d|]; [|done].
  destruct (list_ascii_of_string a) as [|x [|y [|z r]]] eqn:Ha; try done.
  apply andb_prop in Hok as [[[[H1 H2]%andb_prop Hf]%andb_prop Hx]%andb_prop Hy].
  exists (Z.of_N (N.of_uint d)), x, y. repeat split; try done; try lia.
  - by apply String.eqb_eq.
  - rewrite <- (string_of_list_ascii_of_string a), Ha. done.
Qed.






Lemma drop_while_app_all (p : ascii -> bool) (w l : list ascii) :
  forallb p w = true -> Text.drop_while p (w ++ l) = Text.drop_while p l.
Proof.
  induction w as [|c w IH]; simpl; [done|]. intros [-> Hw]%andb_prop. by apply IH.
Qed.

Lemma drop_while_app_tail (p : ascii -> bool) (l w : list ascii) :
  forallb p w = true ->
  Text.drop_while p (l ++ w)
  = match Text.drop_while p l with [] => [] | m => m ++ w end.
Proof.
  intros Hw. induction l as [|c l IH]; simpl.
  - rewrite <- (app_nil_r w), drop_while_app_all by done. done.
  - destruct (p c); [apply IH|done].
Qed.

Lemma strip_l_padding (w1 l w2 : list ascii) :
  forallb Text.is_space w1 = true -> forallb Text.is_space w2 = true ->
  Text.strip_l (w1 ++ l ++ w2) = Text.strip_l l.
Proof.
  intros H1 H2. unfold Text.strip_l.
  rewrite drop_while_app_all, drop_while_app_tail by done.
  destruct (Text.drop_while Text.is_space l) as [|c m]; [done|].
  rewrite rev_app_distr, drop_while_app_all; [done|]. by rewrite forallb_rev.
Qed.

(** X23: the abbreviation that [fips_to_state_abbr] returns, for whatever
    argument, is two capital letters. *)
Theorem fips_to_state_abbr_two_capitals (code : fips_code) (abbr : string) :
  fips_to_state_abbr code = Returns (Some abbr) ->
  exists x y, abbr = String x (String y EmptyString) /\
              Text.is_upper x = true /\ Text.is_upper y = true.
Proof.
  assert (forall k, FIPS_TO_STATE !! k = Some abbr ->
                    exists x y, abbr = String x (String y EmptyString) /\
                                Text.is_upper x = true /\ Text.is_upper y = true) as Hk.
  { intros k (m & x & y & _ & _ & H)%fips_table_entry. by exists x, y. }
  destruct code as [|n|x|s]; cbn [fips_to_state_abbr]; try done.
  - intros [= H]. eauto.
  - destruct (Float.is_nan x); [done|]. destruct (int_of_float x); [|done].
    intros [= H]. eauto.
  - cbn zeta. intros [= H]. eauto.
Qed.

Lemma fips_to_state_abbr_two_capitals_witness :
  exists x y, "NY"%string = String x (String y EmptyString) /\
              Text.is_upper x = true /\ Text.is_upper y = true.
Proof. apply (fips_to_state_abbr_two_capitals (FipsStr "36")). reflexivity. Defined.




(** X26: whitespace around a string code does not count. *)
Theorem fips_to_state_abbr_ignores_whitespace (w1 s w2 : string) :
  forallb Text.is_space (list_ascii_of_string w1) = true ->
  forallb Text.is_space (list_ascii_of_string w2) = true ->
  fips_to_state_abbr (FipsStr (w1 +:+ s +:+ w2)) = fips_to_state_abbr (FipsStr s).
Proof.
  intros H1 H2. cbn [fips_to_state_abbr]. cbn zeta. unfold Text.strip.
  by rewrite !list_ascii_of_string_app, strip_l_padding.
Qed.

Lemma fips_to_state_abbr_ignores_whitespace_witness :
  fips_to_state_abbr (FipsStr (" " +:+ "6" +:+ "  ")) = fips_to_state_abbr (FipsStr "6").
Proof. apply fips_to_state_abbr_ignores_whitespace; reflexivity. Defined.
